(** * LLM-Model-Updates-Tracker: [scripts/fetch_updates.py]

    A shallow embedding of the tracker (class [IntelligentModelTracker]) and
    the properties of its deduplication, date filter, normalisation and
    persistence.

    Conventions of the embedding.
    - A Python [str] is a [string]: the bytes of its UTF-8 text. A slice
      [s[:n]] counts characters, a character being a byte that is not a
      continuation byte with the continuation bytes after it. The character
      classes ([\d], whitespace, upper case) are Python's on ASCII
      characters; on text outside ASCII Python's classes are larger (other
      decimal digits, other blanks, other letters with a lower case), so
      the properties that depend on a class are stated for ASCII text
      ([ascii_text]).
    - A raised exception is [Raise e]; a [try]/[except] is a match on it.
    - The data file, the clock and the three remote services are explicit
      arguments: [store_state], [today] and [world]. The clock is read as one
      date, [today], during a run: a run that goes past midnight is outside
      the embedding. [strftime] writes the year on four digits, as it does
      from the year 1000 on.
    - The data file, when it is JSON, holds a list of records with the six
      keys, each a string: what [save_data] writes. The write itself
      ([open] for writing, [json.dump]) is taken to succeed; the errors
      modelled for [save_data] are those of the sort that comes before.
    - Third-party calls whose result the tracker only passes on
      ([feedparser.parse], [dateutil.parser.parse], [HfApi.list_models],
      [requests]) appear through their outcome. *)

From Stdlib Require Import List String Ascii Bool Arith ZArith Lia.
From Stdlib Require Import Permutation Sorted.
Import ListNotations.

Local Open Scope string_scope.
Local Open Scope list_scope.
Local Open Scope Z_scope.

(* ================================================================== *)
(** * Part I. The program                                              *)
(* ================================================================== *)

(** ** Python values the tracker relies on *)

Module Py.

(** Exceptions by class. *)
Inductive exn : Type :=
| FileNotFoundError
| PermissionError
| IsADirectoryError
| UnicodeDecodeError
| JSONDecodeError
| ValueError.

Inductive result (A : Type) : Type :=
| Ok (a : A)
| Raise (e : exn).

Arguments Ok {A} a.
Arguments Raise {A} e.

Definition exn_eqb (a b : exn) : bool :=
  match a, b with
  | FileNotFoundError, FileNotFoundError
  | PermissionError, PermissionError
  | IsADirectoryError, IsADirectoryError
  | UnicodeDecodeError, UnicodeDecodeError
  | JSONDecodeError, JSONDecodeError
  | ValueError, ValueError => true
  | _, _ => false
  end.

(** [try: body / except classes: handler]. Neither [FileNotFoundError] nor
    [JSONDecodeError] has a subclass among [exn], so an [except] clause
    catches exactly the classes it lists. *)
Definition try_except {A} (body : result A) (classes : list exn) (handler : A)
  : result A :=
  match body with
  | Ok a => Ok a
  | Raise e => if existsb (exn_eqb e) classes then Ok handler else Raise e
  end.

(** *** Strings *)

(** Truth value of a [str]: the empty string is false. *)
Definition truthy (s : string) : bool :=
  match s with EmptyString => false | String _ _ => true end.

Definition is_digit (c : ascii) : bool := (("0" <=? c) && (c <=? "9"))%char.

Definition is_upper (c : ascii) : bool := (("A" <=? c) && (c <=? "Z"))%char.

(** [str.isspace] on ASCII: tab, LF, VT, FF, CR, FS, GS, RS, US, space. *)
Definition is_space (c : ascii) : bool :=
  let n := N_of_ascii c in
  ((9 <=? n) && (n <=? 13) || (28 <=? n) && (n <=? 32))%N.

Definition lower_char (c : ascii) : ascii :=
  if is_upper c then ascii_of_N (N_of_ascii c + 32) else c.

(** [s.lower()] *)
Fixpoint lower (s : string) : string :=
  match s with
  | EmptyString => EmptyString
  | String c t => String (lower_char c) (lower t)
  end.

(** [needle in hay] *)
Fixpoint str_in (needle hay : string) : bool :=
  if prefix needle hay then true
  else match hay with
       | EmptyString => false
       | String _ t => str_in needle t
       end.

Fixpoint lstrip (p : ascii -> bool) (s : string) : string :=
  match s with
  | EmptyString => EmptyString
  | String c t => if p c then lstrip p t else s
  end.

Fixpoint rstrip (p : ascii -> bool) (s : string) : string :=
  match s with
  | EmptyString => EmptyString
  | String c t =>
      match rstrip p t with
      | EmptyString => if p c then EmptyString else String c EmptyString
      | t' => String c t'
      end
  end.

(** [s.strip(chars)] with the characters to remove given as a predicate. *)
Definition strip_with (p : ascii -> bool) (s : string) : string :=
  rstrip p (lstrip p s).

(** [s.strip()] *)
Definition strip (s : string) : string := strip_with is_space s.

(** [s.strip('-')] *)
Definition strip_dash (s : string) : string :=
  strip_with (fun c => (c =? "-")%char) s.

(** A byte that continues a character of UTF-8 text: [10xxxxxx]. *)
Definition is_continuation (c : ascii) : bool :=
  let n := N_of_ascii c in ((128 <=? n) && (n <? 192))%N.

(** [s[:n]]: the first [n] characters of [s]. A byte that is not a
    continuation byte starts a character; the continuation bytes that
    follow belong to it. *)
Fixpoint slice_to (n : nat) (s : string) : string :=
  match s with
  | EmptyString => EmptyString
  | String c t =>
      if is_continuation c then String c (slice_to n t)
      else match n with
           | O => EmptyString
           | S n' => String c (slice_to n' t)
           end
  end.

(** [sep.join(l)] *)
Definition join (sep : string) (l : list string) : string := concat sep l.

(** *** Regular expressions

    The fragment of [re] the tracker and [strptime] use, with Python's
    backtracking order: [rmatch r s] lists, best first, what is left of [s]
    after each way [r] matches a prefix of it; [re] takes the first. *)

Inductive regex : Type :=
| Cls (p : ascii -> bool)      (* one character of a class *)
| Seq (a b : regex)            (* ab *)
| Alt (a b : regex)            (* a|b *)
| Opt (a : regex)              (* a? *)
| Star (a : regex)             (* a* *)
| Plus (a : regex).            (* a+ *)

Definition Chr (c : ascii) : regex := Cls (Ascii.eqb c).
Definition Rng (lo hi : ascii) : regex :=
  Cls (fun c => ((lo <=? c) && (c <=? hi))%char).
Definition Digit : regex := Cls is_digit.

Fixpoint rmatch (fuel : nat) : regex -> string -> list string :=
  fix go (r : regex) (s : string) {struct r} : list string :=
    let star (a : regex) (s0 : string) : list string :=
      match fuel with
      | O => [s0]
      | S fuel' =>
          flat_map
            (fun s1 =>
               if (String.length s1 <? String.length s0)%nat
               then rmatch fuel' (Star a) s1 else [])
            (go a s0) ++ [s0]
      end in
    match r with
    | Cls p =>
        match s with
        | String c t => if p c then [t] else []
        | EmptyString => []
        end
    | Seq a b => flat_map (go b) (go a s)
    | Alt a b => go a s ++ go b s
    | Opt a => go a s ++ [s]
    | Star a => star a s
    | Plus a => flat_map (star a) (go a s)
    end.

(** [re.match(r, s)]: the text left after the match, if there is one. A
    repetition consumes a character at each round, so [length s] rounds of
    fuel are enough. *)
Definition re_match (r : regex) (s : string) : option string :=
  hd_error (rmatch (String.length s) r s).

(** The text a match consumed, given what it left. *)
Definition consumed (s rest : string) : string :=
  substring 0 (String.length s - String.length rest) s.

(** [re.sub('^' + r, '', s)]: without [re.MULTILINE] the anchor holds at
    offset 0 only, so at most the one match at the start is removed. *)
Definition re_sub_prefix (r : regex) (s : string) : string :=
  match re_match r s with
  | Some rest => rest
  | None => s
  end.

(** *** Calendar dates and the format [%Y-%m-%d] *)

Record date : Type := Date { year : Z; month : Z; day : Z }.

Definition date_eqb (a b : date) : bool :=
  (year a =? year b) && (month a =? month b) && (day a =? day b).

(** Order of [datetime] values at midnight: year, then month, then day. *)
Definition date_compare (a b : date) : comparison :=
  match year a ?= year b with
  | Eq => match month a ?= month b with
          | Eq => day a ?= day b
          | c => c
          end
  | c => c
  end.

Definition date_leb (a b : date) : bool :=
  match date_compare a b with Gt => false | _ => true end.

Definition is_leap (y : Z) : bool :=
  (y mod 4 =? 0) && (negb (y mod 100 =? 0) || (y mod 400 =? 0)).

Definition days_in_month (y m : Z) : Z :=
  if (m =? 2) then (if is_leap y then 29 else 28)
  else if (m =? 4) || (m =? 6) || (m =? 9) || (m =? 11) then 30
  else 31.

(** What the [date] constructor accepts ([MINYEAR = 1], [MAXYEAR = 9999]). *)
Definition valid_date (d : date) : bool :=
  (1 <=? year d) && (year d <=? 9999) &&
  (1 <=? month d) && (month d <=? 12) &&
  (1 <=? day d) && (day d <=? days_in_month (year d) (month d)).

Definition digit_val (c : ascii) : Z := Z.of_N (N_of_ascii c) - 48.

Definition digit_char (n : Z) : ascii := ascii_of_N (Z.to_N (n + 48)).

Fixpoint digits_val (acc : Z) (s : string) : Z :=
  match s with
  | EmptyString => acc
  | String c t => digits_val (10 * acc + digit_val c) t
  end.

(** [int(s)] on the groups [strptime] captures: decimal digits, after an
    optional blank. *)
Definition py_int (s : string) : Z := digits_val 0 (lstrip is_space s).

(** The groups of the regular expression [_strptime] builds for
    [%Y-%m-%d]: [(?P<Y>\d\d\d\d)-(?P<m>1[0-2]|0[1-9]|[1-9])-(?P<d>3[0-1]|[1-2]\d|0[1-9]|[1-9]| [1-9])]. *)
Definition re_Y : regex := Seq Digit (Seq Digit (Seq Digit Digit)).

Definition re_m : regex :=
  Alt (Seq (Chr "1") (Rng "0" "2"))
      (Alt (Seq (Chr "0") (Rng "1" "9")) (Rng "1" "9")).

Definition re_d : regex :=
  Alt (Seq (Chr "3") (Rng "0" "1"))
      (Alt (Seq (Rng "1" "2") Digit)
           (Alt (Seq (Chr "0") (Rng "1" "9"))
                (Alt (Rng "1" "9") (Seq (Chr " ") (Rng "1" "9"))))).

Definition re_dash : regex := Chr "-".

(** The ways [r] matches a prefix of [s], best first: group text and rest. *)
Definition captures (r : regex) (s : string) : list (string * string) :=
  map (fun rest => (consumed s rest, rest)) (rmatch (String.length s) r s).

(** All matches of the format's expression at the start of [s], in
    backtracking order: the three groups and the unconverted rest. *)
Definition ymd_matches (s : string) : list (string * string * string * string) :=
  flat_map (fun Ys1 =>
  flat_map (fun s2 =>
  flat_map (fun ms3 =>
  flat_map (fun s4 =>
  map (fun ds5 => (fst Ys1, fst ms3, fst ds5, snd ds5))
      (captures re_d (snd s4)))
      (captures re_dash (snd ms3)))
      (captures re_m (snd s2)))
      (captures re_dash (snd Ys1)))
      (captures re_Y s).

(** [datetime.strptime(s, '%Y-%m-%d')], reduced to its date. [ValueError]
    when [s] does not match the format, when text is left after the match,
    or when the numbers are no calendar date. *)
Definition strptime_ymd (s : string) : result date :=
  match ymd_matches s with
  | [] => Raise ValueError
  | (Y, m, d, rest) :: _ =>
      if truthy rest then Raise ValueError
      else
        let dt := Date (py_int Y) (py_int m) (py_int d) in
        if valid_date dt then Ok dt else Raise ValueError
  end.

Fixpoint decimal_aux (fuel : nat) (n : Z) (acc : string) : string :=
  match fuel with
  | O => acc
  | S fuel' =>
      let acc' := String (digit_char (n mod 10)) acc in
      if n / 10 =? 0 then acc' else decimal_aux fuel' (n / 10) acc'
  end.

(** [str(n)] for [0 <= n]. *)
Definition decimal (n : Z) : string :=
  decimal_aux (S (Z.to_nat (Z.log2 n))) n EmptyString.

Fixpoint zeros (k : nat) : string :=
  match k with O => EmptyString | S k' => String "0" (zeros k') end.

Definition zfill (width : nat) (s : string) : string :=
  zeros (width - String.length s) ++ s.

(** [d.strftime('%Y-%m-%d')] and [time.strftime('%Y-%m-%d', t)]: the year
    on four digits, month and day on two. *)
Definition strftime_ymd (d : date) : string :=
  zfill 4 (decimal (year d)) ++ "-" ++ zfill 2 (decimal (month d))
  ++ "-" ++ zfill 2 (decimal (day d)).

End Py.

Import Py.

(** ** Configuration *)

Record profile : Type := Profile {
  keywords : list string;
  api_endpoints : list string;
  official_sites : list string
}.

(** The table [MODEL_PATTERNS], in the order a [dict] iterates: insertion
    order. *)
Definition MODEL_PATTERNS : list (string * profile) :=
  [ ("OpenAI",
     Profile ["gpt"; "chatgpt"; "o1"; "o3"; "davinci"; "curie"; "babbage"; "ada"]
             ["https://api.github.com/repos/openai/openai-python/releases"]
             ["https://openai.com/blog/rss.xml"]);
    ("Anthropic",
     Profile ["claude"; "sonnet"; "opus"; "haiku"]
             ["https://api.github.com/repos/anthropics/anthropic-sdk-python/releases"]
             ["https://www.anthropic.com/news.rss"]);
    ("Google",
     Profile ["gemini"; "bard"; "palm"; "lamda"; "pathways"]
             ["https://api.github.com/repos/google/generative-ai-python/releases"]
             ["https://blog.google/technology/ai/rss/"]);
    ("Meta",
     Profile ["llama"; "code llama"; "purple llama"]
             ["https://api.github.com/repos/facebookresearch/llama/releases"]
             ["https://ai.meta.com/blog/rss/"]);
    ("xAI", Profile ["grok"] [] []);
    ("DeepSeek",
     Profile ["deepseek"]
             ["https://api.github.com/repos/deepseek-ai/DeepSeek-LLM/releases"]
             []);
    ("Alibaba",
     Profile ["qwen"; "通义"; "tongyi"]
             ["https://api.github.com/repos/QwenLM/Qwen/releases"]
             []);
    ("Moonshot", Profile ["kimi"; "moonshot"] [] []);
    ("ByteDance", Profile ["doubao"; "豆包"; "bytedance"] [] []) ].

(** ** Data *)

(** A record of the data file: the dictionary the tracker builds, with its
    six keys. *)
Record UpdateRecord : Type := Update {
  company : string;
  model_name : string;
  update_date : string;
  features : string;
  source : string;
  link : string
}.

(** What opening and decoding [data.json] does. A file that is JSON holds a
    list of records, as [save_data] writes it. *)
Inductive store_state : Type :=
| StoreAbsent                         (* no such file: [open] raises FileNotFoundError *)
| StoreDenied                         (* [open] raises PermissionError *)
| StoreDirectory                      (* [open] raises IsADirectoryError *)
| StoreNotUtf8                        (* [f.read()] raises UnicodeDecodeError *)
| StoreNotJson                        (* [json.load] raises JSONDecodeError *)
| StoreRecords (data : list UpdateRecord).  (* [json.load] returns [data] *)

(** A value under a key of a JSON object. *)
Inductive jfield : Type :=
| Missing
| Null
| Str (s : string).

(** A release as the GitHub API lists it. [published_at] holds what
    [parser.parse(release['published_at'])] returns, [None] when the key is
    missing or the call raises. *)
Record release : Type := Release {
  published_at : option date;
  tag_name : jfield;
  name : jfield;
  body : jfield;
  html_url : jfield
}.

(** A model as [HfApi.list_models] yields it. [lastModified] is [None] when
    the attribute is absent or false; [modelId] is [None] when the attribute
    is absent, and reading it raises AttributeError; [tags] is empty when
    the attribute is absent or false. *)
Record hf_model : Type := HfModel {
  modelId : option string;
  lastModified : option date;
  tags : list string
}.

(** An entry of a parsed feed; [None] stands for a missing key. A
    [FeedParserDict] raises AttributeError on [entry.title] or [entry.link]
    when the key is missing, and [entry.get] returns its default. *)
Record rss_entry : Type := RssEntry {
  entry_title : option string;
  entry_summary : option string;
  entry_published_parsed : option date;
  entry_link : option string
}.

(** Outcome of [session.get(url, timeout=10)] with [response.json()]. *)
Inductive http_result : Type :=
| RequestFailed
| Response (status_code : Z) (json : option (list release)).

(** The remote services during one run. [None] is a call that raised. *)
Record world : Type := World {
  feedparser_parse : string -> option (list rss_entry);
  session_get : string -> http_result;
  hf_list_models : string -> option (list hf_model)
}.

(** ** The tracker *)

Definition try_body_load (st : store_state) : result (list UpdateRecord) :=
  match st with
  | StoreAbsent => Raise FileNotFoundError
  | StoreDenied => Raise PermissionError
  | StoreDirectory => Raise IsADirectoryError
  | StoreNotUtf8 => Raise UnicodeDecodeError
  | StoreNotJson => Raise JSONDecodeError
  | StoreRecords data => Ok data
  end.

Definition load_existing_data (st : store_state) : result (list UpdateRecord) :=
  try_except (try_body_load st) [FileNotFoundError; JSONDecodeError] [].

(** [data.sort(key=..., reverse=True)] computes every key first; a key that
    raises leaves the list as it was and the error propagates. *)
Fixpoint sort_keys (data : list UpdateRecord)
  : result (list (date * UpdateRecord)) :=
  match data with
  | [] => Ok []
  | x :: rest =>
      match strptime_ymd (update_date x) with
      | Raise e => Raise e
      | Ok k =>
          match sort_keys rest with
          | Raise e => Raise e
          | Ok ks => Ok ((k, x) :: ks)
          end
      end
  end.

(** A stable sort, largest key first: among equal keys the order of the
    input is kept, as [reverse=True] does. The outcome of a stable sort
    does not depend on the algorithm; this one inserts from the right. *)
Fixpoint insert_desc (kx : date * UpdateRecord) (l : list (date * UpdateRecord))
  : list (date * UpdateRecord) :=
  match l with
  | [] => [kx]
  | ky :: rest =>
      if date_leb (fst ky) (fst kx) then kx :: ky :: rest
      else ky :: insert_desc kx rest
  end.

Fixpoint sort_desc (l : list (date * UpdateRecord)) : list (date * UpdateRecord) :=
  match l with
  | [] => []
  | kx :: rest => insert_desc kx (sort_desc rest)
  end.

(** [save_data]: the new state of the data file, or the error raised before
    the file is opened for writing. The write that follows the sort is
    taken to succeed, whatever the state [st] of the file before. *)
Definition save_data (data : list UpdateRecord) (st : store_state)
  : store_state * result unit :=
  match sort_keys data with
  | Raise e => (st, Raise e)
  | Ok ks => (StoreRecords (map snd (sort_desc ks)), Ok tt)
  end.

Definition fetch_github_releases (w : world) (repo_url : string) : list release :=
  match session_get w repo_url with
  | Response 200 (Some releases) => firstn 5 releases
  | _ => []
  end.

(** One keyword search each; a search that raises is skipped. *)
Fixpoint fetch_huggingface_models (w : world) (company_keywords : list string)
  : list hf_model :=
  match company_keywords with
  | [] => []
  | keyword :: rest =>
      match hf_list_models w keyword with
      | Some search_results => search_results ++ fetch_huggingface_models w rest
      | None => fetch_huggingface_models w rest
      end
  end.

(** [r'^v?(\d+\.)*\d+'] *)
Definition version_re : regex :=
  Seq (Opt (Chr "v")) (Seq (Star (Seq (Plus Digit) (Chr "."))) (Plus Digit)).

(** [release.get(key, default)] *)
Definition jget (f default : jfield) : jfield :=
  match f with Missing => default | _ => f end.

(** The whole body runs under [try]/[except Exception]: [None] as soon as a
    step raises (a missing date, [re.sub] or a slice on [None]). A null
    [html_url] is kept as the empty link: both are false in [is_duplicate]
    and equal to no non-empty link. *)
Definition extract_model_info_from_github (rel : release) (company_ : string)
  : option UpdateRecord :=
  match published_at rel with
  | None => None
  | Some dt =>
      let published := strftime_ymd dt in
      match jget (tag_name rel) (jget (name rel) (Str "Unknown")) with
      | Str raw =>
          let cleaned := strip (strip_dash (re_sub_prefix version_re raw)) in
          let model_name_ :=
            if truthy cleaned then cleaned
            else
              match jget (tag_name rel) (Str "Unknown") with
              | Str t => (company_ ++ " Model " ++ t)%string
              | _ => (company_ ++ " Model None")%string
              end in
          match jget (body rel) (Str "") with
          | Str b =>
              Some (Update company_ model_name_ published (slice_to 500 b) "GitHub"
                      (match jget (html_url rel) (Str "") with
                       | Str u => u
                       | _ => ""
                       end))
          | _ => None
          end
      | _ => None
      end
  end.

Definition extract_model_info_from_hf (today : date) (model : hf_model)
  (company_ : string) : option UpdateRecord :=
  let update_date_ :=
    match lastModified model with
    | Some d => strftime_ymd d
    | None => strftime_ymd today
    end in
  match modelId model with
  | None => None
  | Some id =>
      let features_ :=
        match tags model with
        | [] => ""
        | _ => ("Tags: " ++ join ", " (firstn 5 (tags model)))%string
        end in
      Some (Update company_ id update_date_ features_ "Hugging Face"
              ("https://huggingface.co/" ++ id)%string)
  end.

(** The bare [except] turns every failure of [strptime] into [False]. *)
Definition is_today_update (today : date) (update_date_ : string) : bool :=
  match strptime_ymd update_date_ with
  | Ok update_dt => date_eqb update_dt today
  | Raise _ => false
  end.

Fixpoint is_duplicate (new_item : UpdateRecord) (existing_data : list UpdateRecord)
  : bool :=
  match existing_data with
  | [] => false
  | item :: rest =>
      if truthy (link new_item) && (link item =? link new_item)%string then true
      else if (company item =? company new_item)%string
              && (model_name item =? model_name new_item)%string then true
      else is_duplicate new_item rest
  end.

Definition release_words : list string :=
  ["release"; "launch"; "announce"; "unveil"; "introduce"; "available"; "new"].

Definition keyword_hit (kws : list string) (title_lower summary_lower : string)
  : bool :=
  existsb (fun keyword =>
             str_in (lower keyword) title_lower
             || str_in (lower keyword) summary_lower) kws.

Definition release_hit (title_lower : string) : bool :=
  existsb (fun word => str_in word title_lower) release_words.

(** The loop over the entries of one feed. It runs inside the feed's [try]:
    an entry without title, or an accepted entry without link, raises
    AttributeError, which ends the feed; what was appended stays. *)
Fixpoint rss_entries (today : date) (company_ : string) (info : profile)
  (entries : list rss_entry) (updates : list UpdateRecord) : list UpdateRecord :=
  match entries with
  | [] => updates
  | entry :: rest =>
      match entry_title entry with
      | None => updates
      | Some title =>
          let title_lower := lower title in
          let summary_ := match entry_summary entry with Some s => s | None => "" end in
          let summary_lower := lower summary_ in
          if keyword_hit (keywords info) title_lower summary_lower then
            if release_hit title_lower then
              let update_date_ :=
                match entry_published_parsed entry with
                | Some published_date => strftime_ymd published_date
                | None => strftime_ymd today
                end in
              if is_today_update today update_date_ then
                match entry_link entry with
                | None => updates
                | Some l =>
                    rss_entries today company_ info rest
                      (updates ++ [Update company_ title update_date_
                                     (slice_to 300 summary_) "Official RSS" l])
                end
              else rss_entries today company_ info rest updates
            else rss_entries today company_ info rest updates
          else rss_entries today company_ info rest updates
      end
  end.

(** The loop over the feeds of one company. *)
Fixpoint rss_sites (today : date) (w : world) (company_ : string) (info : profile)
  (sites : list string) (updates : list UpdateRecord) : list UpdateRecord :=
  match sites with
  | [] => updates
  | rss_url :: rest =>
      let updates' :=
        match feedparser_parse w rss_url with
        | None => updates
        | Some entries => rss_entries today company_ info (firstn 5 entries) updates
        end in
      rss_sites today w company_ info rest updates'
  end.

(** The loop over the companies. *)
Fixpoint rss_companies (today : date) (w : world) (patterns : list (string * profile))
  (updates : list UpdateRecord) : list UpdateRecord :=
  match patterns with
  | [] => updates
  | (company_, info) :: rest =>
      rss_companies today w rest
        (rss_sites today w company_ info (official_sites info) updates)
  end.

Definition fetch_official_rss_updates (today : date) (w : world) : list UpdateRecord :=
  rss_companies today w MODEL_PATTERNS [].

(** Stage 1 of [fetch_all_updates]: the loop over [rss_updates]. *)
Fixpoint merge_rss (existing_data : list UpdateRecord) (rss_updates : list UpdateRecord)
  (new_updates : list UpdateRecord) : list UpdateRecord :=
  match rss_updates with
  | [] => new_updates
  | update :: rest =>
      if negb (is_duplicate update (existing_data ++ new_updates))
      then merge_rss existing_data rest (new_updates ++ [update])
      else merge_rss existing_data rest new_updates
  end.

(** The test the GitHub and Hugging Face stages share. *)
Definition accepts (today : date) (existing_data new_updates : list UpdateRecord)
  (model_info : option UpdateRecord) : option UpdateRecord :=
  match model_info with
  | Some info =>
      if is_today_update today (update_date info)
         && negb (is_duplicate info (existing_data ++ new_updates))
      then Some info else None
  | None => None
  end.

(** Stage 2: releases of one endpoint, endpoints of one company, companies. *)
Fixpoint github_releases (today : date) (existing_data : list UpdateRecord)
  (company_ : string) (releases : list release) (new_updates : list UpdateRecord)
  : list UpdateRecord :=
  match releases with
  | [] => new_updates
  | rel :: rest =>
      match accepts today existing_data new_updates
              (extract_model_info_from_github rel company_) with
      | Some model_info =>
          github_releases today existing_data company_ rest (new_updates ++ [model_info])
      | None => github_releases today existing_data company_ rest new_updates
      end
  end.

Fixpoint github_endpoints (today : date) (w : world) (existing_data : list UpdateRecord)
  (company_ : string) (endpoints : list string) (new_updates : list UpdateRecord)
  : list UpdateRecord :=
  match endpoints with
  | [] => new_updates
  | api_endpoint :: rest =>
      github_endpoints today w existing_data company_ rest
        (github_releases today existing_data company_
           (fetch_github_releases w api_endpoint) new_updates)
  end.

Fixpoint github_companies (today : date) (w : world) (existing_data : list UpdateRecord)
  (patterns : list (string * profile)) (new_updates : list UpdateRecord)
  : list UpdateRecord :=
  match patterns with
  | [] => new_updates
  | (company_, info) :: rest =>
      github_companies today w existing_data rest
        (github_endpoints today w existing_data company_ (api_endpoints info) new_updates)
  end.

(** Stage 3: the models of one company, with the counter [today_count] and
    its [break]; then the companies. *)
Fixpoint hf_models (today : date) (existing_data : list UpdateRecord)
  (company_ : string) (models : list hf_model) (today_count : Z)
  (new_updates : list UpdateRecord) : list UpdateRecord :=
  match models with
  | [] => new_updates
  | model :: rest =>
      if today_count >=? 2 then new_updates
      else
        match accepts today existing_data new_updates
                (extract_model_info_from_hf today model company_) with
        | Some model_info =>
            hf_models today existing_data company_ rest (today_count + 1)
              (new_updates ++ [model_info])
        | None =>
            hf_models today existing_data company_ rest today_count new_updates
        end
  end.

Fixpoint hf_companies (today : date) (w : world) (existing_data : list UpdateRecord)
  (patterns : list (string * profile)) (new_updates : list UpdateRecord)
  : list UpdateRecord :=
  match patterns with
  | [] => new_updates
  | (company_, info) :: rest =>
      hf_companies today w existing_data rest
        (hf_models today existing_data company_
           (fetch_huggingface_models w (keywords info)) 0 new_updates)
  end.

(** The records a run accepts, given the data loaded. *)
Definition collect_updates (today : date) (w : world) (existing_data : list UpdateRecord)
  : list UpdateRecord :=
  let new_updates := [] in
  let rss_updates := fetch_official_rss_updates today w in
  let new_updates := merge_rss existing_data rss_updates new_updates in
  let new_updates := github_companies today w existing_data MODEL_PATTERNS new_updates in
  hf_companies today w existing_data MODEL_PATTERNS new_updates.

(** [fetch_all_updates]: the state of the data file after the run, and the
    records accepted or the error that ended the run. *)
Definition fetch_all_updates (today : date) (w : world) (st : store_state)
  : store_state * result (list UpdateRecord) :=
  match load_existing_data st with
  | Raise e => (st, Raise e)
  | Ok existing_data =>
      let new_updates := collect_updates today w existing_data in
      match new_updates with
      | [] => (st, Ok new_updates)
      | _ :: _ =>
          let all_data := existing_data ++ new_updates in
          match save_data all_data st with
          | (st', Ok _) => (st', Ok new_updates)
          | (st', Raise e) => (st', Raise e)
          end
      end
  end.

(* ================================================================== *)
(** * Part II. The vocabulary of the specification                     *)
(* ================================================================== *)

(** ** Duplicates and uniqueness *)

(** Two records share a non-empty link. *)
Definition share_link (a b : UpdateRecord) : Prop :=
  link a = link b /\ link b <> "".

(** Two records share company and model name. *)
Definition share_name (a b : UpdateRecord) : Prop :=
  company a = company b /\ model_name a = model_name b.

Definition conflict (a b : UpdateRecord) : Prop :=
  share_link a b \/ share_name a b.

Definition conflictb (a b : UpdateRecord) : bool :=
  truthy (link b) && (link a =? link b)%string
  || (company a =? company b)%string && (model_name a =? model_name b)%string.

(** The uniqueness invariant of the data file, over positions. *)
Definition uniqueness (l : list UpdateRecord) : Prop :=
  forall i j a b, i <> j -> nth_error l i = Some a -> nth_error l j = Some b ->
    ~ share_link a b /\ ~ share_name a b.

(** The same, by recursion on the list. *)
Inductive unique_store : list UpdateRecord -> Prop :=
| unique_nil : unique_store []
| unique_cons r l :
    Forall (fun x => ~ conflict x r) l -> unique_store l -> unique_store (r :: l).

Fixpoint unique_storeb (l : list UpdateRecord) : bool :=
  match l with
  | [] => true
  | r :: rest => negb (is_duplicate r rest) && unique_storeb rest
  end.

(** ** The feed filter *)

(** [needle] occurs in [hay] as a substring. *)
Definition occurs_in (needle hay : string) : Prop :=
  exists pre post, hay = (pre ++ needle ++ post)%string.

(** Condition (a) of the feed filter: a keyword of the company occurs,
    case-insensitively, in the title or in the summary. *)
Definition keyword_condition (info : profile) (title summary_ : string) : Prop :=
  exists keyword, In keyword (keywords info)
    /\ (occurs_in (lower keyword) (lower title)
        \/ occurs_in (lower keyword) (lower summary_)).

(** Condition (b): a word of the release vocabulary occurs in the lowercased
    title. *)
Definition vocabulary_condition (title : string) : Prop :=
  exists word,
    In word ["release"; "launch"; "announce"; "unveil"; "introduce"; "available"; "new"]
    /\ occurs_in word (lower title).

Definition summary_of (entry : rss_entry) : string :=
  match entry_summary entry with Some s => s | None => "" end.

Definition rss_date_of (today : date) (entry : rss_entry) : string :=
  match entry_published_parsed entry with
  | Some published_date => strftime_ymd published_date
  | None => strftime_ymd today
  end.

(** The record [r] is the one the feed loop builds from [entry], and
    [entry] passes the loop's three tests. *)
Definition rss_accepted (today : date) (company_ : string) (info : profile)
  (entry : rss_entry) (r : UpdateRecord) : Prop :=
  exists title l,
    entry_title entry = Some title
    /\ entry_link entry = Some l
    /\ keyword_hit (keywords info) (lower title) (lower (summary_of entry)) = true
    /\ release_hit (lower title) = true
    /\ is_today_update today (rss_date_of today entry) = true
    /\ r = Update company_ title (rss_date_of today entry)
             (slice_to 300 (summary_of entry)) "Official RSS" l.

(** [r] comes from one of the first five entries of a feed of a company of
    [patterns]. *)
Definition rss_origin (today : date) (w : world) (patterns : list (string * profile))
  (r : UpdateRecord) : Prop :=
  exists company_ info rss_url entries entry,
    In (company_, info) patterns
    /\ In rss_url (official_sites info)
    /\ feedparser_parse w rss_url = Some entries
    /\ In entry (firstn 5 entries)
    /\ rss_accepted today company_ info entry r.

(** ** Dates in the form [YYYY-MM-DD] *)

Definition num2 (a b : ascii) : Z := 10 * digit_val a + digit_val b.

Definition num4 (a b c d : ascii) : Z :=
  1000 * digit_val a + 100 * digit_val b + 10 * digit_val c + digit_val d.

(** The date a string of ten characters denotes, field by field. *)
Definition calendar (s : string) : date :=
  match s with
  | String y1 (String y2 (String y3 (String y4 (String _
      (String m1 (String m2 (String _ (String d1 (String d2 _))))))))) =>
      Date (num4 y1 y2 y3 y4) (num2 m1 m2) (num2 d1 d2)
  | _ => Date 0 0 0
  end.

(** A well-formed [YYYY-MM-DD] date: four digits, a dash, two digits, a
    dash, two digits, and the three numbers are a date of the calendar. *)
Definition well_formed_date (s : string) : bool :=
  match s with
  | String y1 (String y2 (String y3 (String y4 (String sep1
      (String m1 (String m2 (String sep2 (String d1 (String d2 EmptyString))))))))) =>
      forallb is_digit [y1; y2; y3; y4; m1; m2; d1; d2]
      && (sep1 =? "-")%char && (sep2 =? "-")%char
      && valid_date (calendar s)
  | _ => false
  end.

(** [r1] is dated no earlier than [r2], as dates of the calendar and as
    strings. *)
Definition dated_no_earlier (r1 r2 : UpdateRecord) : Prop :=
  date_leb (calendar (update_date r2)) (calendar (update_date r1)) = true
  /\ (update_date r2 <=? update_date r1)%string = true.

(** ** The order of the saved file *)

(** Keys in the order of the sort: no key is smaller than the next. *)
Definition key_desc (a b : date * UpdateRecord) : Prop :=
  date_leb (fst b) (fst a) = true.

(** A key is the date its record's string denotes. *)
Definition keyed (kx : date * UpdateRecord) : Prop :=
  well_formed_date (update_date (snd kx)) = true
  /\ fst kx = calendar (update_date (snd kx)).

(** ** Dates written by [strftime] *)

(** The numbers from 0 up to, not including, [k]. *)
Definition below (k : Z) : list Z := map Z.of_nat (seq 0 (Z.to_nat k)).

(** [y] is written on four digits, and they read back to [y]. *)
Definition four_digits (y : Z) : bool :=
  match zfill 4 (decimal y) with
  | String a (String b (String c (String d EmptyString))) =>
      forallb is_digit [a; b; c; d] && (num4 a b c d =? y)
  | _ => false
  end.

(** [n] is written on two digits, and they read back to [n]. *)
Definition two_digits (n : Z) : bool :=
  match zfill 2 (decimal n) with
  | String a (String b EmptyString) =>
      forallb is_digit [a; b] && (num2 a b =? n)
  | _ => false
  end.

(** ** The Hugging Face cap *)

(** The records of [l] that the Hugging Face stage made for company [c]. *)
Definition is_hf_of (c : string) (r : UpdateRecord) : bool :=
  (source r =? "Hugging Face")%string && (company r =? c)%string.

Definition hf_count (c : string) (l : list UpdateRecord) : nat :=
  List.length (filter (is_hf_of c) l).

(** ** Version numbers in front of a release name *)

(** What follows the first digit of a version number: more digits, or a
    dot and a digit, any number of times. *)
Inductive number_tail : string -> Prop :=
| tail_end : number_tail ""
| tail_digit c q : is_digit c = true -> number_tail q -> number_tail (String c q)
| tail_dot c q :
    is_digit c = true -> number_tail q -> number_tail (String "." (String c q)).

(** One digit or more. *)
Inductive digits : string -> Prop :=
| digits_one c : is_digit c = true -> digits (String c "")
| digits_more c s : is_digit c = true -> digits s -> digits (String c s).

(** Groups [<digits>.], none or more, then digits. *)
Inductive version_number : string -> Prop :=
| version_last d : digits d -> version_number d
| version_group d v :
    digits d -> version_number v -> version_number (d ++ "." ++ v).

(** An optional [v], then a version number. *)
Inductive version_prefix : string -> Prop :=
| prefix_plain v : version_number v -> version_prefix v
| prefix_v v : version_number v -> version_prefix (String "v" v).

(** [rest] is [raw] with its leading version number removed: the longest
    prefix of [raw] that is a version prefix is cut off, and nothing is cut
    off when no prefix of [raw] is one. *)
Definition without_version (raw rest : string) : Prop :=
  (exists p,
      raw = (p ++ rest)%string /\ version_prefix p
      /\ forall p' rest', raw = (p' ++ rest')%string -> version_prefix p' ->
                          (String.length p' <= String.length p)%nat)
  \/ (rest = raw
      /\ forall p' rest', raw = (p' ++ rest')%string -> ~ version_prefix p').

(** Every character of [s] is of class [p]. *)
Fixpoint all_chars (p : ascii -> bool) (s : string) : bool :=
  match s with
  | EmptyString => true
  | String c t => p c && all_chars p t
  end.

(** ** ASCII text *)

(** A character of ASCII is a byte below 128. On ASCII text [lower],
    [is_space] and [is_digit] are [str.lower], the blanks of [str.strip]
    and the class [\d] of Python. *)
Definition is_ascii (c : ascii) : bool := (N_of_ascii c <? 128)%N.

Definition ascii_text (s : string) : bool := all_chars is_ascii s.

(** The title and the summary of a feed entry are ASCII text. *)
Definition ascii_entry (entry : rss_entry) : Prop :=
  (forall title, entry_title entry = Some title -> ascii_text title = true)
  /\ ascii_text (summary_of entry) = true.

(** The entries the feed loop looks at are of ASCII text. *)
Definition ascii_feeds (w : world) : Prop :=
  forall rss_url entries entry,
    feedparser_parse w rss_url = Some entries ->
    In entry (firstn 5 entries) ->
    ascii_entry entry.

Definition first_char (s : string) : option ascii :=
  match s with String c _ => Some c | EmptyString => None end.

Fixpoint last_char (s : string) : option ascii :=
  match s with
  | EmptyString => None
  | String c t => match t with EmptyString => Some c | _ => last_char t end
  end.

(** [res] is [s] with the characters of class [p] trimmed at both ends. *)
Definition trimmed (p : ascii -> bool) (s res : string) : Prop :=
  (exists l r, s = (l ++ res ++ r)%string
               /\ all_chars p l = true /\ all_chars p r = true)
  /\ (forall c, first_char res = Some c -> p c = false)
  /\ (forall c, last_char res = Some c -> p c = false).

Definition is_dash (c : ascii) : bool := (c =? "-")%char.

(** The text the name is taken from: the tag, else the name, else
    [Unknown]; none when the field there is null. *)
Definition release_label (rel : release) : option string :=
  match tag_name rel with
  | Str t => Some t
  | Null => None
  | Missing =>
      match name rel with
      | Str n => Some n
      | Null => None
      | Missing => Some "Unknown"
      end
  end.

(** The placeholder for a release whose name comes out empty. *)
Definition placeholder (company_ : string) (rel : release) : string :=
  (company_ ++ " Model "
   ++ match tag_name rel with Str t => t | _ => "Unknown" end)%string.

(** A direct reading of the version number, one character at a time.
    [scan_number s] is what is left of [s], a text that follows a digit. *)
Fixpoint scan_number (s : string) : string :=
  match s with
  | EmptyString => EmptyString
  | String c t =>
      if is_digit c then scan_number t
      else if (c =? ".")%char then
        match t with
        | String c' t' => if is_digit c' then scan_number t' else s
        | EmptyString => s
        end
      else s
  end.

Definition scan_body (s : string) : option string :=
  match s with
  | String c t => if is_digit c then Some (scan_number t) else None
  | EmptyString => None
  end.

Definition scan_version (s : string) : option string :=
  match s with
  | String c t => if (c =? "v")%char then scan_body t else scan_body s
  | EmptyString => None
  end.

(** What is left after the digits at the start of [s]. *)
Fixpoint skip_digits (s : string) : string :=
  match s with
  | EmptyString => EmptyString
  | String c t => if is_digit c then skip_digits t else s
  end.

(** What is left after each number of digits at the start of [s], the
    largest number first. *)
Fixpoint digit_tails (s : string) : list string :=
  match s with
  | EmptyString => [EmptyString]
  | String c t => if is_digit c then digit_tails t ++ [s] else [s]
  end.

(** The step of [scan_number] at the end of a run of digits. *)
Definition scan_rest (r : string) : string :=
  match r with
  | String c t =>
      if (c =? ".")%char then
        match t with
        | String c' t' => if is_digit c' then scan_number t' else r
        | EmptyString => r
        end
      else r
  | EmptyString => EmptyString
  end.

(** [(\d+\.)], the group of the version pattern. *)
Definition group_re : regex := Seq (Plus Digit) (Chr ".").

(** The ways [\d+] matches at the start of [s]. *)
Definition plus_digit (s : string) : list string :=
  match s with
  | String c t => if is_digit c then digit_tails t else []
  | EmptyString => []
  end.

(** The pattern as the specification words it, with one group
    [<digits>.] or more, and the name it gives. *)
Definition worded_version_re : regex :=
  Seq (Opt (Chr "v")) (Seq (Plus (Seq (Plus Digit) (Chr "."))) (Plus Digit)).

Definition worded_model_name (raw : string) : string :=
  strip (strip_dash (re_sub_prefix worded_version_re raw)).

(** ** Scenarios *)

(** A world in which nothing answers. *)
Definition silent_world : world :=
  World (fun _ => None) (fun _ => RequestFailed) (fun _ => None).

(** A world whose only answer is one feed. *)
Definition feed_world (url : string) (entries : list rss_entry) : world :=
  World (fun u => if (u =? url)%string then Some entries else None)
        (fun _ => RequestFailed) (fun _ => None).

Definition day0 : date := Date 2025 6 1.

(** Scenario A: the data file is empty and the OpenAI endpoint lists one
    release, published today, with tag [v2.1-turbo]. *)
Definition scenario_A_release : release :=
  Release (Some day0) (Str "v2.1-turbo") (Str "Turbo") (Str "Notes")
    (Str "https://github.com/openai/openai-python/releases/tag/v2.1-turbo").

Definition scenario_A_world : world :=
  World (fun _ => None)
        (fun u =>
           if (u =? "https://api.github.com/repos/openai/openai-python/releases")%string
           then Response 200 (Some [scenario_A_release]) else RequestFailed)
        (fun _ => None).

Definition scenario_A_record : UpdateRecord :=
  Update "OpenAI" "turbo" "2025-06-01" "Notes" "GitHub"
    "https://github.com/openai/openai-python/releases/tag/v2.1-turbo".

(** The endpoint of scenario A with a release published the day before. *)
Definition stale_world : world :=
  World (fun _ => None)
        (fun u =>
           if (u =? "https://api.github.com/repos/openai/openai-python/releases")%string
           then Response 200
                  (Some [Release (Some (Date 2025 5 31)) (Str "v2.1-turbo") Missing
                           (Str "Notes") (Str "https://github.com/openai")])
           else RequestFailed)
        (fun _ => None).

(** Scenario B: the data file holds a record with link [https://x/y] and the
    Anthropic feed announces, today, an entry with the same link. *)
Definition scenario_B_store : list UpdateRecord :=
  [Update "Anthropic" "Claude 3" "2025-05-01" "" "Official RSS" "https://x/y"].

Definition scenario_B_world : world :=
  feed_world "https://www.anthropic.com/news.rss"
    [RssEntry (Some "Claude 4 released") (Some "A new model") (Some day0)
       (Some "https://x/y")].

Definition scenario_B_candidate : UpdateRecord :=
  Update "Anthropic" "Claude 4 released" "2025-06-01" "A new model"
    "Official RSS" "https://x/y".

(** The profile of Anthropic in [MODEL_PATTERNS]. *)
Definition anthropic_profile : profile :=
  Profile ["claude"; "sonnet"; "opus"; "haiku"]
    ["https://api.github.com/repos/anthropics/anthropic-sdk-python/releases"]
    ["https://www.anthropic.com/news.rss"].

(** Two entries of the Anthropic feed, of today, with one title and two
    links. *)
Definition twin_entries : list rss_entry :=
  [ RssEntry (Some "Claude 4 released") (Some "A new model") (Some day0)
      (Some "https://x/1");
    RssEntry (Some "Claude 4 released") (Some "A new model") (Some day0)
      (Some "https://x/2") ].

Definition twin_world : world :=
  feed_world "https://www.anthropic.com/news.rss" twin_entries.

(** Three records to save, out of order. *)
Definition unsorted_data : list UpdateRecord :=
  [ Update "Meta" "Llama 4" "2025-05-01" "" "GitHub" "https://a";
    Update "Google" "Gemini 3" "2025-06-01" "" "GitHub" "https://b";
    Update "xAI" "Grok 5" "2024-12-31" "" "Hugging Face" "https://c" ].

(** A data file with a record whose date is not in the format. *)
Definition misdated_store : list UpdateRecord :=
  [Update "Meta" "Llama 4" "2025/05/01" "" "GitHub" "https://a"].

(** Scenario D: the search for [deepseek] returns three models, all
    modified today. *)
Definition scenario_D_models : list hf_model :=
  [ HfModel (Some "deepseek-ai/DeepSeek-V4") (Some day0) ["text-generation"];
    HfModel (Some "deepseek-ai/DeepSeek-R2") (Some day0) [];
    HfModel (Some "deepseek-ai/DeepSeek-Coder-3") (Some day0) ["code"] ].

Definition scenario_D_world : world :=
  World (fun _ => None) (fun _ => RequestFailed)
        (fun keyword =>
           if (keyword =? "deepseek")%string then Some scenario_D_models else None).

(** ** Further vocabulary: runs, saving and the stages *)

(** The string [s] is read by [strptime] as some date. *)
Definition parses (s : string) : Prop := exists d, strptime_ymd s = Ok d.

(** The record [r] is dated [d]: its date string is read to [d]. *)
Definition dated_on (d : date) (r : UpdateRecord) : bool :=
  match strptime_ymd (update_date r) with
  | Ok d' => date_eqb d' d
  | Raise _ => false
  end.

(** Every call to a remote service fails: no feed is parsed, no request is
    answered with status 200, no search returns. *)
Definition all_sources_fail (w : world) : Prop :=
  (forall rss_url, feedparser_parse w rss_url = None)
  /\ (forall repo_url,
         session_get w repo_url = RequestFailed
         \/ exists code body_, session_get w repo_url = Response code body_
                               /\ code <> 200)
  /\ (forall keyword, hf_list_models w keyword = None).

(** A world in which every request is answered with status 404. *)
Definition not_found_world : world :=
  World (fun _ => None) (fun _ => Response 404 None) (fun _ => None).

(** Two records of one date among records of another. *)
Definition same_day_data : list UpdateRecord :=
  [ Update "Meta" "Llama 4" "2025-05-01" "" "GitHub" "https://a";
    Update "Google" "Gemini 3" "2025-06-01" "" "GitHub" "https://b";
    Update "xAI" "Grok 5" "2025-05-01" "" "Hugging Face" "https://c" ].

(** One pass of the acceptance test over candidates, in order: a candidate
    is appended when it is a record, dated today, and no duplicate of the
    data loaded or of the records appended before it. *)
Fixpoint accept_all (today : date) (existing : list UpdateRecord)
  (candidates : list (option UpdateRecord)) (new_updates : list UpdateRecord)
  : list UpdateRecord :=
  match candidates with
  | [] => new_updates
  | candidate :: rest =>
      match accepts today existing new_updates candidate with
      | Some model_info => accept_all today existing rest (new_updates ++ [model_info])
      | None => accept_all today existing rest new_updates
      end
  end.

(** The candidates of the GitHub stage: what [extract_model_info_from_github]
    makes of each release fetched, by company, endpoint and release. *)
Definition github_candidates (w : world) (patterns : list (string * profile))
  : list (option UpdateRecord) :=
  flat_map (fun ci =>
    flat_map (fun api_endpoint =>
      map (fun rel => extract_model_info_from_github rel (fst ci))
          (fetch_github_releases w api_endpoint))
      (api_endpoints (snd ci)))
    patterns.

(** The candidates of the Hugging Face stage for one company. *)
Definition hf_candidates (today : date) (w : world) (company_ : string)
  (info : profile) : list (option UpdateRecord) :=
  map (fun m => extract_model_info_from_hf today m company_)
      (fetch_huggingface_models w (keywords info)).

(** [r] was made from one of the first five releases of an endpoint of a
    company of the table, answered with status 200. *)
Definition github_origin (w : world) (r : UpdateRecord) : Prop :=
  exists company_ info api_endpoint releases rel,
    In (company_, info) MODEL_PATTERNS
    /\ In api_endpoint (api_endpoints info)
    /\ session_get w api_endpoint = Response 200 (Some releases)
    /\ In rel (firstn 5 releases)
    /\ extract_model_info_from_github rel company_ = Some r.

(** [r] was made from a model that a search on a keyword of a company of
    the table returned. *)
Definition hf_origin (today : date) (w : world) (r : UpdateRecord) : Prop :=
  exists company_ info keyword models m,
    In (company_, info) MODEL_PATTERNS
    /\ In keyword (keywords info)
    /\ hf_list_models w keyword = Some models
    /\ In m models
    /\ extract_model_info_from_hf today m company_ = Some r.

(** A release without description: the API gives a null [body]. *)
Definition bodiless_release : release :=
  Release (Some day0) (Str "nova-2") Missing Null (Str "https://github.com/x").

(** A release tagged with a version number and nothing else. *)
Definition numbered_release : release :=
  Release (Some day0) (Str "v1.2.3") (Str "v1.2.3") (Str "Fixes")
    (Str "https://github.com/openai/openai-python/releases/tag/v1.2.3").

(** A feed entry and a model that carry no date. *)
Definition undated_entry : rss_entry :=
  RssEntry (Some "New Claude model") None None (Some "https://x/new").

Definition undated_model : hf_model :=
  HfModel (Some "deepseek-ai/DeepSeek-V4") None [].

(** A feed entry without title. *)
Definition untitled_entry : rss_entry :=
  RssEntry None (Some "Claude") (Some day0) (Some "https://x/none").
(* ================================================================== *)
(** * Part III. Properties                                             *)
(* ================================================================== *)

(** ** Python values: checks on concrete inputs *)

Example strptime_ex1 : strptime_ymd "2024-02-29" = Ok (Date 2024 2 29).
Proof. reflexivity. Qed.
Example strptime_ex2 : strptime_ymd "2023-02-29" = Raise ValueError.
Proof. reflexivity. Qed.
Example strptime_ex3 : strptime_ymd "2024-1-5" = Ok (Date 2024 1 5).
Proof. reflexivity. Qed.
Example strptime_ex4 : strptime_ymd "2024-13-05" = Raise ValueError.
Proof. reflexivity. Qed.
Example strptime_ex5 : strptime_ymd "2024-12- 5" = Ok (Date 2024 12 5).
Proof. reflexivity. Qed.
Example strptime_ex6 : strptime_ymd "2024-12-051" = Raise ValueError.
Proof. reflexivity. Qed.
Example strptime_ex7 : strptime_ymd "0000-12-05" = Raise ValueError.
Proof. reflexivity. Qed.
Example strftime_ex1 : strftime_ymd (Date 2024 1 5) = "2024-01-05".
Proof. reflexivity. Qed.
Example strftime_ex2 : strftime_ymd (Date 987 11 25) = "0987-11-25".
Proof. reflexivity. Qed.
Example resub_ex1 : re_sub_prefix (Seq (Opt (Chr "v")) (Seq (Star (Seq (Plus Digit) (Chr "."))) (Plus Digit))) "v2.1-turbo" = "-turbo".
Proof. reflexivity. Qed.
Example resub_ex2 : re_sub_prefix (Seq (Opt (Chr "v")) (Seq (Star (Seq (Plus Digit) (Chr "."))) (Plus Digit))) "12.3.x" = ".x".
Proof. reflexivity. Qed.

#[local] Hint Constructors unique_store : core.

Lemma truthy_true_iff s : truthy s = true <-> s <> "".
Proof. destruct s; simpl; split; congruence. Qed.

Lemma conflictb_spec a b : conflictb a b = true <-> conflict a b.
Proof.
  unfold conflictb, conflict, share_link, share_name.
  rewrite orb_true_iff, !andb_true_iff, truthy_true_iff, !String.eqb_eq.
  tauto.
Qed.

Lemma conflict_sym a b : conflict a b -> conflict b a.
Proof.
  unfold conflict, share_link, share_name.
  intros [[H1 H2]|[H1 H2]]; [left|right]; split; congruence.
Qed.

Lemma is_duplicate_existsb c pool :
  is_duplicate c pool = existsb (fun item => conflictb item c) pool.
Proof.
  induction pool as [|item rest IH]; simpl; [reflexivity|].
  unfold conflictb at 1.
  destruct (truthy (link c) && (link item =? link c)%string); simpl; [reflexivity|].
  destruct ((company item =? company c)%string && (model_name item =? model_name c)%string);
    simpl; [reflexivity|exact IH].
Qed.

Lemma is_duplicate_true_iff c pool :
  is_duplicate c pool = true <-> exists r, In r pool /\ conflict r c.
Proof.
  rewrite is_duplicate_existsb, existsb_exists.
  split; intros [r [Hin H]]; exists r; split; auto; now apply conflictb_spec.
Qed.

Lemma is_duplicate_false_iff c pool :
  is_duplicate c pool = false <-> Forall (fun r => ~ conflict r c) pool.
Proof.
  rewrite Forall_forall. split.
  - intros H r Hin Hc.
    assert (is_duplicate c pool = true) by (apply is_duplicate_true_iff; eauto).
    congruence.
  - intros H. destruct (is_duplicate c pool) eqn:E; [|reflexivity].
    apply is_duplicate_true_iff in E. destruct E as [r [Hin Hc]].
    exfalso; eapply H; eauto.
Qed.

(** ** Deduplication *)

Lemma merge_rss_duplicate existing candidate rest new_updates :
  is_duplicate candidate (existing ++ new_updates) = true ->
  merge_rss existing (candidate :: rest) new_updates
  = merge_rss existing rest new_updates.
Proof. intros H. simpl. now rewrite H. Qed.

Lemma shared_link_is_duplicate candidate pool r :
  In r pool -> link r = link candidate -> link candidate <> "" ->
  is_duplicate candidate pool = true.
Proof.
  intros Hin Hl Hne. apply is_duplicate_true_iff.
  exists r. split; [assumption|]. left. split; assumption.
Qed.

(** C1. [is_duplicate candidate pool] is true exactly when some record of
    [pool] has the candidate's link, that link being non-empty, or has the
    candidate's company and model name. In particular a candidate with the
    non-empty link of a stored record is a duplicate, the merge loop adds
    nothing for it, and a run whose only candidate it is leaves the data
    file as it was. *)
Theorem is_duplicate_spec :
  (forall candidate pool,
      is_duplicate candidate pool = true <->
      exists r, In r pool /\
                ((link r = link candidate /\ link candidate <> "")
                 \/ (company r = company candidate
                     /\ model_name r = model_name candidate)))
  /\ (forall existing new_updates candidate rest r,
         In r existing -> link r = link candidate -> link candidate <> "" ->
         is_duplicate candidate (existing ++ new_updates) = true
         /\ merge_rss existing (candidate :: rest) new_updates
            = merge_rss existing rest new_updates)
  /\ (forall today w existing candidate r,
         In r existing -> link r = link candidate -> link candidate <> "" ->
         fetch_official_rss_updates today w = [candidate] ->
         github_companies today w existing MODEL_PATTERNS [] = [] ->
         hf_companies today w existing MODEL_PATTERNS [] = [] ->
         fetch_all_updates today w (StoreRecords existing)
         = (StoreRecords existing, Ok [])).
Proof.
  split; [|split].
  - intros candidate pool. apply is_duplicate_true_iff.
  - intros existing new_updates candidate rest r Hin Hl Hne.
    assert (Hd : is_duplicate candidate (existing ++ new_updates) = true).
    { apply shared_link_is_duplicate with (r := r); auto.
      apply in_or_app; now left. }
    split; [exact Hd|]. now apply merge_rss_duplicate.
  - intros today w existing candidate r Hin Hl Hne Hrss Hgh Hhf.
    assert (Hc : collect_updates today w existing = []).
    { unfold collect_updates. rewrite Hrss, merge_rss_duplicate.
      - cbn [merge_rss]. rewrite Hgh. exact Hhf.
      - rewrite app_nil_r. now apply shared_link_is_duplicate with (r := r). }
    unfold fetch_all_updates, load_existing_data.
    cbn [try_body_load try_except]. rewrite Hc. reflexivity.
Qed.

(** Scenario B, run: the candidate of the feed is rejected and the data
    file keeps its one record. *)
Lemma is_duplicate_spec_witness :
  fetch_official_rss_updates day0 scenario_B_world = [scenario_B_candidate]
  /\ is_duplicate scenario_B_candidate scenario_B_store = true
  /\ fetch_all_updates day0 scenario_B_world (StoreRecords scenario_B_store)
     = (StoreRecords scenario_B_store, Ok []).
Proof.
  split; [vm_compute; reflexivity|].
  split; [vm_compute; reflexivity|].
  apply (proj2 (proj2 is_duplicate_spec) day0 scenario_B_world scenario_B_store
           scenario_B_candidate
           (Update "Anthropic" "Claude 3" "2025-05-01" "" "Official RSS" "https://x/y")).
  - simpl; left; reflexivity.
  - reflexivity.
  - simpl; discriminate.
  - vm_compute; reflexivity.
  - vm_compute; reflexivity.
  - vm_compute; reflexivity.
Defined.

(** ** The uniqueness invariant *)

Lemma unique_store_app_one l u :
  unique_store l -> Forall (fun x => ~ conflict x u) l -> unique_store (l ++ [u]).
Proof.
  induction 1 as [|r l Hr Hl IH]; intros Hu; simpl.
  - constructor; auto.
  - inversion Hu as [|? ? Hru Hlu]; subst.
    constructor; [|now apply IH].
    apply Forall_app; split; [assumption|].
    constructor; [|constructor].
    intros Hc; apply Hru. now apply conflict_sym.
Qed.

Lemma unique_store_perm l l' :
  Permutation l l' -> unique_store l -> unique_store l'.
Proof.
  induction 1 as [|x l l' Hp IH|x y l|l l' l'' H1 IH1 H2 IH2]; intros Hu.
  - assumption.
  - inversion Hu; subst. constructor; [|auto].
    rewrite Forall_forall in *. intros z Hz. apply H1.
    now apply Permutation_in with (l := l'); [apply Permutation_sym|].
  - inversion Hu as [|? ? Hy Hyl]; subst.
    inversion Hyl as [|? ? Hx Hl]; subst.
    inversion Hy as [|? ? Hxy Hyrest]; subst.
    constructor.
    + constructor; [|assumption].
      intros Hc; apply Hxy. now apply conflict_sym.
    + constructor; assumption.
  - auto.
Qed.

Lemma unique_store_app_l l l' : unique_store (l ++ l') -> unique_store l'.
Proof.
  induction l as [|x l IH]; simpl; [trivial|].
  intros H; inversion H; subst; auto.
Qed.

Lemma unique_store_nth l :
  unique_store l ->
  forall i j a b, (i < j)%nat -> nth_error l i = Some a -> nth_error l j = Some b ->
    ~ conflict b a.
Proof.
  induction 1 as [|r l Hr Hl IH]; intros i j a b Hij Ha Hb.
  - destruct i; discriminate.
  - destruct j as [|j]; [lia|]. simpl in Hb.
    destruct i as [|i]; simpl in Ha.
    + injection Ha as <-. rewrite Forall_forall in Hr.
      apply Hr. eapply nth_error_In; eauto.
    + eapply IH; [|eassumption|eassumption]. lia.
Qed.

Lemma uniqueness_iff l : uniqueness l <-> unique_store l.
Proof.
  split.
  - induction l as [|r l IH]; intros H; [constructor|].
    constructor.
    + rewrite Forall_forall. intros x Hx.
      apply In_nth_error in Hx. destruct Hx as [n Hn].
      destruct (H (S n) O x r) as [H1 H2]; [lia|exact Hn|reflexivity|].
      unfold conflict; tauto.
    + apply IH. intros i j a b Hij Ha Hb.
      apply (H (S i) (S j)); auto.
  - intros H i j a b Hij Ha Hb.
    assert (Hc : ~ conflict a b).
    { destruct (Nat.lt_ge_cases i j) as [Hlt|Hge].
      - intros Hc. apply conflict_sym in Hc. revert Hc.
        exact (unique_store_nth l H i j a b Hlt Ha Hb).
      - apply (unique_store_nth l H j i b a); [lia|assumption|assumption]. }
    unfold conflict in Hc; tauto.
Qed.

Lemma unique_storeb_spec l : unique_storeb l = true <-> unique_store l.
Proof.
  induction l as [|r l IH]; simpl.
  - split; auto.
  - rewrite andb_true_iff, negb_true_iff, is_duplicate_false_iff, IH.
    split.
    + intros [H1 H2]; constructor; auto.
    + intros H; inversion H; auto.
Qed.

(** ** Where feed records come from *)

Lemma rss_entries_origin today company_ info entries :
  forall updates r,
    In r (rss_entries today company_ info entries updates) ->
    In r updates \/
    exists entry, In entry entries /\ rss_accepted today company_ info entry r.
Proof.
  induction entries as [|entry rest IH]; intros updates r Hin; simpl in Hin.
  - now left.
  - assert (Hrest : forall upd,
               In r (rss_entries today company_ info rest upd) ->
               In r upd \/
               exists e, In e (entry :: rest) /\ rss_accepted today company_ info e r).
    { intros upd H. apply IH in H. destruct H as [H|[e [He Ha]]]; [now left|].
      right; exists e; split; [now right|assumption]. }
    destruct (entry_title entry) as [title|] eqn:Et; [|now left].
    destruct (keyword_hit (keywords info) (lower title)
                (lower match entry_summary entry with Some s => s | None => "" end))
      eqn:Ek; [|now apply Hrest].
    destruct (release_hit (lower title)) eqn:Er; [|now apply Hrest].
    match type of Hin with
    | context [is_today_update today ?d] =>
        destruct (is_today_update today d) eqn:Ed; [|now apply Hrest]
    end.
    destruct (entry_link entry) as [l|] eqn:El; [|now left].
    apply Hrest in Hin. destruct Hin as [Hin|Hin]; [|now right].
    apply in_app_or in Hin. destruct Hin as [Hin|[<-|[]]]; [now left|].
    right. exists entry. split; [now left|].
    exists title, l. unfold rss_date_of, summary_of. repeat split; assumption.
Qed.

Lemma rss_sites_origin today w company_ info sites :
  forall updates r,
    In r (rss_sites today w company_ info sites updates) ->
    In r updates \/
    exists rss_url entries entry,
      In rss_url sites /\ feedparser_parse w rss_url = Some entries
      /\ In entry (firstn 5 entries) /\ rss_accepted today company_ info entry r.
Proof.
  induction sites as [|rss_url rest IH]; intros updates r Hin; simpl in Hin.
  - now left.
  - apply IH in Hin. destruct Hin as [Hin|[u [es [e [Hu H]]]]].
    + destruct (feedparser_parse w rss_url) as [entries|] eqn:Ef; [|now left].
      apply rss_entries_origin in Hin. destruct Hin as [Hin|[e [He Ha]]]; [now left|].
      right. exists rss_url, entries, e. repeat split; auto. now left.
    + right. exists u, es, e. split; [now right|assumption].
Qed.

Lemma rss_companies_origin today w patterns :
  forall updates r,
    In r (rss_companies today w patterns updates) ->
    In r updates \/ rss_origin today w patterns r.
Proof.
  induction patterns as [|[company_ info] rest IH]; intros updates r Hin; simpl in Hin.
  - now left.
  - apply IH in Hin. destruct Hin as [Hin|Hin].
    + apply rss_sites_origin in Hin.
      destruct Hin as [Hin|[u [es [e [Hu [Hf [He Ha]]]]]]]; [now left|].
      right. exists company_, info, u, es, e. repeat split; auto. now left.
    + right. destruct Hin as [c [i [u [es [e [Hc H]]]]]].
      exists c, i, u, es, e. split; [now right|assumption].
Qed.

Lemma fetch_official_rss_updates_origin today w r :
  In r (fetch_official_rss_updates today w) -> rss_origin today w MODEL_PATTERNS r.
Proof.
  intros H. apply rss_companies_origin in H. destruct H as [[]|H]. exact H.
Qed.

Lemma rss_accepted_today today company_ info entry r :
  rss_accepted today company_ info entry r ->
  is_today_update today (update_date r) = true.
Proof. intros [title [l [_ [_ [_ [_ [Hd ->]]]]]]]. exact Hd. Qed.

Lemma fetch_official_rss_updates_today today w :
  Forall (fun r => is_today_update today (update_date r) = true)
         (fetch_official_rss_updates today w).
Proof.
  apply Forall_forall. intros r Hr.
  apply fetch_official_rss_updates_origin in Hr.
  destruct Hr as [c [i [u [es [e [_ [_ [_ [_ Ha]]]]]]]]].
  eapply rss_accepted_today; eauto.
Qed.

(** ** An induction principle for the three stages

    Every record the run appends to [new_updates] is dated today and is not
    a duplicate of the data loaded or of the records appended before it. A
    property of [new_updates] kept by such an append holds when the run
    ends. *)

Lemma accepts_Some today existing new_updates model_info info :
  accepts today existing new_updates model_info = Some info ->
  model_info = Some info
  /\ is_today_update today (update_date info) = true
  /\ is_duplicate info (existing ++ new_updates) = false.
Proof.
  unfold accepts. destruct model_info as [i|]; [|discriminate].
  destruct (is_today_update today (update_date i)) eqn:Ed; simpl; [|discriminate].
  destruct (is_duplicate i (existing ++ new_updates)) eqn:Edup; simpl; [discriminate|].
  intros [= <-]. auto.
Qed.

Section StageInduction.

Variable today : date.
Variable existing : list UpdateRecord.
Variable P : list UpdateRecord -> Prop.

Hypothesis P_append :
  forall new_updates u,
    P new_updates ->
    is_today_update today (update_date u) = true ->
    is_duplicate u (existing ++ new_updates) = false ->
    P (new_updates ++ [u]).

Lemma merge_rss_ind rss_updates :
  Forall (fun r => is_today_update today (update_date r) = true) rss_updates ->
  forall new_updates, P new_updates -> P (merge_rss existing rss_updates new_updates).
Proof using P_append.
  induction 1 as [|u rest Hu Hrest IH]; intros new_updates HP; simpl; [assumption|].
  destruct (is_duplicate u (existing ++ new_updates)) eqn:Ed; simpl; auto.
Qed.

Lemma github_releases_ind company_ releases :
  forall new_updates, P new_updates ->
    P (github_releases today existing company_ releases new_updates).
Proof using P_append.
  induction releases as [|rel rest IH]; intros new_updates HP; simpl; [assumption|].
  destruct (accepts today existing new_updates
              (extract_model_info_from_github rel company_)) as [info|] eqn:Ea; auto.
  apply accepts_Some in Ea. destruct Ea as [_ [Hd Hdup]]. auto.
Qed.

Lemma github_endpoints_ind w company_ endpoints :
  forall new_updates, P new_updates ->
    P (github_endpoints today w existing company_ endpoints new_updates).
Proof using P_append.
  induction endpoints as [|e rest IH]; intros new_updates HP; simpl; [assumption|].
  apply IH. now apply github_releases_ind.
Qed.

Lemma github_companies_ind w patterns :
  forall new_updates, P new_updates ->
    P (github_companies today w existing patterns new_updates).
Proof using P_append.
  induction patterns as [|[c i] rest IH]; intros new_updates HP; simpl; [assumption|].
  apply IH. now apply github_endpoints_ind.
Qed.

Lemma hf_models_ind company_ models :
  forall today_count new_updates, P new_updates ->
    P (hf_models today existing company_ models today_count new_updates).
Proof using P_append.
  induction models as [|m rest IH]; intros today_count new_updates HP; simpl;
    [assumption|].
  destruct (today_count >=? 2); [assumption|].
  destruct (accepts today existing new_updates
              (extract_model_info_from_hf today m company_)) as [info|] eqn:Ea; auto.
  apply accepts_Some in Ea. destruct Ea as [_ [Hd Hdup]]. auto.
Qed.

Lemma hf_companies_ind w patterns :
  forall new_updates, P new_updates ->
    P (hf_companies today w existing patterns new_updates).
Proof using P_append.
  induction patterns as [|[c i] rest IH]; intros new_updates HP; simpl; [assumption|].
  apply IH. now apply hf_models_ind.
Qed.

Lemma collect_updates_ind w : P [] -> P (collect_updates today w existing).
Proof using P_append.
  intros H0. unfold collect_updates.
  apply hf_companies_ind, github_companies_ind, merge_rss_ind; [|assumption].
  apply fetch_official_rss_updates_today.
Qed.

End StageInduction.

Lemma collect_updates_today today w existing :
  Forall (fun r => is_today_update today (update_date r) = true)
         (collect_updates today w existing).
Proof.
  apply collect_updates_ind; [|constructor].
  intros new_updates u HP Hd _. apply Forall_app; split; auto.
Qed.

Lemma collect_updates_unique_merged today w existing :
  unique_store existing -> unique_store (existing ++ collect_updates today w existing).
Proof.
  intros He.
  apply (collect_updates_ind today existing (fun n => unique_store (existing ++ n)));
    [|now rewrite app_nil_r].
  intros new_updates u HP _ Hdup. rewrite app_assoc.
  apply unique_store_app_one; [assumption|].
  now apply is_duplicate_false_iff.
Qed.

Lemma collect_updates_unique today w existing :
  unique_store (collect_updates today w existing).
Proof.
  apply (collect_updates_ind today existing unique_store); [|constructor].
  intros new_updates u HP _ Hdup.
  apply unique_store_app_one; [assumption|].
  apply is_duplicate_false_iff in Hdup. apply Forall_app in Hdup. tauto.
Qed.

(** ** Sorting and saving *)

Lemma sort_keys_Ok data ks :
  sort_keys data = Ok ks ->
  map snd ks = data
  /\ Forall (fun kx => strptime_ymd (update_date (snd kx)) = Ok (fst kx)) ks.
Proof.
  revert ks. induction data as [|x rest IH]; intros ks H; simpl in H.
  - injection H as <-. split; constructor.
  - destruct (strptime_ymd (update_date x)) as [k|e] eqn:Ek; [|discriminate].
    destruct (sort_keys rest) as [ks'|e] eqn:Er; [|discriminate].
    injection H as <-. destruct (IH ks' eq_refl) as [H1 H2].
    split; simpl; [now rewrite H1|]. constructor; auto.
Qed.

Lemma sort_keys_Raise data e :
  sort_keys data = Raise e ->
  exists r, In r data /\ strptime_ymd (update_date r) = Raise e.
Proof.
  induction data as [|x rest IH]; intros H; simpl in H; [discriminate|].
  destruct (strptime_ymd (update_date x)) as [k|e'] eqn:Ek.
  - destruct (sort_keys rest) as [ks'|e''] eqn:Er; [discriminate|].
    injection H as ->. destruct (IH eq_refl) as [r [Hin Hr]].
    exists r; split; [now right|assumption].
  - injection H as ->. exists x; split; [now left|assumption].
Qed.

Lemma sort_keys_total data :
  Forall (fun r => exists d, strptime_ymd (update_date r) = Ok d) data ->
  exists ks, sort_keys data = Ok ks.
Proof.
  induction 1 as [|x rest [d Hd] Hrest [ks IH]]; simpl.
  - now exists [].
  - rewrite Hd, IH. eauto.
Qed.

Lemma insert_desc_perm kx l : Permutation (insert_desc kx l) (kx :: l).
Proof.
  induction l as [|ky rest IH]; simpl; [reflexivity|].
  destruct (date_leb (fst ky) (fst kx)); [reflexivity|].
  rewrite IH. apply perm_swap.
Qed.

Lemma sort_desc_perm l : Permutation (sort_desc l) l.
Proof.
  induction l as [|kx rest IH]; simpl; [reflexivity|].
  rewrite insert_desc_perm. now constructor.
Qed.

Lemma save_data_written data st st' :
  save_data data st = (st', Ok tt) ->
  exists written, st' = StoreRecords written /\ Permutation data written.
Proof.
  unfold save_data. destruct (sort_keys data) as [ks|e] eqn:Ek; [|discriminate].
  intros [= <-]. eexists; split; [reflexivity|].
  apply sort_keys_Ok in Ek. destruct Ek as [<- _].
  apply Permutation_map, Permutation_sym, sort_desc_perm.
Qed.

Lemma save_data_cases data st :
  (exists e, save_data data st = (st, Raise e))
  \/ (exists written, save_data data st = (StoreRecords written, Ok tt)
                      /\ Permutation data written).
Proof.
  destruct (save_data data st) as [st' [[]|e]] eqn:Es.
  - right. destruct (save_data_written _ _ _ Es) as [wr [-> Hp]]. eauto.
  - left. exists e. unfold save_data in Es.
    destruct (sort_keys data); congruence.
Qed.

(** The state of the data file after a run that loaded [existing]: as it
    was, or the merged list in another order. *)
Lemma fetch_all_updates_store today w st existing :
  load_existing_data st = Ok existing ->
  fst (fetch_all_updates today w st) = st
  \/ exists written,
       fst (fetch_all_updates today w st) = StoreRecords written
       /\ Permutation (existing ++ collect_updates today w existing) written.
Proof.
  intros Hl. unfold fetch_all_updates. rewrite Hl.
  destruct (collect_updates today w existing) as [|u new_updates] eqn:Ec;
    [now left|].
  destruct (save_data_cases (existing ++ u :: new_updates) st)
    as [[e He]|[wr [Hw Hp]]].
  - left. now rewrite He.
  - right. exists wr. rewrite Hw. auto.
Qed.

Lemma load_existing_data_records st data :
  st = StoreRecords data -> load_existing_data st = Ok data.
Proof. now intros ->. Qed.

Lemma load_existing_data_inv st existing :
  load_existing_data st = Ok existing ->
  st = StoreRecords existing
  \/ (existing = [] /\ (st = StoreAbsent \/ st = StoreNotJson)).
Proof.
  destruct st; cbn; intros H; try discriminate; injection H as <-; auto.
Qed.

(** C3. Uniqueness is kept by a run: when the data loaded has no two
    records with a common non-empty link and no two with the same company
    and model name, so has the merged list, and so has whatever the data
    file holds when the run ends; a data file that held records still
    holds records. *)
Theorem run_keeps_uniqueness today w st existing :
  load_existing_data st = Ok existing ->
  uniqueness existing ->
  uniqueness (existing ++ collect_updates today w existing)
  /\ (forall written,
         fst (fetch_all_updates today w st) = StoreRecords written ->
         uniqueness written)
  /\ (st = StoreRecords existing ->
      exists written, fst (fetch_all_updates today w st) = StoreRecords written).
Proof.
  intros Hl Hu.
  assert (Hm : unique_store (existing ++ collect_updates today w existing)).
  { apply collect_updates_unique_merged. now apply uniqueness_iff. }
  split; [now apply uniqueness_iff|].
  destruct (fetch_all_updates_store today w st existing Hl) as [Hs|[wr [Hs Hp]]];
    rewrite Hs.
  - split.
    + intros written ->.
      apply load_existing_data_inv in Hl.
      destruct Hl as [[= <-]|[_ [[=]|[=]]]]. assumption.
    + intros ->. eauto.
  - split.
    + intros written [= <-]. apply uniqueness_iff.
      eapply unique_store_perm; eauto.
    + eauto.
Qed.

(** Scenario A on a data file that holds one record: the release is
    accepted and the two records written are unique. *)
Lemma run_keeps_uniqueness_witness :
  fst (fetch_all_updates day0 scenario_A_world (StoreRecords scenario_B_store))
  = StoreRecords [scenario_A_record;
                  Update "Anthropic" "Claude 3" "2025-05-01" "" "Official RSS"
                    "https://x/y"]
  /\ uniqueness (scenario_B_store
                 ++ collect_updates day0 scenario_A_world scenario_B_store).
Proof.
  split; [vm_compute; reflexivity|].
  refine (proj1 (run_keeps_uniqueness day0 scenario_A_world
                   (StoreRecords scenario_B_store) scenario_B_store _ _)).
  - reflexivity.
  - apply uniqueness_iff, unique_storeb_spec. vm_compute. reflexivity.
Defined.

(** ** The date filter *)

Lemma date_eqb_eq a b : date_eqb a b = true <-> a = b.
Proof.
  unfold date_eqb. rewrite !andb_true_iff, !Z.eqb_eq.
  destruct a, b; simpl. split.
  - intros [[-> ->] ->]; reflexivity.
  - intros [= -> -> ->]; auto.
Qed.

Lemma is_today_update_true_iff today s :
  is_today_update today s = true <-> strptime_ymd s = Ok today.
Proof.
  unfold is_today_update. destruct (strptime_ymd s) as [d|e].
  - rewrite date_eqb_eq. split; congruence.
  - split; discriminate.
Qed.

Lemma fetch_all_updates_Ok today w st st' new_updates :
  fetch_all_updates today w st = (st', Ok new_updates) ->
  exists existing,
    load_existing_data st = Ok existing
    /\ new_updates = collect_updates today w existing.
Proof.
  unfold fetch_all_updates.
  destruct (load_existing_data st) as [existing|e]; [|discriminate].
  intros H. exists existing. split; [reflexivity|].
  destruct (collect_updates today w existing) as [|u rest]; [congruence|].
  destruct (save_data (existing ++ u :: rest) st) as [st'' [[]|e]]; congruence.
Qed.

(** C2. The date test holds of a string exactly when [strptime] reads it,
    as [%Y-%m-%d], to today's date, and a string that does not parse gives
    false, no error. A candidate of any of the three stages whose
    [update_date] is not today's date is in no list of accepted records:
    not in the list the stages collect, and not in the result of a run. *)
Theorem date_filter today w :
  (forall s, is_today_update today s = true <-> strptime_ymd s = Ok today)
  /\ (forall s e, strptime_ymd s = Raise e -> is_today_update today s = false)
  /\ (forall existing r,
         strptime_ymd (update_date r) <> Ok today ->
         ~ In r (collect_updates today w existing))
  /\ (forall st st' new_updates r,
         fetch_all_updates today w st = (st', Ok new_updates) ->
         strptime_ymd (update_date r) <> Ok today ->
         ~ In r new_updates).
Proof.
  assert (Hc : forall existing r,
             strptime_ymd (update_date r) <> Ok today ->
             ~ In r (collect_updates today w existing)).
  { intros existing r Hne Hin. apply Hne, is_today_update_true_iff.
    pose proof (collect_updates_today today w existing) as Hall.
    rewrite Forall_forall in Hall. now apply Hall. }
  split; [|split; [|split]].
  - apply is_today_update_true_iff.
  - intros s e H. unfold is_today_update. now rewrite H.
  - exact Hc.
  - intros st st' new_updates r Hrun Hne.
    apply fetch_all_updates_Ok in Hrun. destruct Hrun as [existing [_ ->]].
    now apply Hc.
Qed.

(** ** The feed filter *)

Lemma prefix_true_iff n h :
  prefix n h = true <-> exists post, h = (n ++ post)%string.
Proof.
  revert h. induction n as [|a n IH]; intros h; simpl.
  - destruct h; split; eauto.
  - destruct h as [|b h]; simpl.
    + split; [discriminate|]. intros [post H]; discriminate.
    + destruct (ascii_dec a b) as [->|Hne].
      * rewrite IH. split; intros [post H]; exists post; congruence.
      * split; [discriminate|]. intros [post H]. congruence.
Qed.

Lemma str_in_true_iff n h : str_in n h = true <-> occurs_in n h.
Proof.
  unfold occurs_in. induction h as [|c h IH].
  - cbn [str_in]. destruct (prefix n "") eqn:Ep.
    + split; [intros _|reflexivity].
      apply prefix_true_iff in Ep. destruct Ep as [post H].
      exists "", post. exact H.
    + split; [discriminate|]. intros [pre [post H]].
      destruct pre; [|discriminate]. simpl in H.
      assert (prefix n "" = true) by (apply prefix_true_iff; eauto). congruence.
  - cbn [str_in]. destruct (prefix n (String c h)) eqn:Ep.
    + split; [intros _|reflexivity].
      apply prefix_true_iff in Ep. destruct Ep as [post H].
      exists "", post. exact H.
    + rewrite IH. split.
      * intros [pre [post H]]. exists (String c pre), post. simpl. now rewrite H.
      * intros [pre [post H]]. destruct pre as [|c' pre].
        -- simpl in H.
           assert (prefix n (String c h) = true) by (apply prefix_true_iff; eauto).
           congruence.
        -- simpl in H. injection H as _ H. eauto.
Qed.

Lemma keyword_hit_condition info title summary_ :
  keyword_hit (keywords info) (lower title) (lower summary_) = true ->
  keyword_condition info title summary_.
Proof.
  unfold keyword_hit, keyword_condition. rewrite existsb_exists.
  intros [kw [Hin H]]. exists kw. split; [assumption|].
  apply orb_true_iff in H. now rewrite <- !str_in_true_iff.
Qed.

Lemma release_hit_condition title :
  release_hit (lower title) = true -> vocabulary_condition title.
Proof.
  unfold release_hit, vocabulary_condition, release_words. rewrite existsb_exists.
  intros [word [Hin H]]. exists word. split; [assumption|].
  now apply str_in_true_iff.
Qed.

Lemma rss_entries_rejects today company_ info entry rest updates title :
  entry_title entry = Some title ->
  release_hit (lower title) = false ->
  rss_entries today company_ info (entry :: rest) updates
  = rss_entries today company_ info rest updates.
Proof.
  intros Ht Hr. cbn [rss_entries]. rewrite Ht, Hr.
  now destruct (keyword_hit _ _ _).
Qed.

(** C5. On feeds of ASCII text, a record of the feed stage is the record
    built from one of the first five entries of a feed of its company, and
    that entry (a) has a keyword of the company, lowercased, in its
    lowercased title or summary and (b) has a word of the release
    vocabulary in its lowercased title. An entry titled
    [Acme raises funding] adds no record, whatever its summary, date and
    link. *)
Theorem rss_relevance_filter today w :
  ascii_feeds w ->
  (forall r,
      In r (fetch_official_rss_updates today w) ->
      exists company_ info rss_url entries entry title l,
        In (company_, info) MODEL_PATTERNS
        /\ In rss_url (official_sites info)
        /\ feedparser_parse w rss_url = Some entries
        /\ In entry (firstn 5 entries)
        /\ entry_title entry = Some title
        /\ entry_link entry = Some l
        /\ r = Update company_ title (rss_date_of today entry)
                 (slice_to 300 (summary_of entry)) "Official RSS" l
        /\ keyword_condition info title (summary_of entry)
        /\ vocabulary_condition title)
  /\ (forall company_ info summary_ published l rest updates,
         rss_entries today company_ info
           (RssEntry (Some "Acme raises funding") summary_ published l :: rest) updates
         = rss_entries today company_ info rest updates)
  /\ (forall r,
         In r (fetch_official_rss_updates today w) ->
         model_name r <> "Acme raises funding").
Proof.
  intros _.
  assert (H1 : forall r,
      In r (fetch_official_rss_updates today w) ->
      exists company_ info rss_url entries entry title l,
        In (company_, info) MODEL_PATTERNS
        /\ In rss_url (official_sites info)
        /\ feedparser_parse w rss_url = Some entries
        /\ In entry (firstn 5 entries)
        /\ entry_title entry = Some title
        /\ entry_link entry = Some l
        /\ r = Update company_ title (rss_date_of today entry)
                 (slice_to 300 (summary_of entry)) "Official RSS" l
        /\ keyword_condition info title (summary_of entry)
        /\ release_hit (lower title) = true).
  { intros r Hr. apply fetch_official_rss_updates_origin in Hr.
    destruct Hr as [c [i [u [es [e [Hc [Hu [Hf [He Ha]]]]]]]]].
    destruct Ha as [title [l [Ht [Hl [Hk [Hv [Hd ->]]]]]]].
    exists c, i, u, es, e, title, l. repeat split; auto.
    now apply keyword_hit_condition. }
  split; [|split].
  - intros r Hr. destruct (H1 r Hr) as [c [i [u [es [e [t [l H]]]]]]].
    exists c, i, u, es, e, t, l. intuition auto using release_hit_condition.
  - intros. now apply rss_entries_rejects with (title := "Acme raises funding").
  - intros r Hr Hn. destruct (H1 r Hr) as [c [i [u [es [e [t [l H]]]]]]].
    destruct H as [_ [_ [_ [_ [_ [_ [Hm [_ Hv]]]]]]]].
    rewrite Hm in Hn. cbn [model_name] in Hn. subst t.
    vm_compute in Hv. discriminate.
Qed.

Lemma feed_world_ascii url entries :
  Forall ascii_entry entries -> ascii_feeds (feed_world url entries).
Proof.
  intros Ha u es e Hf He. unfold feed_world in Hf. cbn [feedparser_parse] in Hf.
  destruct (u =? url)%string; [|discriminate]. injection Hf as <-.
  rewrite Forall_forall in Ha. apply Ha.
  rewrite <- (firstn_skipn 5 entries). apply in_or_app. now left.
Qed.

(** The feed of scenario B, of ASCII text: its entry passes the filter and
    gives the candidate. *)
Lemma rss_relevance_filter_witness :
  exists company_ info rss_url entries entry title l,
    In (company_, info) MODEL_PATTERNS
    /\ In rss_url (official_sites info)
    /\ feedparser_parse scenario_B_world rss_url = Some entries
    /\ In entry (firstn 5 entries)
    /\ entry_title entry = Some title
    /\ entry_link entry = Some l
    /\ scenario_B_candidate
       = Update company_ title (rss_date_of day0 entry)
           (slice_to 300 (summary_of entry)) "Official RSS" l
    /\ keyword_condition info title (summary_of entry)
    /\ vocabulary_condition title.
Proof.
  refine (proj1 (rss_relevance_filter day0 scenario_B_world _)
            scenario_B_candidate _).
  - apply feed_world_ascii.
    apply Forall_cons; [|apply Forall_nil].
    split; [intros title [= <-]; reflexivity|reflexivity].
  - vm_compute. left. reflexivity.
Defined.

(** ** Titles as model names *)

Lemma unique_store_In l :
  unique_store l ->
  forall a b, In a l -> In b l -> a <> b -> ~ conflict a b.
Proof.
  induction 1 as [|r l Hr Hl IH]; intros a b Ha Hb Hne; [destruct Ha|].
  rewrite Forall_forall in Hr.
  destruct Ha as [<-|Ha], Hb as [<-|Hb].
  - congruence.
  - intros Hc. apply conflict_sym in Hc. revert Hc. now apply Hr.
  - now apply Hr.
  - now apply IH.
Qed.

Lemma keyword_condition_hit info title summary_ :
  keyword_condition info title summary_ ->
  keyword_hit (keywords info) (lower title) (lower summary_) = true.
Proof.
  unfold keyword_hit, keyword_condition. rewrite existsb_exists.
  intros [kw [Hin H]]. exists kw. split; [assumption|].
  apply orb_true_iff. now rewrite !str_in_true_iff.
Qed.

Lemma vocabulary_condition_hit title :
  vocabulary_condition title -> release_hit (lower title) = true.
Proof.
  unfold release_hit, vocabulary_condition, release_words. rewrite existsb_exists.
  intros [word [Hin H]]. exists word. split; [assumption|].
  now apply str_in_true_iff.
Qed.

Lemma rss_entries_incl today company_ info entries :
  forall updates r,
    In r updates -> In r (rss_entries today company_ info entries updates).
Proof.
  induction entries as [|entry rest IH]; intros updates r Hin; cbn [rss_entries];
    [exact Hin|].
  destruct (entry_title entry) as [title|]; [|exact Hin].
  destruct (keyword_hit _ _ _); [|now apply IH].
  destruct (release_hit _); [|now apply IH].
  destruct (is_today_update today _); [|now apply IH].
  destruct (entry_link entry) as [l|]; [|exact Hin].
  apply IH. apply in_or_app. now left.
Qed.

Lemma rss_entries_In today company_ info entries :
  forall updates entry title l,
    Forall (fun e => entry_title e <> None /\ entry_link e <> None) entries ->
    In entry entries ->
    entry_title entry = Some title ->
    entry_link entry = Some l ->
    keyword_hit (keywords info) (lower title) (lower (summary_of entry)) = true ->
    release_hit (lower title) = true ->
    is_today_update today (rss_date_of today entry) = true ->
    In (Update company_ title (rss_date_of today entry)
          (slice_to 300 (summary_of entry)) "Official RSS" l)
       (rss_entries today company_ info entries updates).
Proof.
  induction entries as [|e rest IH]; intros updates entry title l Hall Hin Ht Hl Hk Hv Hd;
    [destruct Hin|].
  inversion Hall as [|? ? [Het Hel] Hrest]; subst.
  destruct Hin as [->|Hin].
  - cbn [rss_entries]. unfold summary_of, rss_date_of in *.
    rewrite Ht, Hk, Hv, Hd, Hl.
    apply rss_entries_incl. apply in_or_app. right. now left.
  - cbn [rss_entries].
    destruct (entry_title e) as [t|]; [|congruence].
    repeat match goal with
           | |- context [if ?c then _ else _] =>
               destruct c eqn:?; [|now apply IH]
           end.
    destruct (entry_link e) as [le|]; [|congruence].
    now apply IH.
Qed.

(** C10. The feed loop stores the title of an entry as model name,
    character for character: in a feed whose entries carry a title and a
    link, an entry that passes the keyword test, the vocabulary test and
    the date test gives the record with its title as model name, and every
    record of the feed stage is the record built from an entry, with the
    title of that entry. A candidate with the company and model name of a
    record of the pool is passed over by the merge whatever its link, so of
    two records with one company, one title and different links a run
    accepts at most one. *)
Theorem rss_title_is_model_name today w :
  (forall company_ info entries entry title l updates,
      In (company_, info) MODEL_PATTERNS ->
      Forall (fun e => entry_title e <> None /\ entry_link e <> None) entries ->
      In entry entries ->
      entry_title entry = Some title ->
      entry_link entry = Some l ->
      keyword_condition info title (summary_of entry) ->
      vocabulary_condition title ->
      is_today_update today (rss_date_of today entry) = true ->
      In (Update company_ title (rss_date_of today entry)
            (slice_to 300 (summary_of entry)) "Official RSS" l)
         (rss_entries today company_ info entries updates))
  /\ (forall r,
         In r (fetch_official_rss_updates today w) ->
         exists company_ info rss_url entries entry title l,
           In (company_, info) MODEL_PATTERNS
           /\ In rss_url (official_sites info)
           /\ feedparser_parse w rss_url = Some entries
           /\ In entry (firstn 5 entries)
           /\ entry_title entry = Some title
           /\ entry_link entry = Some l
           /\ r = Update company_ title (rss_date_of today entry)
                    (slice_to 300 (summary_of entry)) "Official RSS" l)
  /\ (forall existing new_updates u1 u2 rest,
         In u1 (existing ++ new_updates) ->
         company u1 = company u2 -> model_name u1 = model_name u2 ->
         merge_rss existing (u2 :: rest) new_updates
         = merge_rss existing rest new_updates)
  /\ (forall existing u1 u2,
         company u1 = company u2 -> model_name u1 = model_name u2 ->
         link u1 <> link u2 ->
         ~ (In u1 (collect_updates today w existing)
            /\ In u2 (collect_updates today w existing))).
Proof.
  split; [|split; [|split]].
  - intros company_ info entries entry title l updates _ Hall Hin Ht Hl Hk Hv Hd.
    apply rss_entries_In; auto.
    + now apply keyword_condition_hit.
    + now apply vocabulary_condition_hit.
  - intros r Hr. apply fetch_official_rss_updates_origin in Hr.
    destruct Hr as [c [i [u [es [e [Hc [Hu [Hf [He Ha]]]]]]]]].
    destruct Ha as [title [l [Ht [Hl [Hk [Hv [Hd ->]]]]]]].
    exists c, i, u, es, e, title, l. repeat split; auto.
  - intros existing new_updates u1 u2 rest Hin Hc Hm. cbn [merge_rss].
    replace (is_duplicate u2 (existing ++ new_updates)) with true; [reflexivity|].
    symmetry. apply is_duplicate_true_iff.
    exists u1. split; [assumption|]. right. split; assumption.
  - intros existing u1 u2 Hc Hm Hl [H1 H2].
    apply (unique_store_In _ (collect_updates_unique today w existing) u1 u2);
      auto; [congruence|]. right. split; assumption.
Qed.

(** The second of two entries of the Anthropic feed with one title gives a
    record with that title for model name. *)
Lemma rss_title_is_model_name_witness :
  In (Update "Anthropic" "Claude 4 released" "2025-06-01" "A new model"
        "Official RSS" "https://x/2")
     (rss_entries day0 "Anthropic" anthropic_profile twin_entries []).
Proof.
  refine (proj1 (rss_title_is_model_name day0 twin_world)
            "Anthropic" anthropic_profile twin_entries
            (RssEntry (Some "Claude 4 released") (Some "A new model") (Some day0)
               (Some "https://x/2"))
            "Claude 4 released" "https://x/2" [] _ _ _ _ _ _ _ _).
  - right. left. reflexivity.
  - repeat (apply Forall_cons; [split; discriminate|]). apply Forall_nil.
  - right. left. reflexivity.
  - reflexivity.
  - reflexivity.
  - exists "claude". split; [now left|]. left.
    exists "", " 4 released". reflexivity.
  - exists "release". split; [now left|].
    exists "claude 4 ", "d". reflexivity.
  - vm_compute. reflexivity.
Defined.

(** The feed stage gives both records, each with the title of its entry,
    and the run keeps the first only. *)
Example rss_title_is_model_name_example :
  fetch_official_rss_updates day0 twin_world
  = [ Update "Anthropic" "Claude 4 released" "2025-06-01" "A new model"
        "Official RSS" "https://x/1";
      Update "Anthropic" "Claude 4 released" "2025-06-01" "A new model"
        "Official RSS" "https://x/2" ]
  /\ collect_updates day0 twin_world []
     = [ Update "Anthropic" "Claude 4 released" "2025-06-01" "A new model"
           "Official RSS" "https://x/1" ].
Proof. split; vm_compute; reflexivity. Qed.

(** ** Reading and writing [%Y-%m-%d] *)

Lemma is_digit_cases c :
  is_digit c = true ->
  c = "0"%char \/ c = "1"%char \/ c = "2"%char \/ c = "3"%char \/ c = "4"%char
  \/ c = "5"%char \/ c = "6"%char \/ c = "7"%char \/ c = "8"%char \/ c = "9"%char.
Proof.
  destruct c as [[] [] [] [] [] [] [] []]; vm_compute; intros H;
    try discriminate H; tauto.
Qed.

Lemma digit_val_range c : is_digit c = true -> 0 <= digit_val c <= 9.
Proof.
  intros H. apply is_digit_cases in H.
  repeat (destruct H as [->|H]; [vm_compute; split; discriminate|]).
  subst. vm_compute; split; discriminate.
Qed.

Lemma is_digit_not_space c : is_digit c = true -> is_space c = false.
Proof.
  intros H. apply is_digit_cases in H.
  repeat (destruct H as [->|H]; [reflexivity|]). now subst.
Qed.

Lemma py_int_2 a b :
  is_digit a = true -> py_int (String a (String b "")) = num2 a b.
Proof.
  intros Ha. unfold py_int. cbn [lstrip]. rewrite (is_digit_not_space a Ha).
  unfold num2. cbn [digits_val]. lia.
Qed.

Lemma py_int_4 a b c d :
  is_digit a = true ->
  py_int (String a (String b (String c (String d "")))) = num4 a b c d.
Proof.
  intros Ha. unfold py_int. cbn [lstrip]. rewrite (is_digit_not_space a Ha).
  unfold num4. cbn [digits_val]. lia.
Qed.

Lemma captures_re_Y a b c d rest :
  is_digit a = true -> is_digit b = true -> is_digit c = true -> is_digit d = true ->
  rmatch (String.length (String a (String b (String c (String d rest))))) re_Y
    (String a (String b (String c (String d rest)))) = [rest].
Proof.
  intros Ha Hb Hc Hd. cbn [String.length]. unfold re_Y, Digit.
  cbn [rmatch flat_map app]. rewrite Ha. cbn [flat_map app].
  rewrite Hb. cbn [flat_map app]. rewrite Hc. cbn [flat_map app].
  rewrite Hd. reflexivity.
Qed.

Lemma valid_date_ranges y m d :
  valid_date (Date y m d) = true ->
  ((1 <=? m) && (m <=? 12) = true) /\ ((1 <=? d) && (d <=? 31) = true).
Proof.
  unfold valid_date, days_in_month. cbn [year month day].
  rewrite !andb_true_iff, !Z.leb_le.
  intros [[[[[H1 H2] H3] H4] H5] H6]. repeat split; try assumption.
  destruct (m =? 2); [destruct (is_leap y); lia|].
  destruct ((m =? 4) || (m =? 6) || (m =? 9) || (m =? 11)); lia.
Qed.

(** The shape of a well-formed date, opened. *)
Lemma well_formed_date_inv s :
  well_formed_date s = true ->
  exists y1 y2 y3 y4 m1 m2 d1 d2,
    s = String y1 (String y2 (String y3 (String y4 (String "-"
          (String m1 (String m2 (String "-" (String d1 (String d2 "")))))))))
    /\ Forall (fun c => is_digit c = true) [y1; y2; y3; y4; m1; m2; d1; d2]
    /\ valid_date (Date (num4 y1 y2 y3 y4) (num2 m1 m2) (num2 d1 d2)) = true.
Proof.
  intros H.
  do 10 (destruct s as [|? s]; [discriminate H|]).
  destruct s; [|discriminate H].
  unfold well_formed_date in H.
  rewrite !andb_true_iff in H. destruct H as [[[Hd Hs1] Hs2] Hv].
  apply Ascii.eqb_eq in Hs1, Hs2. subst.
  rewrite forallb_forall in Hd.
  do 8 eexists. split; [reflexivity|]. split; [|exact Hv].
  apply Forall_forall. exact Hd.
Qed.

(** [strptime] reads a well-formed date to the date it denotes. *)
Lemma strptime_ymd_well_formed s :
  well_formed_date s = true -> strptime_ymd s = Ok (calendar s).
Proof.
  intros H. apply well_formed_date_inv in H.
  destruct H as (y1 & y2 & y3 & y4 & m1 & m2 & d1 & d2 & -> & Hd & Hv).
  repeat match goal with
         | H : Forall _ (_ :: _) |- _ => inversion H; clear H; subst
         | H : Forall _ [] |- _ => clear H
         end.
  cbn [calendar].
  destruct (valid_date_ranges _ _ _ Hv) as [Hm Hdy].
  unfold strptime_ymd, ymd_matches, captures.
  rewrite captures_re_Y by assumption.
  repeat match goal with
         | H : is_digit ?c = true |- _ =>
             first [ constr_eq c m1 | constr_eq c m2 | constr_eq c d1 | constr_eq c d2 ];
             apply is_digit_cases in H
         end.
  repeat match goal with
         | H : m1 = _ \/ _ |- _ => destruct H as [->|H]
         | H : m2 = _ \/ _ |- _ => destruct H as [->|H]
         end; subst; try discriminate Hm; clear Hm;
  repeat match goal with
         | H : _ = _ \/ _ |- _ => destruct H as [->|H]
         end; subst; try discriminate Hdy; clear Hdy;
  lazy -[py_int valid_date num4 num2];
  rewrite py_int_4, !py_int_2 by (assumption || reflexivity);
  rewrite Hv; reflexivity.
Qed.

Lemma strptime_ymd_error s e : strptime_ymd s = Raise e -> e = ValueError.
Proof.
  unfold strptime_ymd. destruct (ymd_matches s) as [|[[[Y m] d] rest] l].
  - congruence.
  - destruct (truthy rest); [congruence|].
    destruct (valid_date _); congruence.
Qed.

(** *** Dates as numbers and dates as strings *)

Lemma ascii_compare_digit_val a b :
  Ascii.compare a b = (digit_val a ?= digit_val b).
Proof.
  unfold Ascii.compare, digit_val.
  rewrite <- (N2Z.inj_compare (N_of_ascii a) (N_of_ascii b)).
  destruct (Z.compare_spec (Z.of_N (N_of_ascii a)) (Z.of_N (N_of_ascii b)));
    symmetry.
  - apply Z.compare_eq_iff. lia.
  - apply Z.compare_lt_iff. lia.
  - apply Z.compare_gt_iff. lia.
Qed.

Lemma lex_compare k a a' r r' :
  0 <= r < k -> 0 <= r' < k ->
  (k * a + r ?= k * a' + r') = match a ?= a' with Eq => r ?= r' | c => c end.
Proof.
  intros Hr Hr'. destruct (Z.compare_spec a a') as [->|Hlt|Hgt].
  - rewrite Z.add_compare_mono_l. reflexivity.
  - apply Z.compare_lt_iff. nia.
  - apply Z.compare_gt_iff. nia.
Qed.

Lemma num2_compare a b a' b' :
  is_digit b = true -> is_digit b' = true ->
  (num2 a b ?= num2 a' b')
  = match Ascii.compare a a' with Eq => Ascii.compare b b' | c => c end.
Proof.
  intros Hb Hb'. apply digit_val_range in Hb, Hb'.
  unfold num2. rewrite !ascii_compare_digit_val. apply lex_compare; lia.
Qed.

Lemma num4_compare a b c d a' b' c' d' :
  Forall (fun x => is_digit x = true) [b; c; d; b'; c'; d'] ->
  (num4 a b c d ?= num4 a' b' c' d')
  = match Ascii.compare a a' with
    | Eq => match Ascii.compare b b' with
            | Eq => match Ascii.compare c c' with
                    | Eq => Ascii.compare d d'
                    | x => x
                    end
            | x => x
            end
    | x => x
    end.
Proof.
  intros H.
  repeat match goal with
         | H : Forall _ (_ :: _) |- _ => inversion H; clear H; subst
         | H : Forall _ [] |- _ => clear H
         end.
  repeat match goal with
         | H : is_digit _ = true |- _ => apply digit_val_range in H
         end.
  unfold num4. rewrite !ascii_compare_digit_val.
  replace (1000 * digit_val a + 100 * digit_val b + 10 * digit_val c + digit_val d)
    with (1000 * digit_val a + (100 * digit_val b + (10 * digit_val c + digit_val d)))
    by lia.
  replace (1000 * digit_val a' + 100 * digit_val b' + 10 * digit_val c' + digit_val d')
    with (1000 * digit_val a' + (100 * digit_val b' + (10 * digit_val c' + digit_val d')))
    by lia.
  rewrite lex_compare by lia. rewrite lex_compare by lia.
  rewrite lex_compare by lia. reflexivity.
Qed.

(** On well-formed dates the order of the calendar is the order of the
    strings. *)
Lemma calendar_compare s1 s2 :
  well_formed_date s1 = true -> well_formed_date s2 = true ->
  date_compare (calendar s1) (calendar s2) = (s1 ?= s2)%string.
Proof.
  intros H1 H2. apply well_formed_date_inv in H1, H2.
  destruct H1 as (y1 & y2 & y3 & y4 & m1 & m2 & d1 & d2 & -> & Hd & _).
  destruct H2 as (y1' & y2' & y3' & y4' & m1' & m2' & d1' & d2' & -> & Hd' & _).
  repeat match goal with
         | H : Forall _ (_ :: _) |- _ => inversion H; clear H; subst
         | H : Forall _ [] |- _ => clear H
         end.
  cbn [calendar]. unfold date_compare. cbn [year month day String.compare].
  rewrite num4_compare by (repeat constructor; assumption).
  rewrite !num2_compare by assumption.
  change (Ascii.compare "-" "-") with Eq.
  destruct (Ascii.compare y1 y1'); try reflexivity.
  destruct (Ascii.compare y2 y2'); try reflexivity.
  destruct (Ascii.compare y3 y3'); try reflexivity.
  destruct (Ascii.compare y4 y4'); try reflexivity.
  destruct (Ascii.compare m1 m1'); try reflexivity.
  destruct (Ascii.compare m2 m2'); try reflexivity.
  destruct (Ascii.compare d1 d1'); try reflexivity.
  destruct (Ascii.compare d2 d2'); reflexivity.
Qed.

Lemma calendar_leb s1 s2 :
  well_formed_date s1 = true -> well_formed_date s2 = true ->
  date_leb (calendar s1) (calendar s2) = (s1 <=? s2)%string.
Proof.
  intros H1 H2. unfold date_leb, String.leb. now rewrite calendar_compare.
Qed.

(** *** The sort of [save_data] *)

Lemma date_compare_antisym a b :
  date_compare b a = CompOpp (date_compare a b).
Proof.
  unfold date_compare.
  rewrite (Z.compare_antisym (year a)), (Z.compare_antisym (month a)),
    (Z.compare_antisym (day a)).
  destruct (year a ?= year b); simpl; try reflexivity.
  destruct (month a ?= month b); simpl; reflexivity.
Qed.

Lemma date_leb_total a b : date_leb a b = false -> date_leb b a = true.
Proof.
  unfold date_leb. rewrite (date_compare_antisym a b).
  destruct (date_compare a b); simpl; congruence.
Qed.

Lemma insert_desc_HdRel kx ky l :
  key_desc ky kx -> HdRel key_desc ky l -> HdRel key_desc ky (insert_desc kx l).
Proof.
  intros Hk Hl. destruct l as [|kz rest]; simpl.
  - now constructor.
  - destruct (date_leb (fst kz) (fst kx)); constructor; auto.
    now inversion Hl.
Qed.

Lemma insert_desc_sorted kx l :
  Sorted key_desc l -> Sorted key_desc (insert_desc kx l).
Proof.
  induction 1 as [|ky rest Hs IH Hh]; simpl.
  - repeat constructor.
  - destruct (date_leb (fst ky) (fst kx)) eqn:E.
    + constructor; [constructor; assumption|]. constructor. exact E.
    + constructor; [assumption|].
      apply insert_desc_HdRel; [|assumption].
      unfold key_desc. now apply date_leb_total.
Qed.

Lemma sort_desc_sorted l : Sorted key_desc (sort_desc l).
Proof.
  induction l as [|kx rest IH]; simpl; [constructor|].
  now apply insert_desc_sorted.
Qed.

Lemma sort_keys_well_formed data :
  Forall (fun r => well_formed_date (update_date r) = true) data ->
  exists ks, sort_keys data = Ok ks /\ map snd ks = data /\ Forall keyed ks.
Proof.
  induction 1 as [|x rest Hx Hrest [ks [Hk [Hm Hf]]]]; simpl.
  - exists []. repeat split; constructor.
  - rewrite (strptime_ymd_well_formed _ Hx), Hk.
    eexists. split; [reflexivity|]. split; simpl; [now rewrite Hm|].
    constructor; [|assumption]. split; [assumption|reflexivity].
Qed.

Lemma key_desc_dated a b :
  keyed a -> keyed b -> key_desc a b -> dated_no_earlier (snd a) (snd b).
Proof.
  unfold keyed, key_desc, dated_no_earlier. intros [Ha Ea] [Hb Eb] H.
  rewrite Ea, Eb in H. split; [assumption|].
  now rewrite <- calendar_leb.
Qed.

Lemma Sorted_map_snd l :
  Forall keyed l -> Sorted key_desc l -> Sorted dated_no_earlier (map snd l).
Proof.
  intros Hf Hs. induction Hs as [|a rest Hs IH Hh]; simpl; [constructor|].
  inversion Hf as [|? ? Ha Hrest]; subst.
  constructor; [now apply IH|].
  destruct Hh as [|b rest' Hab]; simpl; constructor.
  inversion Hrest; subst. now apply key_desc_dated.
Qed.

Lemma Sorted_adjacent {A} (R : A -> A -> Prop) l :
  Sorted R l ->
  forall i a b, nth_error l i = Some a -> nth_error l (S i) = Some b -> R a b.
Proof.
  induction 1 as [|x rest Hs IH Hh]; intros i a b Ha Hb.
  - destruct i; discriminate.
  - destruct i as [|i].
    + simpl in Ha, Hb. injection Ha as <-.
      destruct Hh as [|y rest' Hxy]; [discriminate|].
      simpl in Hb. now injection Hb as <-.
    + simpl in Ha. change (nth_error rest (S i) = Some b) in Hb. eauto.
Qed.

(** C4. Saving records whose dates are well-formed [YYYY-MM-DD] strings
    succeeds and writes the same records, sorted by date, latest first:
    each record of the file is dated no earlier than the next one, in the
    order of the calendar and in the order of the strings. *)
Theorem save_data_sorted data st :
  Forall (fun r => well_formed_date (update_date r) = true) data ->
  exists written,
    save_data data st = (StoreRecords written, Ok tt)
    /\ Permutation data written
    /\ Sorted dated_no_earlier written
    /\ (forall i r1 r2,
           nth_error written i = Some r1 -> nth_error written (S i) = Some r2 ->
           dated_no_earlier r1 r2).
Proof.
  intros Hwf.
  destruct (sort_keys_well_formed data Hwf) as [ks [Hk [Hm Hf]]].
  assert (Hs : Sorted dated_no_earlier (map snd (sort_desc ks))).
  { apply Sorted_map_snd; [|apply sort_desc_sorted].
    rewrite Forall_forall in *. intros kx Hin. apply Hf.
    eapply Permutation_in; [apply sort_desc_perm|exact Hin]. }
  exists (map snd (sort_desc ks)).
  split; [unfold save_data; now rewrite Hk|].
  split; [rewrite <- Hm; apply Permutation_map, Permutation_sym, sort_desc_perm|].
  split; [exact Hs|]. now apply Sorted_adjacent.
Qed.

(** Three records saved: the file lists them from June 2025 back to
    December 2024. *)
Lemma save_data_sorted_witness :
  exists written,
    save_data unsorted_data StoreAbsent = (StoreRecords written, Ok tt)
    /\ Permutation unsorted_data written
    /\ Sorted dated_no_earlier written
    /\ (forall i r1 r2,
           nth_error written i = Some r1 -> nth_error written (S i) = Some r2 ->
           dated_no_earlier r1 r2).
Proof.
  apply (save_data_sorted unsorted_data StoreAbsent).
  repeat constructor.
Defined.

Example save_data_sorted_example :
  save_data unsorted_data StoreAbsent
  = (StoreRecords
       [ Update "Google" "Gemini 3" "2025-06-01" "" "GitHub" "https://b";
         Update "Meta" "Llama 4" "2025-05-01" "" "GitHub" "https://a";
         Update "xAI" "Grok 5" "2024-12-31" "" "Hugging Face" "https://c" ],
     Ok tt).
Proof. vm_compute. reflexivity. Qed.

Lemma sort_keys_raises data r :
  In r data -> strptime_ymd (update_date r) = Raise ValueError ->
  sort_keys data = Raise ValueError.
Proof.
  intros Hin Hr. destruct (sort_keys data) as [ks|e] eqn:Ek.
  - apply sort_keys_Ok in Ek. destruct Ek as [Hm Hf].
    subst data. apply in_map_iff in Hin. destruct Hin as [kx [<- Hin]].
    rewrite Forall_forall in Hf. rewrite (Hf kx Hin) in Hr. discriminate.
  - apply sort_keys_Raise in Ek. destruct Ek as [r' [_ Hr']].
    now rewrite (strptime_ymd_error _ _ Hr').
Qed.

(** C9. [save_data] parses the date of every record with [%Y-%m-%d]: when a
    record of the list has a date of ASCII text that [strptime] rejects,
    [save_data] raises ValueError and leaves the file; a run that has
    something to save and whose merged list has such a record, be it one
    loaded from the file, ends with that error. When every date is a
    well-formed [YYYY-MM-DD] date, [save_data] raises nothing; and when the
    dates are ASCII text and the sort of [save_data] raises, the error is
    ValueError and a record of the list has a date [strptime] rejects. *)
Theorem save_data_date_errors :
  (forall data st r,
      In r data ->
      ascii_text (update_date r) = true ->
      strptime_ymd (update_date r) = Raise ValueError ->
      save_data data st = (st, Raise ValueError))
  /\ (forall today w st existing r,
         load_existing_data st = Ok existing ->
         collect_updates today w existing <> [] ->
         In r (existing ++ collect_updates today w existing) ->
         ascii_text (update_date r) = true ->
         strptime_ymd (update_date r) = Raise ValueError ->
         fetch_all_updates today w st = (st, Raise ValueError))
  /\ (forall data st,
         Forall (fun r => well_formed_date (update_date r) = true) data ->
         exists written, save_data data st = (StoreRecords written, Ok tt))
  /\ (forall data e,
         Forall (fun r => ascii_text (update_date r) = true) data ->
         sort_keys data = Raise e ->
         e = ValueError
         /\ exists r, In r data /\ strptime_ymd (update_date r) = Raise ValueError).
Proof.
  assert (H1 : forall data st r,
      In r data -> strptime_ymd (update_date r) = Raise ValueError ->
      save_data data st = (st, Raise ValueError)).
  { intros data st r Hin Hr. unfold save_data.
    now rewrite (sort_keys_raises data r Hin Hr). }
  split; [|split; [|split]].
  - intros data st r Hin _ Hr. now apply (H1 data st r).
  - intros today w st existing r Hl Hne Hin _ Hr.
    unfold fetch_all_updates. rewrite Hl.
    destruct (collect_updates today w existing) as [|u rest] eqn:Ec; [congruence|].
    now rewrite (H1 _ st r Hin Hr).
  - intros data st Hwf.
    destruct (sort_keys_well_formed data Hwf) as [ks [Hk _]].
    unfold save_data. rewrite Hk. eauto.
  - intros data e _ Ek.
    apply sort_keys_Raise in Ek. destruct Ek as [r [Hin Hr]].
    pose proof (strptime_ymd_error _ _ Hr) as ->. eauto.
Qed.

(** A data file with the date [2025/05/01]: the run of scenario A finds a
    release, cannot save, and the file stays as it was. *)
Lemma save_data_date_errors_witness :
  fetch_all_updates day0 scenario_A_world (StoreRecords misdated_store)
  = (StoreRecords misdated_store, Raise ValueError).
Proof.
  apply (proj1 (proj2 save_data_date_errors) day0 scenario_A_world
           (StoreRecords misdated_store) misdated_store
           (Update "Meta" "Llama 4" "2025/05/01" "" "GitHub" "https://a")).
  - reflexivity.
  - vm_compute. discriminate.
  - simpl. left. reflexivity.
  - reflexivity.
  - vm_compute. reflexivity.
Defined.

(** Scenario A accepts the release of today; the same release dated the day
    before is left out and the data file is not written. *)
Example date_filter_example :
  fetch_all_updates day0 scenario_A_world StoreAbsent
  = (StoreRecords [scenario_A_record], Ok [scenario_A_record])
  /\ fetch_all_updates day0 stale_world StoreAbsent = (StoreAbsent, Ok []).
Proof. split; vm_compute; reflexivity. Qed.

(** ** Loading *)

Lemma collect_updates_parse today w existing :
  Forall (fun r => exists d, strptime_ymd (update_date r) = Ok d)
         (collect_updates today w existing).
Proof.
  eapply Forall_impl; [|apply collect_updates_today].
  intros r Hr. exists today. now apply is_today_update_true_iff.
Qed.

(** A run on a data file that is absent or is not JSON goes as a first
    run, from no record, and does not fail. *)
Lemma first_run today w st :
  st = StoreAbsent \/ st = StoreNotJson ->
  exists st', fetch_all_updates today w st = (st', Ok (collect_updates today w [])).
Proof.
  intros Hst. unfold fetch_all_updates.
  assert (Hl : load_existing_data st = Ok []) by (destruct Hst; subst; reflexivity).
  rewrite Hl.
  destruct (collect_updates today w []) as [|u rest] eqn:Ec; [eauto|].
  destruct (sort_keys_total (u :: rest)) as [ks Hk].
  { rewrite <- Ec. apply collect_updates_parse. }
  unfold save_data. cbn [app]. rewrite Hk. eauto.
Qed.

(** [load_existing_data], state by state. It returns the records of the
    data file; it returns the empty list when the file is absent
    (FileNotFoundError) or its text is not JSON (JSONDecodeError), and the
    run goes on from no record. It raises in the three other states: a
    file that cannot be opened and a file whose bytes are not UTF-8; the
    error is not one of the two it catches and ends the run, the data file
    untouched. *)
Theorem load_existing_data_spec today w :
  (forall data, load_existing_data (StoreRecords data) = Ok data)
  /\ (forall st,
         st = StoreAbsent \/ st = StoreNotJson ->
         load_existing_data st = Ok []
         /\ exists st',
              fetch_all_updates today w st = (st', Ok (collect_updates today w [])))
  /\ (forall st e,
         load_existing_data st = Raise e ->
         (st = StoreDenied \/ st = StoreDirectory \/ st = StoreNotUtf8)
         /\ try_body_load st = Raise e
         /\ e <> FileNotFoundError /\ e <> JSONDecodeError
         /\ fetch_all_updates today w st = (st, Raise e))
  /\ (forall st,
         st = StoreDenied \/ st = StoreDirectory \/ st = StoreNotUtf8 ->
         exists e, load_existing_data st = Raise e).
Proof.
  split; [reflexivity|]. split; [|split].
  - intros st Hst. split; [destruct Hst; subst; reflexivity|].
    now apply first_run.
  - intros st e H. unfold fetch_all_updates. rewrite H.
    destruct st; cbn in H; try discriminate H; injection H as <-;
      repeat split; auto; discriminate.
  - intros st H. destruct H as [H|[H|H]]; subst; eexists; reflexivity.
Qed.

(** C8. On a data file whose bytes are not UTF-8 text the load fails the
    run: [json.load] raises UnicodeDecodeError while reading, the [except]
    clause lists FileNotFoundError and JSONDecodeError only, so the error
    is not caught and the run ends with it. A file whose text is not JSON,
    the other kind of corrupt file, is read as no record. *)
Lemma load_existing_data_raises :
  load_existing_data StoreNotUtf8 = Raise UnicodeDecodeError
  /\ fetch_all_updates day0 scenario_A_world StoreNotUtf8
     = (StoreNotUtf8, Raise UnicodeDecodeError)
  /\ load_existing_data StoreNotJson = Ok [].
Proof. repeat split; reflexivity. Qed.

(** *** Writing a date and reading it back *)

Lemma below_In n k : 0 <= n < k -> In n (below k).
Proof.
  intros H. apply in_map_iff. exists (Z.to_nat n). split; [lia|].
  apply in_seq. lia.
Qed.

Lemma four_digits_all y : 0 <= y <= 9999 -> four_digits y = true.
Proof.
  intros H.
  assert (Hall : forallb four_digits (below 10000) = true)
    by (vm_compute; reflexivity).
  rewrite forallb_forall in Hall. apply Hall, below_In. lia.
Qed.

Lemma two_digits_all n : 0 <= n <= 99 -> two_digits n = true.
Proof.
  intros H.
  assert (Hall : forallb two_digits (below 100) = true)
    by (vm_compute; reflexivity).
  rewrite forallb_forall in Hall. apply Hall, below_In. lia.
Qed.

Lemma strftime_ymd_well_formed d :
  valid_date d = true ->
  well_formed_date (strftime_ymd d) = true /\ calendar (strftime_ymd d) = d.
Proof.
  intros Hv. destruct d as [y m dd].
  destruct (valid_date_ranges _ _ _ Hv) as [Hm Hd].
  assert (Hy : 0 <= y <= 9999).
  { unfold valid_date in Hv. cbn [year] in Hv.
    rewrite !andb_true_iff, !Z.leb_le in Hv. lia. }
  rewrite !andb_true_iff, !Z.leb_le in Hm, Hd.
  pose proof (four_digits_all y Hy) as H4.
  pose proof (two_digits_all m ltac:(lia)) as H2m.
  pose proof (two_digits_all dd ltac:(lia)) as H2d.
  unfold strftime_ymd. cbn [year month day].
  unfold four_digits in H4. unfold two_digits in H2m, H2d.
  destruct (zfill 4 (decimal y)) as [|a [|b [|c [|e [|? ?]]]]]; try discriminate H4.
  destruct (zfill 2 (decimal m)) as [|m1 [|m2 [|? ?]]]; try discriminate H2m.
  destruct (zfill 2 (decimal dd)) as [|d1 [|d2 [|? ?]]]; try discriminate H2d.
  rewrite andb_true_iff, Z.eqb_eq in H4, H2m, H2d.
  destruct H4 as [H4 Ey], H2m as [H2m Em], H2d as [H2d Ed].
  cbn [String.append well_formed_date calendar].
  rewrite Ey, Em, Ed. split; [|reflexivity].
  rewrite Hv, !andb_true_r.
  cbn [forallb] in *. rewrite !andb_true_iff in *.
  repeat split; tauto.
Qed.

(** A date of the calendar, written with [strftime], is read back by
    [strptime]. *)
Lemma strptime_strftime d :
  valid_date d = true -> strptime_ymd (strftime_ymd d) = Ok d.
Proof.
  intros Hv. destruct (strftime_ymd_well_formed d Hv) as [Hw Hc].
  now rewrite (strptime_ymd_well_formed _ Hw), Hc.
Qed.

Lemma is_today_update_today today :
  valid_date today = true -> is_today_update today (strftime_ymd today) = true.
Proof. intros Hv. apply is_today_update_true_iff. now apply strptime_strftime. Qed.

(** ** The Hugging Face stage *)

Lemma extract_model_info_from_hf_Some today m company_ info :
  extract_model_info_from_hf today m company_ = Some info ->
  exists id,
    modelId m = Some id
    /\ info = Update company_ id
                (match lastModified m with
                 | Some d => strftime_ymd d
                 | None => strftime_ymd today
                 end)
                (match tags m with
                 | [] => ""
                 | _ => ("Tags: " ++ join ", " (firstn 5 (tags m)))%string
                 end)
                "Hugging Face" ("https://huggingface.co/" ++ id)%string.
Proof.
  unfold extract_model_info_from_hf. destruct (modelId m) as [id|]; [|discriminate].
  intros [= <-]. now exists id.
Qed.

Lemma hf_models_break today existing company_ models today_count new_updates :
  2 <= today_count ->
  hf_models today existing company_ models today_count new_updates = new_updates.
Proof.
  intros H. destruct models as [|m rest]; [reflexivity|]. simpl.
  destruct (today_count >=? 2) eqn:E; [reflexivity|].
  rewrite Z.geb_leb in E. apply Z.leb_gt in E. lia.
Qed.

Lemma hf_models_added today existing company_ models :
  forall today_count new_updates,
    0 <= today_count ->
    exists added,
      hf_models today existing company_ models today_count new_updates
      = new_updates ++ added
      /\ Z.of_nat (List.length added) <= Z.max 0 (2 - today_count)
      /\ Forall (fun r => company r = company_ /\ source r = "Hugging Face") added.
Proof.
  induction models as [|m rest IH]; intros today_count new_updates Hc.
  - exists []. rewrite app_nil_r. repeat split; [simpl; lia|constructor].
  - cbn [hf_models]. destruct (today_count >=? 2) eqn:E.
    + exists []. rewrite app_nil_r. repeat split; [simpl; lia|constructor].
    + rewrite Z.geb_leb in E. apply Z.leb_gt in E.
      destruct (accepts today existing new_updates
                  (extract_model_info_from_hf today m company_)) as [info|] eqn:Ea.
      * apply accepts_Some in Ea. destruct Ea as [Hx _].
        apply extract_model_info_from_hf_Some in Hx. destruct Hx as [id [_ Hi]].
        destruct (IH (today_count + 1) (new_updates ++ [info]) ltac:(lia))
          as [added [Heq [Hlen Hall]]].
        exists (info :: added). rewrite Heq, <- app_assoc. split; [reflexivity|].
        split; [cbn [List.length]; lia|].
        constructor; [subst info; split; reflexivity|assumption].
      * destruct (IH today_count new_updates Hc) as [added [Heq [Hlen Hall]]].
        exists added. auto.
Qed.

Lemma hf_models_stop today existing company_ pre post :
  forall today_count new_updates,
    0 <= today_count <= 2 ->
    List.length (hf_models today existing company_ pre today_count new_updates)
    = (List.length new_updates + Z.to_nat (2 - today_count))%nat ->
    hf_models today existing company_ (pre ++ post) today_count new_updates
    = hf_models today existing company_ pre today_count new_updates.
Proof.
  induction pre as [|m rest IH]; intros today_count new_updates Hc Hlen.
  - cbn [hf_models app] in *. apply hf_models_break. lia.
  - cbn [hf_models app] in *. destruct (today_count >=? 2) eqn:E; [reflexivity|].
    rewrite Z.geb_leb in E. apply Z.leb_gt in E.
    destruct (accepts today existing new_updates
                (extract_model_info_from_hf today m company_)) as [info|].
    + apply IH; [lia|]. rewrite Hlen, length_app. cbn [List.length]. lia.
    + now apply IH.
Qed.

Lemma hf_count_app c l1 l2 : hf_count c (l1 ++ l2) = (hf_count c l1 + hf_count c l2)%nat.
Proof. unfold hf_count. now rewrite filter_app, length_app. Qed.

Lemma hf_count_le_length c l : (hf_count c l <= List.length l)%nat.
Proof. unfold hf_count. apply filter_length_le. Qed.

Lemma hf_count_other c c' l :
  c' <> c -> Forall (fun r => company r = c' /\ source r = "Hugging Face") l ->
  hf_count c l = 0%nat.
Proof.
  intros Hne. unfold hf_count. induction 1 as [|r l [Hr _] Hl IH]; [reflexivity|].
  simpl. unfold is_hf_of at 1. rewrite Hr.
  destruct (String.eqb_spec c' c); [contradiction|].
  now rewrite andb_false_r.
Qed.

Lemma hf_count_not_hf c l :
  Forall (fun r => source r <> "Hugging Face") l -> hf_count c l = 0%nat.
Proof.
  unfold hf_count. induction 1 as [|r l Hr Hl IH]; [reflexivity|].
  simpl. unfold is_hf_of at 1.
  destruct (String.eqb_spec (source r) "Hugging Face"); [contradiction|].
  exact IH.
Qed.

Lemma hf_companies_count today w existing c patterns :
  NoDup (map fst patterns) ->
  forall new_updates,
    (hf_count c (hf_companies today w existing patterns new_updates)
     <= hf_count c new_updates
        + (if in_dec string_dec c (map fst patterns) then 2 else 0))%nat.
Proof.
  induction patterns as [|[c0 info] rest IH]; intros Hnd new_updates; simpl.
  - lia.
  - inversion Hnd as [|? ? Hnotin Hnd']; subst.
    specialize (IH Hnd').
    destruct (hf_models_added today existing c0
                (fetch_huggingface_models w (keywords info)) 0 new_updates ltac:(lia))
      as [added [Heq [Hlen Hall]]].
    rewrite Heq. etransitivity; [apply IH|]. rewrite hf_count_app.
    destruct (string_dec c0 c) as [->|Hne].
    + destruct (in_dec string_dec c (map fst rest)); [contradiction|].
      pose proof (hf_count_le_length c added). lia.
    + rewrite (hf_count_other c c0 added Hne Hall).
      destruct (in_dec string_dec c (map fst rest)); lia.
Qed.

(** The sources of the first two stages. *)
Lemma merge_rss_Forall (Q : UpdateRecord -> Prop) existing rss_updates :
  Forall Q rss_updates ->
  forall new_updates, Forall Q new_updates ->
    Forall Q (merge_rss existing rss_updates new_updates).
Proof.
  induction 1 as [|u rest Hu Hrest IH]; intros new_updates Hn; simpl; [assumption|].
  destruct (is_duplicate u (existing ++ new_updates)); simpl; auto.
  apply IH, Forall_app. auto.
Qed.

Lemma extract_model_info_from_github_source rel company_ info :
  extract_model_info_from_github rel company_ = Some info ->
  source info = "GitHub" /\ company info = company_.
Proof.
  unfold extract_model_info_from_github.
  destruct (published_at rel); [|discriminate].
  destruct (jget (tag_name rel) _); try discriminate.
  destruct (jget (body rel) _); try discriminate.
  intros [= <-]. split; reflexivity.
Qed.

Lemma github_companies_Forall (Q : UpdateRecord -> Prop) today w existing :
  (forall r, source r = "GitHub" -> Q r) ->
  forall patterns new_updates, Forall Q new_updates ->
    Forall Q (github_companies today w existing patterns new_updates).
Proof.
  intros HQ.
  assert (Hr : forall c releases new_updates, Forall Q new_updates ->
                 Forall Q (github_releases today existing c releases new_updates)).
  { intros c releases. induction releases as [|rel rest IH]; intros n Hn; simpl;
      [assumption|].
    destruct (accepts today existing n (extract_model_info_from_github rel c))
      as [info|] eqn:Ea; auto.
    apply accepts_Some in Ea. destruct Ea as [Hx _].
    apply extract_model_info_from_github_source in Hx.
    apply IH, Forall_app. split; [assumption|]. constructor; [|constructor].
    apply HQ, Hx. }
  assert (He : forall c endpoints new_updates, Forall Q new_updates ->
                 Forall Q (github_endpoints today w existing c endpoints new_updates)).
  { intros c endpoints. induction endpoints as [|e rest IH]; intros n Hn; simpl; auto. }
  induction patterns as [|[c i] rest IH]; intros n Hn; simpl; auto.
Qed.

Lemma before_hf_sources today w existing :
  Forall (fun r => source r <> "Hugging Face")
    (github_companies today w existing MODEL_PATTERNS
       (merge_rss existing (fetch_official_rss_updates today w) [])).
Proof.
  apply github_companies_Forall.
  - intros r ->. discriminate.
  - apply merge_rss_Forall; [|constructor].
    apply Forall_forall. intros r Hr.
    apply fetch_official_rss_updates_origin in Hr.
    destruct Hr as [c [i [u [es [e [_ [_ [_ [_ Ha]]]]]]]]].
    destruct Ha as [title [l [_ [_ [_ [_ [_ ->]]]]]]]. discriminate.
Qed.

Lemma MODEL_PATTERNS_NoDup : NoDup (map fst MODEL_PATTERNS).
Proof.
  simpl. repeat constructor; simpl; intuition discriminate.
Qed.

Lemma collect_updates_hf_count today w existing c :
  (hf_count c (collect_updates today w existing) <= 2)%nat.
Proof.
  unfold collect_updates.
  etransitivity; [apply hf_companies_count, MODEL_PATTERNS_NoDup|].
  rewrite (hf_count_not_hf c _ (before_hf_sources today w existing)).
  destruct (in_dec string_dec c (map fst MODEL_PATTERNS)); lia.
Qed.

Lemma is_duplicate_app c l1 l2 :
  is_duplicate c (l1 ++ l2) = is_duplicate c l1 || is_duplicate c l2.
Proof. rewrite !is_duplicate_existsb. apply existsb_app. Qed.

Lemma hf_records_distinct today company_ m0 m1 i0 i1 :
  extract_model_info_from_hf today m0 company_ = Some i0 ->
  extract_model_info_from_hf today m1 company_ = Some i1 ->
  modelId m0 <> modelId m1 ->
  is_duplicate i1 [i0] = false.
Proof.
  intros H0 H1 Hne.
  apply extract_model_info_from_hf_Some in H0, H1.
  destruct H0 as [id0 [E0 ->]], H1 as [id1 [E1 ->]].
  assert (Hid : id0 <> id1) by congruence.
  apply is_duplicate_false_iff. constructor; [|constructor].
  unfold conflict, share_link, share_name. cbn [link company model_name].
  intros [[Hl _]|[_ Hm]]; [|contradiction].
  cbn in Hl. injection Hl as Hl. contradiction.
Qed.

Lemma hf_accepts_today today existing new_updates company_ m id :
  valid_date today = true ->
  lastModified m = Some today -> modelId m = Some id ->
  (forall info, extract_model_info_from_hf today m company_ = Some info ->
                is_duplicate info (existing ++ new_updates) = false) ->
  exists info,
    extract_model_info_from_hf today m company_ = Some info
    /\ accepts today existing new_updates
         (extract_model_info_from_hf today m company_) = Some info.
Proof.
  intros Hv Hl Hid Hdup.
  destruct (extract_model_info_from_hf today m company_) as [info|] eqn:Ex.
  - exists info. split; [reflexivity|]. unfold accepts.
    rewrite (Hdup info eq_refl).
    apply extract_model_info_from_hf_Some in Ex. destruct Ex as [id' [_ ->]].
    cbn [update_date]. rewrite Hl, (is_today_update_today today Hv). reflexivity.
  - unfold extract_model_info_from_hf in Ex. rewrite Hid in Ex. discriminate.
Qed.

(** C6. In a run the Hugging Face stage accepts at most two records for a
    company: at most two records of [new_updates] have the source
    [Hugging Face] and that company, and the loop over the models of a
    company appends at most two. The loop stops at the second acceptance:
    models after a prefix in which two were accepted change nothing. When a
    search returns three models or more, all modified today, each with an
    identifier, no two with the same one, and none a duplicate of the
    records known, the two accepted are the first two, in order. *)
Theorem hf_cap today existing :
  (forall w c, (hf_count c (collect_updates today w existing) <= 2)%nat)
  /\ (forall company_ models new_updates,
         exists added,
           hf_models today existing company_ models 0 new_updates
           = new_updates ++ added
           /\ (List.length added <= 2)%nat)
  /\ (forall company_ pre post new_updates,
         List.length (hf_models today existing company_ pre 0 new_updates)
         = (List.length new_updates + 2)%nat ->
         hf_models today existing company_ (pre ++ post) 0 new_updates
         = hf_models today existing company_ pre 0 new_updates)
  /\ (forall company_ models new_updates,
         valid_date today = true ->
         (3 <= List.length models)%nat ->
         Forall (fun m => lastModified m = Some today /\ modelId m <> None) models ->
         NoDup (map modelId models) ->
         Forall (fun m => forall info,
                     extract_model_info_from_hf today m company_ = Some info ->
                     is_duplicate info (existing ++ new_updates) = false) models ->
         exists m0 m1 rest i0 i1,
           models = m0 :: m1 :: rest
           /\ extract_model_info_from_hf today m0 company_ = Some i0
           /\ extract_model_info_from_hf today m1 company_ = Some i1
           /\ hf_models today existing company_ models 0 new_updates
              = new_updates ++ [i0; i1]).
Proof.
  split; [|split; [|split]].
  - intros w c. apply collect_updates_hf_count.
  - intros company_ models new_updates.
    destruct (hf_models_added today existing company_ models 0 new_updates ltac:(lia))
      as [added [Heq [Hlen _]]].
    exists added. split; [assumption|lia].
  - intros company_ pre post new_updates Hlen.
    apply hf_models_stop; [lia|]. rewrite Hlen. reflexivity.
  - intros company_ models new_updates Hv Hlen Hall Hnd Hdup.
    destruct models as [|m0 [|m1 [|m2 rest]]]; simpl in Hlen; try lia.
    inversion Hall as [|? ? [Hl0 Hid0] Hall1]; subst.
    inversion Hall1 as [|? ? [Hl1 Hid1] _]; subst.
    inversion Hdup as [|? ? Hd0 Hdup1]; subst.
    inversion Hdup1 as [|? ? Hd1 _]; subst.
    assert (Hne : modelId m0 <> modelId m1).
    { inversion Hnd as [|? ? Hnotin _]; subst. intros E. apply Hnotin.
      simpl. now left. }
    destruct (modelId m0) as [id0|] eqn:E0; [|congruence].
    destruct (modelId m1) as [id1|] eqn:E1; [|congruence].
    destruct (hf_accepts_today today existing new_updates company_ m0 id0
                Hv Hl0 E0 Hd0) as [i0 [Hx0 Ha0]].
    assert (Hd1' : forall info,
               extract_model_info_from_hf today m1 company_ = Some info ->
               is_duplicate info (existing ++ new_updates ++ [i0]) = false).
    { intros info Hx. rewrite app_assoc, is_duplicate_app, (Hd1 info Hx).
      rewrite (hf_records_distinct today company_ m0 m1 i0 info Hx0 Hx);
        [reflexivity|congruence]. }
    destruct (hf_accepts_today today existing (new_updates ++ [i0]) company_ m1 id1
                Hv Hl1 E1 Hd1') as [i1 [Hx1 Ha1]].
    exists m0, m1, (m2 :: rest), i0, i1.
    repeat split; try assumption.
    cbn [hf_models]. change (0 >=? 2) with false. cbv iota. rewrite Ha0.
    change (0 + 1 >=? 2) with false. cbv iota. rewrite Ha1.
    rewrite hf_models_break by lia. now rewrite <- app_assoc.
Qed.

(** Scenario D: of three models of DeepSeek modified today, the first two
    are accepted. *)
Lemma hf_cap_witness :
  collect_updates day0 scenario_D_world []
  = [ Update "DeepSeek" "deepseek-ai/DeepSeek-V4" "2025-06-01"
        "Tags: text-generation" "Hugging Face"
        "https://huggingface.co/deepseek-ai/DeepSeek-V4";
      Update "DeepSeek" "deepseek-ai/DeepSeek-R2" "2025-06-01" ""
        "Hugging Face" "https://huggingface.co/deepseek-ai/DeepSeek-R2" ]
  /\ exists m0 m1 rest i0 i1,
       scenario_D_models = m0 :: m1 :: rest
       /\ extract_model_info_from_hf day0 m0 "DeepSeek" = Some i0
       /\ extract_model_info_from_hf day0 m1 "DeepSeek" = Some i1
       /\ hf_models day0 [] "DeepSeek" scenario_D_models 0 [] = [] ++ [i0; i1].
Proof.
  split; [vm_compute; reflexivity|].
  apply (proj2 (proj2 (proj2 (hf_cap day0 []))) "DeepSeek" scenario_D_models []).
  - reflexivity.
  - simpl. lia.
  - repeat constructor; discriminate.
  - simpl. repeat constructor; simpl; intuition discriminate.
  - repeat constructor.
Defined.

(** ** The version pattern *)

Lemma rmatch_Cls f p s :
  rmatch f (Cls p) s
  = match s with String c t => if p c then [t] else [] | EmptyString => [] end.
Proof. destruct f; reflexivity. Qed.

Lemma rmatch_Seq f a b s :
  rmatch f (Seq a b) s = flat_map (rmatch f b) (rmatch f a s).
Proof. destruct f; reflexivity. Qed.

Lemma rmatch_Opt f a s : rmatch f (Opt a) s = rmatch f a s ++ [s].
Proof. destruct f; reflexivity. Qed.

Lemma rmatch_Star_O a s : rmatch O (Star a) s = [s].
Proof. reflexivity. Qed.

Lemma rmatch_Star_S f a s :
  rmatch (S f) (Star a) s
  = flat_map (fun s1 => if (String.length s1 <? String.length s)%nat
                        then rmatch f (Star a) s1 else [])
             (rmatch (S f) a s) ++ [s].
Proof. reflexivity. Qed.

Lemma rmatch_Plus f a s :
  rmatch f (Plus a) s = flat_map (rmatch f (Star a)) (rmatch f a s).
Proof. destruct f; reflexivity. Qed.

Lemma flat_map_one {A B} (g : A -> list B) x : flat_map g [x] = g x.
Proof. simpl. apply app_nil_r. Qed.

Lemma hd_error_app {A} (l l' : list A) :
  hd_error (l ++ l')
  = match hd_error l with Some x => Some x | None => hd_error l' end.
Proof. destruct l; reflexivity. Qed.

(** What a match leaves is no longer than the text. *)
Lemma rmatch_length f :
  forall r s s', In s' (rmatch f r s) -> (String.length s' <= String.length s)%nat.
Proof.
  induction f as [|f IHf].
  - induction r as [p|a IHa b IHb|a IHa b IHb|a IHa|a IHa|a IHa]; intros s s' Hin.
    + rewrite rmatch_Cls in Hin. destruct s as [|c t]; [destruct Hin|].
      destruct (p c); [|destruct Hin]. destruct Hin as [<-|[]]. simpl. lia.
    + rewrite rmatch_Seq in Hin. apply in_flat_map in Hin.
      destruct Hin as [s1 [H1 H2]]. apply IHa in H1. apply IHb in H2. lia.
    + change (In s' (rmatch 0 a s ++ rmatch 0 b s)) in Hin.
      apply in_app_or in Hin. destruct Hin; auto.
    + rewrite rmatch_Opt in Hin. apply in_app_or in Hin.
      destruct Hin as [H|[<-|[]]]; auto.
    + destruct Hin as [<-|[]]. lia.
    + rewrite rmatch_Plus in Hin. apply in_flat_map in Hin.
      destruct Hin as [s1 [H1 [<-|[]]]]. now apply IHa.
  - assert (Hstar : forall a,
               (forall s s', In s' (rmatch (S f) a s) ->
                             (String.length s' <= String.length s)%nat) ->
               forall s s', In s' (rmatch (S f) (Star a) s) ->
                            (String.length s' <= String.length s)%nat).
    { intros a Ha s s' Hin. rewrite rmatch_Star_S in Hin.
      apply in_app_or in Hin. destruct Hin as [Hin|[<-|[]]]; [|lia].
      apply in_flat_map in Hin. destruct Hin as [s1 [H1 H2]].
      destruct (String.length s1 <? String.length s)%nat eqn:E; [|destruct H2].
      apply Nat.ltb_lt in E. apply IHf in H2. lia. }
    induction r as [p|a IHa b IHb|a IHa b IHb|a IHa|a IHa|a IHa]; intros s s' Hin.
    + rewrite rmatch_Cls in Hin. destruct s as [|c t]; [destruct Hin|].
      destruct (p c); [|destruct Hin]. destruct Hin as [<-|[]]. simpl. lia.
    + rewrite rmatch_Seq in Hin. apply in_flat_map in Hin.
      destruct Hin as [s1 [H1 H2]]. apply IHa in H1. apply IHb in H2. lia.
    + change (In s' (rmatch (S f) a s ++ rmatch (S f) b s)) in Hin.
      apply in_app_or in Hin. destruct Hin; auto.
    + rewrite rmatch_Opt in Hin. apply in_app_or in Hin.
      destruct Hin as [H|[<-|[]]]; auto.
    + now apply (Hstar a IHa).
    + rewrite rmatch_Plus in Hin. apply in_flat_map in Hin.
      destruct Hin as [s1 [H1 H2]]. apply IHa in H1.
      apply (Hstar a IHa) in H2. lia.
Qed.

Lemma skip_digits_length s : (String.length (skip_digits s) <= String.length s)%nat.
Proof.
  induction s as [|c t IH]; simpl; [lia|]. destruct (is_digit c); simpl; lia.
Qed.

Lemma rmatch_Star_Digit f :
  forall s, (String.length s <= f)%nat -> rmatch f (Star Digit) s = digit_tails s.
Proof.
  induction f as [|f IH]; intros s Hlen.
  - destruct s; [reflexivity|simpl in Hlen; lia].
  - rewrite rmatch_Star_S. unfold Digit at 2. rewrite rmatch_Cls.
    destruct s as [|c t]; [reflexivity|]. cbn [digit_tails].
    destruct (is_digit c); [|reflexivity].
    rewrite flat_map_one.
    replace (String.length t <? String.length (String c t))%nat with true
      by (symmetry; apply Nat.ltb_lt; simpl; lia).
    rewrite IH by (simpl in Hlen; lia). reflexivity.
Qed.

Lemma rmatch_Plus_Digit f s :
  (String.length s <= f)%nat -> rmatch f (Plus Digit) s = plus_digit s.
Proof.
  intros Hlen. rewrite rmatch_Plus. unfold Digit at 2. rewrite rmatch_Cls.
  destruct s as [|c t]; [reflexivity|]. cbn [plus_digit].
  destruct (is_digit c); [|reflexivity].
  rewrite flat_map_one. apply rmatch_Star_Digit. simpl in Hlen. lia.
Qed.

Lemma hd_digit_tails s : hd_error (digit_tails s) = Some (skip_digits s).
Proof.
  induction s as [|c t IH]; [reflexivity|]. simpl.
  destruct (is_digit c); [|reflexivity].
  rewrite hd_error_app, IH. reflexivity.
Qed.

Lemma is_digit_dot c : is_digit c = true -> Ascii.eqb "." c = false.
Proof.
  intros H. apply is_digit_cases in H.
  repeat (destruct H as [->|H]; [reflexivity|]). now subst.
Qed.

Lemma dot_digit_tails f s :
  flat_map (rmatch f (Chr ".")) (digit_tails s) = rmatch f (Chr ".") (skip_digits s).
Proof.
  induction s as [|c t IH]; [apply flat_map_one|]. simpl.
  destruct (is_digit c) eqn:Ec; [|apply app_nil_r].
  rewrite flat_map_app, IH, flat_map_one.
  unfold Chr at 2. rewrite rmatch_Cls, (is_digit_dot c Ec). apply app_nil_r.
Qed.

Lemma rmatch_group f s :
  (String.length s <= f)%nat ->
  rmatch f group_re s
  = match s with
    | String c t => if is_digit c then rmatch f (Chr ".") (skip_digits t) else []
    | EmptyString => []
    end.
Proof.
  intros Hlen. unfold group_re. rewrite rmatch_Seq, rmatch_Plus_Digit by assumption.
  destruct s as [|c t]; [reflexivity|]. cbn [plus_digit].
  destruct (is_digit c); [|reflexivity]. apply dot_digit_tails.
Qed.

Lemma scan_number_rest s : scan_number s = scan_rest (skip_digits s).
Proof.
  induction s as [|c t IH]; [reflexivity|]. simpl.
  destruct (is_digit c); [exact IH|]. reflexivity.
Qed.

Lemma flat_map_agree {A B} (g h : A -> list B) l :
  (forall x, In x l -> g x = h x) -> flat_map g l = flat_map h l.
Proof.
  induction l as [|x l IH]; intros H; simpl; [reflexivity|].
  rewrite (H x (or_introl eq_refl)), IH; [reflexivity|].
  intros y Hy. apply H. now right.
Qed.

Lemma flat_map_plus_digit g l bound :
  (forall s, In s l -> (String.length s <= bound)%nat) ->
  (bound <= g)%nat ->
  flat_map (rmatch g (Plus Digit)) l = flat_map plus_digit l.
Proof.
  intros Hl Hb. apply flat_map_agree. intros s Hs.
  apply rmatch_Plus_Digit. specialize (Hl s Hs). lia.
Qed.

Lemma rmatch_number f :
  forall g s,
    (String.length s <= f)%nat -> (String.length s <= g)%nat ->
    hd_error (flat_map (rmatch g (Plus Digit)) (rmatch f (Star group_re) s))
    = scan_body s.
Proof.
  induction f as [|f IH]; intros g s Hf Hg.
  - destruct s; [|simpl in Hf; lia].
    rewrite rmatch_Star_O, flat_map_one, rmatch_Plus_Digit by assumption.
    reflexivity.
  - rewrite (flat_map_plus_digit g _ (String.length s));
      [|intros s' Hs'; now apply rmatch_length in Hs'|assumption].
    rewrite rmatch_Star_S, rmatch_group by assumption.
    destruct s as [|c t]; [reflexivity|]. cbn [scan_body].
    destruct (is_digit c) eqn:Ec.
    2:{ cbn [flat_map app plus_digit]. rewrite Ec. reflexivity. }
    rewrite scan_number_rest.
    pose proof (skip_digits_length t) as Hsk.
    unfold Chr. rewrite rmatch_Cls.
    destruct (skip_digits t) as [|c1 u] eqn:Er.
    + cbn [flat_map app plus_digit]. rewrite Ec, app_nil_r, hd_digit_tails, Er.
      reflexivity.
    + destruct (Ascii.eqb "." c1) eqn:Edot.
      * apply Ascii.eqb_eq in Edot. subst c1.
        rewrite flat_map_one.
        replace (String.length u <? String.length (String c t))%nat with true
          by (symmetry; apply Nat.ltb_lt; simpl in *; lia).
        rewrite flat_map_app, hd_error_app.
        rewrite <- (flat_map_plus_digit (S f) (rmatch f (Star group_re) u) (String.length u));
          [|intros s' Hs'; now apply rmatch_length in Hs'|simpl in *; lia].
        rewrite IH by (simpl in *; lia).
        rewrite flat_map_one. cbn [plus_digit]. rewrite Ec, hd_digit_tails, Er.
        cbn [scan_rest scan_body]. change ("."%char =? "."%char)%char with true.
        cbv iota. destruct u as [|c' t']; [reflexivity|].
        cbn [scan_body]. destruct (is_digit c'); reflexivity.
      * cbn [flat_map app plus_digit]. rewrite Ec, app_nil_r, hd_digit_tails, Er.
        cbn [scan_rest]. rewrite Ascii.eqb_sym, Edot. reflexivity.
Qed.

Lemma re_match_version s : re_match version_re s = scan_version s.
Proof.
  unfold re_match, version_re.
  fold group_re. rewrite rmatch_Seq, rmatch_Opt. unfold Chr at 1. rewrite rmatch_Cls.
  assert (HE : forall s', (String.length s' <= String.length s)%nat ->
             hd_error (rmatch (String.length s)
                         (Seq (Star group_re) (Plus Digit)) s') = scan_body s').
  { intros s' Hs'. rewrite rmatch_Seq. now apply rmatch_number. }
  destruct s as [|c t]; [reflexivity|]. cbn [scan_version].
  rewrite (Ascii.eqb_sym c "v").
  destruct (Ascii.eqb "v" c) eqn:Ev.
  - apply Ascii.eqb_eq in Ev. subst c.
    cbn [app flat_map]. rewrite hd_error_app, HE by (simpl; lia).
    destruct (scan_body t); [reflexivity|].
    rewrite hd_error_app, HE by (simpl; lia). reflexivity.
  - cbn [app flat_map]. rewrite app_nil_r. apply HE. lia.
Qed.

(** ** Version numbers, by the grammar *)

Lemma string_length_app a b :
  String.length (a ++ b)%string = (String.length a + String.length b)%nat.
Proof. induction a as [|c a IH]; simpl; [reflexivity|]. now rewrite IH. Qed.

Lemma digits_then_tail d :
  digits d ->
  forall r, number_tail r ->
    exists c q, (d ++ r)%string = String c q /\ is_digit c = true /\ number_tail q.
Proof.
  induction 1 as [c Hc|c s Hc Hs IH]; intros r Hr.
  - exists c, r. repeat split; assumption.
  - destruct (IH r Hr) as [c1 [q1 [E [Hc1 Hq1]]]].
    exists c, (String c1 q1). simpl. rewrite E.
    repeat split; [assumption|]. now constructor.
Qed.

Lemma version_number_shape v :
  version_number v ->
  exists c q, v = String c q /\ is_digit c = true /\ number_tail q.
Proof.
  induction 1 as [d Hd|d v Hd Hv IH].
  - destruct (digits_then_tail d Hd "" tail_end) as [c [q [E H]]].
    exists c, q. split; [|exact H].
    rewrite <- E. clear. induction d as [|c d IH]; simpl; [reflexivity|].
    now rewrite <- IH.
  - destruct IH as [c' [q' [-> [Hc' Hq']]]].
    apply (digits_then_tail d Hd). now constructor.
Qed.

Lemma version_number_cons c v :
  is_digit c = true -> version_number v -> version_number (String c v).
Proof.
  intros Hc Hv. destruct Hv as [d Hd|d v Hd Hv].
  - apply version_last. now constructor.
  - change (String c (d ++ "." ++ v))%string with (String c d ++ "." ++ v)%string.
    apply version_group; [now constructor|assumption].
Qed.

Lemma number_tail_version q :
  number_tail q -> forall c, is_digit c = true -> version_number (String c q).
Proof.
  induction 1 as [|c1 q Hc1 Hq IH|c1 q Hc1 Hq IH]; intros c Hc.
  - apply version_last. now constructor.
  - apply version_number_cons; auto.
  - change (String c (String "." (String c1 q)))
      with (String c "" ++ "." ++ String c1 q)%string.
    apply version_group; [now constructor|auto].
Qed.

Lemma scan_number_sound n :
  forall t, (String.length t <= n)%nat ->
    exists q, t = (q ++ scan_number t)%string /\ number_tail q.
Proof.
  induction n as [|n IH]; intros t Hlen.
  - destruct t; [|simpl in Hlen; lia]. exists "". split; [reflexivity|constructor].
  - destruct t as [|c t]; [exists ""; split; [reflexivity|constructor]|].
    simpl in Hlen. cbn [scan_number].
    destruct (is_digit c) eqn:Ec.
    + destruct (IH t ltac:(lia)) as [q [E Hq]].
      exists (String c q). split; [simpl; now rewrite <- E|now constructor].
    + destruct (Ascii.eqb c ".") eqn:Edot;
        [|exists ""; split; [reflexivity|constructor]].
      apply Ascii.eqb_eq in Edot. subst c.
      destruct t as [|c' t']; [exists ""; split; [reflexivity|constructor]|].
      destruct (is_digit c') eqn:Ec';
        [|exists ""; split; [reflexivity|constructor]].
      simpl in Hlen. destruct (IH t' ltac:(lia)) as [q [E Hq]].
      exists (String "." (String c' q)).
      split; [simpl; now rewrite <- E|now constructor].
Qed.

Lemma scan_number_length t : (String.length (scan_number t) <= String.length t)%nat.
Proof.
  destruct (scan_number_sound (String.length t) t (le_n _)) as [q [E _]].
  rewrite E at 2. rewrite string_length_app. lia.
Qed.

Lemma scan_number_longest q :
  number_tail q ->
  forall rest, (String.length (scan_number (q ++ rest)) <= String.length rest)%nat.
Proof.
  induction 1 as [|c q Hc Hq IH|c q Hc Hq IH]; intros rest.
  - apply scan_number_length.
  - simpl. rewrite Hc. apply IH.
  - simpl. rewrite Hc. apply IH.
Qed.

Lemma scan_body_spec c t :
  is_digit c = true ->
  exists q,
    t = (q ++ scan_number t)%string /\ version_number (String c q)
    /\ forall q' rest', t = (q' ++ rest')%string -> number_tail q' ->
                        (String.length q' <= String.length q)%nat.
Proof.
  intros Hc.
  destruct (scan_number_sound (String.length t) t (le_n _)) as [q [E Hq]].
  exists q. split; [exact E|]. split; [now apply number_tail_version|].
  intros q' rest' E' Hq'.
  pose proof (scan_number_longest q' Hq' rest') as Hl. rewrite <- E' in Hl.
  assert (H1 : String.length t = (String.length q + String.length (scan_number t))%nat)
    by (rewrite E at 1; apply string_length_app).
  assert (H2 : String.length t = (String.length q' + String.length rest')%nat)
    by (rewrite E' at 1; apply string_length_app).
  lia.
Qed.

Lemma is_digit_v : is_digit "v" = false.
Proof. reflexivity. Qed.

(** The expression removes the longest version prefix. *)
Lemma re_sub_prefix_version raw :
  without_version raw (re_sub_prefix version_re raw).
Proof.
  unfold re_sub_prefix. rewrite re_match_version.
  assert (Hplain : forall c t p' rest',
             String c t = (p' ++ rest')%string -> version_prefix p' ->
             (exists q', p' = String c q' /\ is_digit c = true
                         /\ t = (q' ++ rest')%string /\ number_tail q')
             \/ (c = "v"%char
                 /\ exists c1 t1 q', t = String c1 t1 /\ is_digit c1 = true
                      /\ p' = String "v" (String c1 q')
                      /\ t1 = (q' ++ rest')%string /\ number_tail q')).
  { intros c t p' rest' E Hp. destruct Hp as [v Hv|v Hv];
      apply version_number_shape in Hv; destruct Hv as [c' [q' [-> [Hc' Hq']]]];
      simpl in E.
    - injection E as -> ->. left. exists q'. auto.
    - injection E as -> ->. right. split; [reflexivity|].
      exists c', (q' ++ rest')%string, q'. auto. }
  destruct raw as [|c t].
  { right. split; [reflexivity|]. intros p' rest' E Hp.
    destruct Hp as [v Hv|v Hv]; [|discriminate E].
    apply version_number_shape in Hv. destruct Hv as [c' [q' [-> _]]].
    discriminate E. }
  cbn [scan_version]. destruct (Ascii.eqb c "v") eqn:Ev.
  - apply Ascii.eqb_eq in Ev. subst c.
    destruct t as [|c1 t1]; cbn [scan_body].
    + right. split; [reflexivity|]. intros p' rest' E Hp.
      destruct (Hplain _ _ _ _ E Hp) as [[q' [_ [Hd _]]]|[_ [c1 [t1 [q' [Ht _]]]]]];
        discriminate.
    + destruct (is_digit c1) eqn:Ec1.
      * left. destruct (scan_body_spec c1 t1 Ec1) as [q [E [Hv Hmax]]].
        exists (String "v" (String c1 q)). split; [simpl; now rewrite <- E|].
        split; [now constructor|].
        intros p' rest' E' Hp.
        destruct (Hplain _ _ _ _ E' Hp)
          as [[q' [_ [Hd _]]]|[_ [c1' [t1' [q' [Ht [_ [-> [Ht1 Hq']]]]]]]]];
          [discriminate|].
        injection Ht as <- <-. simpl. specialize (Hmax q' rest' Ht1 Hq'). lia.
      * right. split; [reflexivity|]. intros p' rest' E Hp.
        destruct (Hplain _ _ _ _ E Hp)
          as [[q' [_ [Hd _]]]|[_ [c1' [t1' [q' [Ht [Hd _]]]]]]];
          [discriminate|].
        injection Ht as <- <-. congruence.
  - cbn [scan_body]. destruct (is_digit c) eqn:Ec.
    + left. destruct (scan_body_spec c t Ec) as [q [E [Hv Hmax]]].
      exists (String c q). split; [simpl; now rewrite <- E|].
      split; [now constructor|].
      intros p' rest' E' Hp.
      destruct (Hplain _ _ _ _ E' Hp) as [[q' [-> [_ [Ht Hq']]]]|[-> _]];
        [|discriminate].
      simpl. specialize (Hmax q' rest' Ht Hq'). lia.
    + right. split; [reflexivity|]. intros p' rest' E Hp.
      destruct (Hplain _ _ _ _ E Hp) as [[q' [_ [Hd _]]]|[-> _]];
        [congruence|discriminate].
Qed.

(** ** Trimming *)

Lemma lstrip_spec p s :
  exists l, s = (l ++ lstrip p s)%string /\ all_chars p l = true
            /\ forall c, first_char (lstrip p s) = Some c -> p c = false.
Proof.
  induction s as [|c t [l [E [Hl Hf]]]].
  - exists "". repeat split. discriminate.
  - simpl. destruct (p c) eqn:Ec.
    + exists (String c l). simpl. rewrite <- E, Ec, Hl. auto.
    + exists "". repeat split. simpl. congruence.
Qed.

Lemma rstrip_spec p s :
  exists r, s = (rstrip p s ++ r)%string /\ all_chars p r = true
            /\ forall c, last_char (rstrip p s) = Some c -> p c = false.
Proof.
  induction s as [|c t [r [E [Hr Hl]]]].
  - exists "". repeat split. discriminate.
  - simpl. destruct (rstrip p t) as [|c' t'] eqn:Et.
    + simpl in E. subst t. destruct (p c) eqn:Ec.
      * exists (String c r). simpl. rewrite Ec, Hr. repeat split. discriminate.
      * exists r. repeat split; [assumption|]. simpl. congruence.
    + exists r. simpl. rewrite E at 1. repeat split; assumption.
Qed.

Lemma rstrip_first p s c :
  first_char (rstrip p s) = Some c -> first_char s = Some c.
Proof.
  destruct s as [|c0 t]; simpl; [discriminate|].
  destruct (rstrip p t); [destruct (p c0)|]; simpl; congruence.
Qed.

Lemma strip_with_trimmed p s : trimmed p s (strip_with p s).
Proof.
  unfold trimmed, strip_with.
  destruct (lstrip_spec p s) as [l [El [Hl Hf]]].
  destruct (rstrip_spec p (lstrip p s)) as [r [Er [Hr Hlast]]].
  split; [|split].
  - exists l, r. rewrite <- Er. auto.
  - intros c Hc. apply Hf. eapply rstrip_first; eauto.
  - exact Hlast.
Qed.

(** ** Names of releases *)

Lemma extract_model_info_from_github_name rel company_ info :
  extract_model_info_from_github rel company_ = Some info ->
  exists raw,
    release_label rel = Some raw
    /\ model_name info
       = (if truthy (strip (strip_dash (re_sub_prefix version_re raw)))
          then strip (strip_dash (re_sub_prefix version_re raw))
          else placeholder company_ rel).
Proof.
  unfold extract_model_info_from_github, release_label, placeholder.
  destruct (published_at rel) as [dt|]; [|discriminate].
  destruct (tag_name rel) as [| |tag]; cbn [jget];
    [destruct (name rel) as [| |n]; cbn [jget]| |];
    try discriminate;
    (destruct (jget (body rel) (Str "")); try discriminate;
     intros [= <-]; eexists; split; reflexivity).
Qed.

(** C7, as the code has it. A release that gives a record has a label: its
    tag, else its name, else [Unknown]. When the label is ASCII text, the
    model name is the label with the longest leading version prefix
    removed (an optional [v], then groups [<digits>.], none or more, then
    digits), then dashes trimmed at both ends, then blanks trimmed at both
    ends; when nothing is left it is the placeholder made of the company
    and the tag. A release with tag [v2.1-turbo] is named [turbo]. *)
Theorem github_model_name :
  (forall rel company_ info,
      extract_model_info_from_github rel company_ = Some info ->
      exists raw, release_label rel = Some raw)
  /\ (forall rel company_ info raw,
         release_label rel = Some raw ->
         ascii_text raw = true ->
         extract_model_info_from_github rel company_ = Some info ->
         exists rest dashless cleaned,
           without_version raw rest
           /\ trimmed is_dash rest dashless
           /\ trimmed is_space dashless cleaned
           /\ ((cleaned <> "" /\ model_name info = cleaned)
               \/ (cleaned = "" /\ model_name info = placeholder company_ rel)))
  /\ (forall rel company_,
         published_at rel <> None -> tag_name rel = Str "v2.1-turbo" ->
         body rel <> Null ->
         exists info,
           extract_model_info_from_github rel company_ = Some info
           /\ model_name info = "turbo").
Proof.
  split; [|split].
  - intros rel company_ info H.
    apply extract_model_info_from_github_name in H. destruct H as [raw [Hl _]].
    now exists raw.
  - intros rel company_ info raw Hraw _ H.
    apply extract_model_info_from_github_name in H. destruct H as [raw' [Hl Hm]].
    rewrite Hraw in Hl. injection Hl as <-.
    exists (re_sub_prefix version_re raw),
      (strip_dash (re_sub_prefix version_re raw)),
      (strip (strip_dash (re_sub_prefix version_re raw))).
    split; [apply re_sub_prefix_version|].
    split; [apply strip_with_trimmed|]. split; [apply strip_with_trimmed|].
    destruct (strip (strip_dash (re_sub_prefix version_re raw))) eqn:E;
      cbn [truthy] in Hm; [right|left]; split; auto; discriminate.
  - intros rel company_ Hp Ht Hb.
    unfold extract_model_info_from_github. rewrite Ht.
    destruct (published_at rel) as [dt|]; [|congruence].
    cbn [jget].
    replace (strip (strip_dash (re_sub_prefix version_re "v2.1-turbo")))
      with "turbo" by (vm_compute; reflexivity).
    cbn [truthy].
    destruct (body rel); [| congruence |]; cbn [jget]; eexists; split; reflexivity.
Qed.

(** Scenario A: the release tagged [v2.1-turbo], a label of ASCII text, is
    named [turbo], the version prefix [v2.1] and the dash removed. *)
Lemma github_model_name_witness :
  extract_model_info_from_github scenario_A_release "OpenAI" = Some scenario_A_record
  /\ exists rest dashless cleaned,
       without_version "v2.1-turbo" rest
       /\ trimmed is_dash rest dashless
       /\ trimmed is_space dashless cleaned
       /\ ((cleaned <> "" /\ model_name scenario_A_record = cleaned)
           \/ (cleaned = ""
               /\ model_name scenario_A_record = placeholder "OpenAI" scenario_A_release)).
Proof.
  split; [vm_compute; reflexivity|].
  apply (proj1 (proj2 github_model_name) scenario_A_release "OpenAI"
           scenario_A_record "v2.1-turbo").
  - reflexivity.
  - reflexivity.
  - vm_compute. reflexivity.
Defined.

(** C7, as stated, fails: with one group [<digits>.] or more in the
    pattern, the tags [4o] and [v2-turbo] would keep their digits; the
    expression of the code takes the digits without any group and gives [o]
    and [turbo]. *)
Lemma github_model_name_worded_differs :
  extract_model_info_from_github
    (Release (Some day0) (Str "4o") Missing (Str "") (Str "")) "OpenAI"
  = Some (Update "OpenAI" "o" "2025-06-01" "" "GitHub" "")
  /\ worded_model_name "4o" = "4o"
  /\ extract_model_info_from_github
       (Release (Some day0) (Str "v2-turbo") Missing (Str "") (Str "")) "OpenAI"
     = Some (Update "OpenAI" "turbo" "2025-06-01" "" "GitHub" "")
  /\ worded_model_name "v2-turbo" = "v2-turbo".
Proof. repeat split; vm_compute; reflexivity. Qed.

(* ================================================================== *)
(** * Part IV. Further properties of the code                          *)
(* ================================================================== *)

(** ** What a run does to the data file *)

(** X3. A run that ends without error and accepted nothing leaves the data
    file as it was; one that accepted records leaves a file that holds the
    records loaded and the records accepted, each once more than before and
    none changed. *)
Theorem run_appends today w st st' new_updates :
  fetch_all_updates today w st = (st', Ok new_updates) ->
  exists existing,
    load_existing_data st = Ok existing
    /\ new_updates = collect_updates today w existing
    /\ ((new_updates = [] /\ st' = st)
        \/ (new_updates <> []
            /\ exists written,
                 st' = StoreRecords written
                 /\ Permutation (existing ++ new_updates) written)).
Proof.
  intros H. unfold fetch_all_updates in H.
  destruct (load_existing_data st) as [existing|e] eqn:El; [|discriminate].
  exists existing. split; [reflexivity|].
  destruct (collect_updates today w existing) as [|u rest] eqn:Ec.
  - injection H as <- <-. auto.
  - destruct (save_data_cases (existing ++ u :: rest) st)
      as [[e He]|[wr [Hw Hp]]].
    + rewrite He in H. discriminate.
    + rewrite Hw in H. injection H as <- <-.
      split; [reflexivity|]. right. split; [discriminate|]. eauto.
Qed.

(** The run of scenario A on the file of scenario B: the file left holds the
    record of the file and the record of the release. *)
Lemma run_appends_witness :
  exists existing,
    load_existing_data (StoreRecords scenario_B_store) = Ok existing
    /\ [scenario_A_record] = collect_updates day0 scenario_A_world existing
    /\ (([scenario_A_record] = [] /\
         StoreRecords (scenario_A_record :: scenario_B_store)
         = StoreRecords scenario_B_store)
        \/ ([scenario_A_record] <> []
            /\ exists written,
                 StoreRecords (scenario_A_record :: scenario_B_store)
                 = StoreRecords written
                 /\ Permutation (existing ++ [scenario_A_record]) written)).
Proof.
  apply (run_appends day0 scenario_A_world (StoreRecords scenario_B_store)).
  vm_compute. reflexivity.
Defined.

(** X5. When every date of the data file parses, the sort of [save_data]
    does not raise on the list the run saves, the records loaded followed
    by the records accepted; and the file a run that ends without error
    leaves has dates that parse only: runs can follow one another. *)
Theorem run_keeps_dates_parsing today w st existing :
  load_existing_data st = Ok existing ->
  Forall (fun r => parses (update_date r)) existing ->
  (exists ks, sort_keys (existing ++ collect_updates today w existing) = Ok ks)
  /\ (forall st' new_updates,
         fetch_all_updates today w st = (st', Ok new_updates) ->
         exists existing',
           load_existing_data st' = Ok existing'
           /\ Forall (fun r => parses (update_date r)) existing').
Proof.
  intros Hl Hp.
  assert (Hall : Forall (fun r => parses (update_date r))
                   (existing ++ collect_updates today w existing)).
  { apply Forall_app. split; [assumption|]. apply collect_updates_parse. }
  destruct (sort_keys_total _ Hall) as [ks Hk].
  split; [now exists ks|].
  intros st' new_updates H. unfold fetch_all_updates in H. rewrite Hl in H.
  destruct (collect_updates today w existing) as [|u rest] eqn:Ec.
  - injection H as <- <-. now exists existing.
  - unfold save_data in H. rewrite Hk in H. injection H as <- <-.
    exists (map snd (sort_desc ks)). split; [reflexivity|].
    apply sort_keys_Ok in Hk. destruct Hk as [Hm _].
    rewrite Forall_forall in *. intros r Hr. apply Hall.
    rewrite <- Hm. eapply Permutation_in; [|exact Hr].
    apply Permutation_map, sort_desc_perm.
Qed.

(** The run of scenario A on a file with one record dated May. *)
Lemma run_keeps_dates_parsing_witness :
  (exists ks,
      sort_keys (scenario_B_store
                 ++ collect_updates day0 scenario_A_world scenario_B_store) = Ok ks)
  /\ exists existing',
       load_existing_data (StoreRecords (scenario_A_record :: scenario_B_store))
       = Ok existing'
       /\ Forall (fun r => parses (update_date r)) existing'.
Proof.
  destruct (run_keeps_dates_parsing day0 scenario_A_world
              (StoreRecords scenario_B_store) scenario_B_store) as [H1 H2].
  - reflexivity.
  - repeat constructor. exists (Date 2025 5 1). vm_compute. reflexivity.
  - split; [exact H1|].
    apply (H2 (StoreRecords (scenario_A_record :: scenario_B_store))
              [scenario_A_record]).
    vm_compute. reflexivity.
Defined.

(** ** The sort of [save_data], further *)

Lemma date_leb_refl a : date_leb a a = true.
Proof.
  unfold date_leb, date_compare. now rewrite !Z.compare_refl.
Qed.

Lemma date_eqb_refl a : date_eqb a a = true.
Proof. now apply date_eqb_eq. Qed.

Lemma sort_desc_sorted_id l : Sorted key_desc l -> sort_desc l = l.
Proof.
  induction 1 as [|a rest Hs IH Hh]; [reflexivity|].
  simpl. rewrite IH. destruct Hh as [|b r Hab]; [reflexivity|].
  simpl. unfold key_desc in Hab. now rewrite Hab.
Qed.

Lemma sort_keys_map l :
  Forall (fun kx => strptime_ymd (update_date (snd kx)) = Ok (fst kx)) l ->
  sort_keys (map snd l) = Ok l.
Proof.
  induction 1 as [|[k x] rest Hx Hrest IH]; [reflexivity|].
  simpl in *. now rewrite Hx, IH.
Qed.

(** X6. Saving again what [save_data] wrote changes nothing: the records
    are written in the same order. *)
Theorem save_data_again data st st' written :
  save_data data st = (StoreRecords written, Ok tt) ->
  save_data written st' = (StoreRecords written, Ok tt).
Proof.
  unfold save_data. intros H.
  destruct (sort_keys data) as [ks|e] eqn:Ek; [|discriminate].
  injection H as <-.
  apply sort_keys_Ok in Ek. destruct Ek as [_ Hf].
  rewrite sort_keys_map.
  - now rewrite (sort_desc_sorted_id _ (sort_desc_sorted ks)).
  - rewrite Forall_forall in *. intros kx Hin. apply Hf.
    eapply Permutation_in; [apply sort_desc_perm|exact Hin].
Qed.

Lemma save_data_again_witness :
  save_data
    [ Update "Google" "Gemini 3" "2025-06-01" "" "GitHub" "https://b";
      Update "Meta" "Llama 4" "2025-05-01" "" "GitHub" "https://a";
      Update "xAI" "Grok 5" "2024-12-31" "" "Hugging Face" "https://c" ]
    (StoreRecords unsorted_data)
  = (StoreRecords
       [ Update "Google" "Gemini 3" "2025-06-01" "" "GitHub" "https://b";
         Update "Meta" "Llama 4" "2025-05-01" "" "GitHub" "https://a";
         Update "xAI" "Grok 5" "2024-12-31" "" "Hugging Face" "https://c" ],
     Ok tt).
Proof.
  apply (save_data_again unsorted_data StoreAbsent (StoreRecords unsorted_data)).
  vm_compute. reflexivity.
Defined.

Lemma insert_desc_filter d kx l :
  filter (fun ky => date_eqb (fst ky) d) (insert_desc kx l)
  = filter (fun ky => date_eqb (fst ky) d) (kx :: l).
Proof.
  induction l as [|ky rest IH]; [reflexivity|].
  cbn [insert_desc]. destruct (date_leb (fst ky) (fst kx)) eqn:El; [reflexivity|].
  cbn [filter] in *. rewrite IH.
  destruct (date_eqb (fst ky) d) eqn:Ey; [|reflexivity].
  destruct (date_eqb (fst kx) d) eqn:Ex; [|reflexivity].
  apply date_eqb_eq in Ey, Ex. rewrite Ey, Ex, date_leb_refl in El. discriminate.
Qed.

Lemma sort_desc_filter d l :
  filter (fun ky => date_eqb (fst ky) d) (sort_desc l)
  = filter (fun ky => date_eqb (fst ky) d) l.
Proof.
  induction l as [|kx rest IH]; [reflexivity|].
  cbn [sort_desc]. rewrite insert_desc_filter. cbn [filter]. now rewrite IH.
Qed.

Lemma filter_dated_on d l :
  Forall (fun kx => strptime_ymd (update_date (snd kx)) = Ok (fst kx)) l ->
  filter (dated_on d) (map snd l)
  = map snd (filter (fun ky => date_eqb (fst ky) d) l).
Proof.
  induction 1 as [|[k x] rest Hx Hrest IH]; [reflexivity|].
  cbn [map filter fst snd] in *. unfold dated_on at 1. rewrite Hx, IH.
  destruct (date_eqb k d); reflexivity.
Qed.

(** X7. The sort of [save_data] is stable: the records of one date are
    written in the order they had in the list saved. Records loaded come
    before records accepted, and these in the order of acceptance. *)
Theorem save_data_stable data st written :
  save_data data st = (StoreRecords written, Ok tt) ->
  forall d, filter (dated_on d) written = filter (dated_on d) data.
Proof.
  unfold save_data. intros H d.
  destruct (sort_keys data) as [ks|e] eqn:Ek; [|discriminate].
  injection H as <-.
  apply sort_keys_Ok in Ek. destruct Ek as [Hm Hf].
  rewrite <- Hm. rewrite !filter_dated_on; [|assumption|].
  - now rewrite sort_desc_filter.
  - rewrite Forall_forall in *. intros kx Hin. apply Hf.
    eapply Permutation_in; [apply sort_desc_perm|exact Hin].
Qed.

(** Two records of the first of May around one of June: after the save they
    follow the record of June, Llama before Grok as in the list. *)
Lemma save_data_stable_witness :
  save_data same_day_data StoreAbsent
  = (StoreRecords
       [ Update "Google" "Gemini 3" "2025-06-01" "" "GitHub" "https://b";
         Update "Meta" "Llama 4" "2025-05-01" "" "GitHub" "https://a";
         Update "xAI" "Grok 5" "2025-05-01" "" "Hugging Face" "https://c" ],
     Ok tt)
  /\ (forall d,
         filter (dated_on d)
           [ Update "Google" "Gemini 3" "2025-06-01" "" "GitHub" "https://b";
             Update "Meta" "Llama 4" "2025-05-01" "" "GitHub" "https://a";
             Update "xAI" "Grok 5" "2025-05-01" "" "Hugging Face" "https://c" ]
         = filter (dated_on d) same_day_data).
Proof.
  split; [vm_compute; reflexivity|].
  apply (save_data_stable same_day_data StoreAbsent).
  vm_compute. reflexivity.
Defined.

(** ** Sources that fail *)

Lemma fetch_github_releases_not_200 w repo_url code body_ :
  session_get w repo_url = Response code body_ -> code <> 200 ->
  fetch_github_releases w repo_url = [].
Proof.
  intros H Hne. unfold fetch_github_releases. rewrite H.
  destruct body_ as [releases|].
  - destruct code as [|p|p]; try reflexivity.
    do 8 (destruct p as [p|p|]; try reflexivity).
    contradiction Hne. reflexivity.
  - destruct code as [|p|p]; try reflexivity.
    do 8 (destruct p as [p|p|]; try reflexivity).
Qed.

Lemma all_sources_fail_collect today w existing :
  all_sources_fail w -> collect_updates today w existing = [].
Proof.
  intros [Hrss [Hgh Hhf]].
  assert (Hr : forall patterns updates,
             rss_companies today w patterns updates = updates).
  { induction patterns as [|[c i] rest IH]; intros updates; [reflexivity|].
    simpl. rewrite IH. generalize (official_sites i).
    intros sites. revert updates.
    induction sites as [|u sites IHs]; intros updates; [reflexivity|].
    simpl. rewrite Hrss. apply IHs. }
  assert (Hf : forall u, fetch_github_releases w u = []).
  { intros u. destruct (Hgh u) as [H|[code [b [H Hne]]]].
    - unfold fetch_github_releases. now rewrite H.
    - eapply fetch_github_releases_not_200; eauto. }
  assert (Hg : forall patterns n,
             github_companies today w existing patterns n = n).
  { induction patterns as [|[c i] rest IH]; intros n; [reflexivity|].
    simpl. rewrite IH. generalize (api_endpoints i).
    intros eps. revert n.
    induction eps as [|u eps IHe]; intros n; [reflexivity|].
    simpl. rewrite Hf. apply IHe. }
  assert (Hm : forall kws, fetch_huggingface_models w kws = []).
  { induction kws as [|k kws IH]; [reflexivity|]. simpl. now rewrite Hhf. }
  assert (Hh : forall patterns n,
             hf_companies today w existing patterns n = n).
  { induction patterns as [|[c i] rest IH]; intros n; [reflexivity|].
    simpl. rewrite Hm. apply IH. }
  unfold collect_updates, fetch_official_rss_updates.
  rewrite Hr, Hh, Hg. reflexivity.
Qed.

(** X8. Failing sources do not fail the run: when no feed is parsed, no
    request is answered with status 200 and no search returns, the run ends
    without error, accepts nothing and leaves the data file as it was. *)
Theorem run_with_failing_sources today w st existing :
  all_sources_fail w ->
  load_existing_data st = Ok existing ->
  fetch_all_updates today w st = (st, Ok []).
Proof.
  intros Hw Hl. unfold fetch_all_updates.
  now rewrite Hl, (all_sources_fail_collect today w existing Hw).
Qed.

(** Every request answered 404, on a file of one record. *)
Lemma run_with_failing_sources_witness :
  fetch_all_updates day0 not_found_world (StoreRecords scenario_B_store)
  = (StoreRecords scenario_B_store, Ok []).
Proof.
  apply (run_with_failing_sources day0 not_found_world
           (StoreRecords scenario_B_store) scenario_B_store).
  - split; [reflexivity|]. split; [|reflexivity].
    intros u. right. exists 404, None. split; [reflexivity|discriminate].
  - reflexivity.
Defined.

(** ** The stages as passes over candidates *)

Lemma accept_all_app today existing c1 c2 :
  forall new_updates,
    accept_all today existing (c1 ++ c2) new_updates
    = accept_all today existing c2 (accept_all today existing c1 new_updates).
Proof.
  induction c1 as [|c rest IH]; intros n; simpl; [reflexivity|].
  destruct (accepts today existing n c); apply IH.
Qed.

Lemma github_releases_accept_all today existing company_ releases :
  forall new_updates,
    github_releases today existing company_ releases new_updates
    = accept_all today existing
        (map (fun rel => extract_model_info_from_github rel company_) releases)
        new_updates.
Proof.
  induction releases as [|rel rest IH]; intros n; simpl; [reflexivity|].
  destruct (accepts today existing n _); apply IH.
Qed.

Lemma github_endpoints_accept_all today w existing company_ endpoints :
  forall new_updates,
    github_endpoints today w existing company_ endpoints new_updates
    = accept_all today existing
        (flat_map (fun api_endpoint =>
                     map (fun rel => extract_model_info_from_github rel company_)
                         (fetch_github_releases w api_endpoint)) endpoints)
        new_updates.
Proof.
  induction endpoints as [|e rest IH]; intros n; simpl; [reflexivity|].
  now rewrite accept_all_app, IH, github_releases_accept_all.
Qed.

Lemma merge_rss_accept_all today existing rss_updates :
  Forall (fun r => is_today_update today (update_date r) = true) rss_updates ->
  forall new_updates,
    merge_rss existing rss_updates new_updates
    = accept_all today existing (map Some rss_updates) new_updates.
Proof.
  induction 1 as [|u rest Hu Hrest IH]; intros n; simpl; [reflexivity|].
  rewrite Hu. simpl.
  destruct (is_duplicate u (existing ++ n)); simpl; apply IH.
Qed.

Lemma accept_all_added today existing candidates :
  forall new_updates,
    exists added,
      accept_all today existing candidates new_updates = new_updates ++ added
      /\ (List.length added <= List.length candidates)%nat
      /\ Forall (fun u => In (Some u) candidates
                          /\ is_today_update today (update_date u) = true) added.
Proof.
  induction candidates as [|c rest IH]; intros n; simpl.
  - exists []. rewrite app_nil_r. split; [reflexivity|].
    split; [simpl; lia|constructor].
  - destruct (accepts today existing n c) as [info|] eqn:Ea.
    + apply accepts_Some in Ea. destruct Ea as [-> [Hd _]].
      destruct (IH (n ++ [info])) as [added [E [Hlen Hall]]].
      exists (info :: added). rewrite E, <- app_assoc.
      split; [reflexivity|]. split; [simpl; lia|].
      constructor; [split; [now left|assumption]|].
      eapply Forall_impl; [|exact Hall]. intros u [H1 H2]. split; [now right|assumption].
    + destruct (IH n) as [added [E [Hlen Hall]]].
      exists added. split; [assumption|]. split; [lia|].
      eapply Forall_impl; [|exact Hall]. intros u [H1 H2]. split; [now right|assumption].
Qed.

Lemma fetch_github_releases_In w repo_url rel :
  In rel (fetch_github_releases w repo_url) ->
  exists releases,
    session_get w repo_url = Response 200 (Some releases)
    /\ In rel (firstn 5 releases).
Proof.
  intros H. destruct (session_get w repo_url) as [|code b] eqn:Es.
  - unfold fetch_github_releases in H. rewrite Es in H. destruct H.
  - destruct (Z.eq_dec code 200) as [->|Hne].
    + unfold fetch_github_releases in H. rewrite Es in H.
      destruct b as [releases|]; [|destruct H]. eauto.
    + rewrite (fetch_github_releases_not_200 w repo_url code b Es Hne) in H.
      destruct H.
Qed.

Lemma fetch_github_releases_length w repo_url :
  (List.length (fetch_github_releases w repo_url) <= 5)%nat.
Proof.
  destruct (session_get w repo_url) as [|code b] eqn:Es.
  - unfold fetch_github_releases. rewrite Es. simpl. lia.
  - destruct (Z.eq_dec code 200) as [->|Hne].
    + unfold fetch_github_releases. rewrite Es.
      destruct b as [releases|]; [|simpl; lia].
      rewrite length_firstn. lia.
    + rewrite (fetch_github_releases_not_200 w repo_url code b Es Hne). simpl. lia.
Qed.

Lemma fetch_huggingface_models_In w kws m :
  In m (fetch_huggingface_models w kws) <->
  exists keyword models,
    In keyword kws /\ hf_list_models w keyword = Some models /\ In m models.
Proof.
  induction kws as [|k kws IH]; simpl.
  - split; [intros []|intros [k [ms [[] _]]]].
  - destruct (hf_list_models w k) as [ms|] eqn:Ek.
    + rewrite in_app_iff, IH. split.
      * intros [H|[k' [ms' [Hk [Hs Hm]]]]].
        -- exists k, ms. auto.
        -- exists k', ms'. auto.
      * intros [k' [ms' [[<-|Hk] [Hs Hm]]]].
        -- left. congruence.
        -- right. exists k', ms'. auto.
    + rewrite IH. split.
      * intros [k' [ms' [Hk [Hs Hm]]]]. exists k', ms'. auto.
      * intros [k' [ms' [[<-|Hk] [Hs Hm]]]]; [congruence|].
        exists k', ms'. auto.
Qed.

Lemma github_companies_accept_all today w existing patterns :
  forall new_updates,
    github_companies today w existing patterns new_updates
    = accept_all today existing (github_candidates w patterns) new_updates.
Proof.
  induction patterns as [|[c i] rest IH]; intros n; simpl; [reflexivity|].
  now rewrite accept_all_app, IH, github_endpoints_accept_all.
Qed.

Lemma github_candidates_In w patterns u :
  In (Some u) (github_candidates w patterns) ->
  exists company_ info api_endpoint releases rel,
    In (company_, info) patterns
    /\ In api_endpoint (api_endpoints info)
    /\ session_get w api_endpoint = Response 200 (Some releases)
    /\ In rel (firstn 5 releases)
    /\ extract_model_info_from_github rel company_ = Some u.
Proof.
  unfold github_candidates. intros H.
  apply in_flat_map in H. destruct H as [[c i] [Hci H]].
  apply in_flat_map in H. destruct H as [ep [Hep H]].
  apply in_map_iff in H. destruct H as [rel [Hx Hrel]].
  apply fetch_github_releases_In in Hrel. destruct Hrel as [releases [Hs Hin]].
  exists c, i, ep, releases, rel. auto.
Qed.

Lemma github_candidates_length w patterns :
  (List.length (github_candidates w patterns)
   <= 5 * List.length (flat_map (fun ci => api_endpoints (snd ci)) patterns))%nat.
Proof.
  unfold github_candidates.
  induction patterns as [|[c i] rest IH]; simpl; [lia|].
  rewrite !length_app.
  assert (H : forall eps,
             (List.length
                (flat_map (fun api_endpoint =>
                   map (fun rel => extract_model_info_from_github rel c)
                       (fetch_github_releases w api_endpoint)) eps)
              <= 5 * List.length eps)%nat).
  { induction eps as [|e eps IHe]; simpl; [lia|].
    rewrite length_app, length_map.
    pose proof (fetch_github_releases_length w e). lia. }
  specialize (H (api_endpoints i)). lia.
Qed.

Lemma rss_entries_added today company_ info entries :
  forall updates,
    exists added,
      rss_entries today company_ info entries updates = updates ++ added
      /\ (List.length added <= List.length entries)%nat.
Proof.
  induction entries as [|entry rest IH]; intros updates.
  - exists []. rewrite app_nil_r. split; [reflexivity|simpl; lia].
  - assert (Hstop : exists added,
               updates = updates ++ added
               /\ (List.length added <= List.length (entry :: rest))%nat).
    { exists []. rewrite app_nil_r. split; [reflexivity|simpl; lia]. }
    assert (Hskip : exists added,
               rss_entries today company_ info rest updates = updates ++ added
               /\ (List.length added <= List.length (entry :: rest))%nat).
    { destruct (IH updates) as [added [E Hl]]. exists added.
      split; [assumption|simpl; lia]. }
    cbn [rss_entries].
    destruct (entry_title entry) as [title|]; [|exact Hstop].
    destruct (keyword_hit _ _ _); [|exact Hskip].
    destruct (release_hit _); [|exact Hskip].
    destruct (is_today_update today _); [|exact Hskip].
    destruct (entry_link entry) as [l|]; [|exact Hstop].
    match goal with
    | |- context [rss_entries _ _ _ rest (updates ++ [?u])] =>
        destruct (IH (updates ++ [u])) as [added [E Hl]];
        exists (u :: added)
    end.
    rewrite E, <- app_assoc. split; [reflexivity|simpl; lia].
Qed.

Lemma rss_companies_added today w patterns :
  forall updates,
    exists added,
      rss_companies today w patterns updates = updates ++ added
      /\ (List.length added
          <= 5 * List.length (flat_map (fun ci => official_sites (snd ci)) patterns))%nat.
Proof.
  induction patterns as [|[c i] rest IH]; intros updates.
  - exists []. rewrite app_nil_r. split; [reflexivity|simpl; lia].
  - simpl.
    assert (Hs : forall sites upd,
               exists added,
                 rss_sites today w c i sites upd = upd ++ added
                 /\ (List.length added <= 5 * List.length sites)%nat).
    { induction sites as [|u sites IHs]; intros upd.
      - exists []. rewrite app_nil_r. split; [reflexivity|simpl; lia].
      - cbn [rss_sites]. destruct (feedparser_parse w u) as [entries|].
        + destruct (rss_entries_added today c i (firstn 5 entries) upd)
            as [a1 [E1 L1]].
          rewrite E1. destruct (IHs (upd ++ a1)) as [a2 [E2 L2]].
          exists (a1 ++ a2). rewrite E2, <- app_assoc.
          split; [reflexivity|]. rewrite length_app.
          rewrite length_firstn in L1. cbn [List.length]. lia.
        + destruct (IHs upd) as [a2 [E2 L2]]. exists a2.
          split; [assumption|cbn [List.length]; lia]. }
    destruct (Hs (official_sites i) updates) as [a1 [E1 L1]]. rewrite E1.
    destruct (IH (updates ++ a1)) as [a2 [E2 L2]].
    exists (a1 ++ a2). rewrite E2, <- app_assoc.
    split; [reflexivity|]. rewrite !length_app. lia.
Qed.

Lemma hf_models_from today existing company_ models :
  forall today_count new_updates,
    exists added,
      hf_models today existing company_ models today_count new_updates
      = new_updates ++ added
      /\ Forall (fun u => exists m,
                     In m models
                     /\ extract_model_info_from_hf today m company_ = Some u) added.
Proof.
  induction models as [|m rest IH]; intros today_count new_updates.
  - exists []. rewrite app_nil_r. split; [reflexivity|constructor].
  - cbn [hf_models]. destruct (today_count >=? 2).
    + exists []. rewrite app_nil_r. split; [reflexivity|constructor].
    + destruct (accepts today existing new_updates
                  (extract_model_info_from_hf today m company_)) as [info|] eqn:Ea.
      * apply accepts_Some in Ea. destruct Ea as [Hx _].
        destruct (IH (today_count + 1) (new_updates ++ [info])) as [added [E Hall]].
        exists (info :: added). rewrite E, <- app_assoc. split; [reflexivity|].
        constructor; [exists m; split; [now left|assumption]|].
        eapply Forall_impl; [|exact Hall].
        intros u [m' [Hm' Hu]]. exists m'. split; [now right|assumption].
      * destruct (IH today_count new_updates) as [added [E Hall]].
        exists added. split; [assumption|].
        eapply Forall_impl; [|exact Hall].
        intros u [m' [Hm' Hu]]. exists m'. split; [now right|assumption].
Qed.

Lemma hf_companies_added today w existing patterns :
  forall new_updates,
    exists added,
      hf_companies today w existing patterns new_updates = new_updates ++ added
      /\ (List.length added <= 2 * List.length patterns)%nat
      /\ Forall (fun u => exists company_ info keyword models m,
                     In (company_, info) patterns
                     /\ In keyword (keywords info)
                     /\ hf_list_models w keyword = Some models
                     /\ In m models
                     /\ extract_model_info_from_hf today m company_ = Some u) added.
Proof.
  induction patterns as [|[c i] rest IH]; intros new_updates.
  - exists []. rewrite app_nil_r. split; [reflexivity|].
    split; [simpl; lia|constructor].
  - simpl hf_companies.
    destruct (hf_models_added today existing c
                (fetch_huggingface_models w (keywords i)) 0 new_updates ltac:(lia))
      as [a1 [E1 [L1 _]]].
    destruct (hf_models_from today existing c
                (fetch_huggingface_models w (keywords i)) 0 new_updates)
      as [a1' [E1' F1]].
    assert (a1' = a1) by (rewrite E1 in E1'; now apply app_inv_head in E1').
    subst a1'. rewrite E1.
    destruct (IH (new_updates ++ a1)) as [a2 [E2 [L2 F2]]].
    exists (a1 ++ a2). rewrite E2, <- app_assoc. split; [reflexivity|].
    split; [rewrite length_app; cbn [List.length]; lia|].
    apply Forall_app. split.
    + eapply Forall_impl; [|exact F1]. intros u [m [Hm Hu]].
      apply fetch_huggingface_models_In in Hm. destruct Hm as [k [ms [Hk [Hs Hin]]]].
      exists c, i, k, ms, m. repeat split; auto. now left.
    + eapply Forall_impl; [|exact F2].
      intros u [c' [i' [k [ms [m [Hc H]]]]]].
      exists c', i', k, ms, m. split; [now right|assumption].
Qed.

(** The three stages, one after the other: what each appended. *)
Lemma collect_updates_stages today w existing :
  exists from_rss from_github from_hf,
    collect_updates today w existing = from_rss ++ from_github ++ from_hf
    /\ Forall (fun r => rss_origin today w MODEL_PATTERNS r) from_rss
    /\ Forall (fun r => github_origin w r) from_github
    /\ Forall (fun r => hf_origin today w r) from_hf
    /\ (List.length from_rss <= 20)%nat
    /\ (List.length from_github <= 30)%nat
    /\ (List.length from_hf <= 18)%nat.
Proof.
  unfold collect_updates.
  pose proof (fetch_official_rss_updates_today today w) as Ht.
  rewrite (merge_rss_accept_all today existing _ Ht).
  destruct (accept_all_added today existing
              (map Some (fetch_official_rss_updates today w)) [])
    as [a [Ea [La Fa]]].
  rewrite Ea. cbn [app].
  rewrite github_companies_accept_all.
  destruct (accept_all_added today existing (github_candidates w MODEL_PATTERNS) a)
    as [b [Eb [Lb Fb]]].
  rewrite Eb.
  destruct (hf_companies_added today w existing MODEL_PATTERNS (a ++ b))
    as [c [Ec [Lc Fc]]].
  rewrite Ec. exists a, b, c. rewrite <- app_assoc. split; [reflexivity|].
  split; [|split; [|split; [|split; [|split]]]].
  - eapply Forall_impl; [|exact Fa]. intros u [Hin _].
    apply in_map_iff in Hin. destruct Hin as [u' [[= ->] Hin]].
    now apply fetch_official_rss_updates_origin.
  - eapply Forall_impl; [|exact Fb]. intros u [Hin _].
    now apply github_candidates_In.
  - exact Fc.
  - rewrite length_map in La.
    destruct (rss_companies_added today w MODEL_PATTERNS []) as [x [Ex Lx]].
    unfold fetch_official_rss_updates in La. rewrite Ex in La.
    cbn [app] in La. simpl in Lx. lia.
  - pose proof (github_candidates_length w MODEL_PATTERNS) as H.
    change (List.length (flat_map (fun ci => api_endpoints (snd ci)) MODEL_PATTERNS))
      with 6%nat in H.
    lia.
  - change (List.length MODEL_PATTERNS) with 9%nat in Lc. lia.
Qed.

Lemma rss_origin_fields today w patterns r :
  rss_origin today w patterns r ->
  source r = "Official RSS" /\ In (company r) (map fst patterns).
Proof.
  intros [c [i [u [es [e [Hc [_ [_ [_ Ha]]]]]]]]].
  destruct Ha as [title [l [_ [_ [_ [_ [_ ->]]]]]]].
  split; [reflexivity|]. apply in_map_iff. exists (c, i). auto.
Qed.

Lemma github_origin_fields w r :
  github_origin w r ->
  source r = "GitHub" /\ In (company r) (map fst MODEL_PATTERNS).
Proof.
  intros [c [i [ep [rels [rel [Hc [_ [_ [_ Hx]]]]]]]]].
  apply extract_model_info_from_github_source in Hx. destruct Hx as [Hs ->].
  split; [assumption|]. apply in_map_iff. exists (c, i). auto.
Qed.

Lemma hf_origin_fields today w r :
  hf_origin today w r ->
  source r = "Hugging Face" /\ In (company r) (map fst MODEL_PATTERNS).
Proof.
  intros [c [i [k [ms [m [Hc [_ [_ [_ Hx]]]]]]]]].
  apply extract_model_info_from_hf_Some in Hx. destruct Hx as [id [_ ->]].
  split; [reflexivity|]. apply in_map_iff. exists (c, i). auto.
Qed.

(** X9. The records a run accepts come in the order of the stages: those of
    the feeds, then those of GitHub, then those of Hugging Face, each with
    the source of its stage and a company of the table. A run accepts at
    most 20 records from feeds (5 for each feed), 30 from GitHub (5 for
    each endpoint) and 18 from Hugging Face (2 for each company), 68 in
    all. *)
Theorem run_stage_order today w existing :
  exists from_rss from_github from_hf,
    collect_updates today w existing = from_rss ++ from_github ++ from_hf
    /\ Forall (fun r => source r = "Official RSS") from_rss
    /\ Forall (fun r => source r = "GitHub") from_github
    /\ Forall (fun r => source r = "Hugging Face") from_hf
    /\ Forall (fun r => In (company r) (map fst MODEL_PATTERNS))
         (collect_updates today w existing)
    /\ (List.length from_rss <= 20)%nat
    /\ (List.length from_github <= 30)%nat
    /\ (List.length from_hf <= 18)%nat
    /\ (List.length (collect_updates today w existing) <= 68)%nat.
Proof.
  destruct (collect_updates_stages today w existing)
    as [a [b [c [E [Fa [Fb [Fc [La [Lb Lc]]]]]]]]].
  exists a, b, c. rewrite E.
  split; [reflexivity|].
  split; [eapply Forall_impl; [|exact Fa]; intros r H;
          now apply rss_origin_fields in H|].
  split; [eapply Forall_impl; [|exact Fb]; intros r H;
          now apply github_origin_fields in H|].
  split; [eapply Forall_impl; [|exact Fc]; intros r H;
          now apply hf_origin_fields in H|].
  split.
  - rewrite !Forall_app. repeat split.
    + eapply Forall_impl; [|exact Fa]. intros r H.
      now apply rss_origin_fields in H.
    + eapply Forall_impl; [|exact Fb]. intros r H.
      now apply github_origin_fields in H.
    + eapply Forall_impl; [|exact Fc]. intros r H.
      now apply hf_origin_fields in H.
  - rewrite !length_app. repeat split; lia.
Qed.

(** X10. A record a run accepts with the source [GitHub] was made by
    [extract_model_info_from_github] from one of the first five releases
    that an endpoint of its company listed with status 200, and its date is
    today's. *)
Theorem github_record_origin today w existing r :
  In r (collect_updates today w existing) ->
  source r = "GitHub" ->
  github_origin w r /\ strptime_ymd (update_date r) = Ok today.
Proof.
  intros Hin Hs. split.
  - destruct (collect_updates_stages today w existing)
      as [a [b [c [E [Fa [Fb [Fc _]]]]]]].
    rewrite E in Hin. rewrite Forall_forall in Fa, Fb, Fc.
    apply in_app_or in Hin. destruct Hin as [Hin|Hin].
    + apply Fa, rss_origin_fields in Hin. destruct Hin as [H _]. congruence.
    + apply in_app_or in Hin. destruct Hin as [Hin|Hin]; [now apply Fb|].
      apply Fc, hf_origin_fields in Hin. destruct Hin as [H _]. congruence.
  - apply is_today_update_true_iff.
    pose proof (collect_updates_today today w existing) as H.
    rewrite Forall_forall in H. now apply H.
Qed.

Lemma github_record_origin_witness :
  github_origin scenario_A_world scenario_A_record
  /\ strptime_ymd (update_date scenario_A_record) = Ok day0.
Proof.
  apply (github_record_origin day0 scenario_A_world [] scenario_A_record).
  - vm_compute. left. reflexivity.
  - reflexivity.
Defined.

(** X11. A record a run accepts with the source [Hugging Face] was made
    from a model returned by a search on a keyword of its company; its
    model name is the identifier of the model and its link the address of
    the model on the hub. *)
Theorem hf_record_origin today w existing r :
  In r (collect_updates today w existing) ->
  source r = "Hugging Face" ->
  exists company_ info keyword models m id,
    In (company_, info) MODEL_PATTERNS
    /\ In keyword (keywords info)
    /\ hf_list_models w keyword = Some models
    /\ In m models
    /\ modelId m = Some id
    /\ company r = company_
    /\ model_name r = id
    /\ link r = ("https://huggingface.co/" ++ id)%string.
Proof.
  intros Hin Hs.
  destruct (collect_updates_stages today w existing)
    as [a [b [c [E [Fa [Fb [Fc _]]]]]]].
  rewrite E in Hin. rewrite Forall_forall in Fa, Fb, Fc.
  assert (Ho : hf_origin today w r).
  { apply in_app_or in Hin. destruct Hin as [Hin|Hin].
    - apply Fa, rss_origin_fields in Hin. destruct Hin as [H _]. congruence.
    - apply in_app_or in Hin. destruct Hin as [Hin|Hin]; [|now apply Fc].
      apply Fb, github_origin_fields in Hin. destruct Hin as [H _]. congruence. }
  destruct Ho as [co [i [k [ms [m [Hc [Hk [Hl [Hm Hx]]]]]]]]].
  apply extract_model_info_from_hf_Some in Hx. destruct Hx as [id [Hid ->]].
  exists co, i, k, ms, m, id. repeat split; assumption.
Qed.

Lemma hf_record_origin_witness :
  exists company_ info keyword models m id,
    In (company_, info) MODEL_PATTERNS
    /\ In keyword (keywords info)
    /\ hf_list_models scenario_D_world keyword = Some models
    /\ In m models
    /\ modelId m = Some id
    /\ company_ = "DeepSeek"
    /\ id = "deepseek-ai/DeepSeek-V4"
    /\ "https://huggingface.co/deepseek-ai/DeepSeek-V4"
       = ("https://huggingface.co/" ++ id)%string.
Proof.
  destruct (hf_record_origin day0 scenario_D_world []
              (Update "DeepSeek" "deepseek-ai/DeepSeek-V4" "2025-06-01"
                 "Tags: text-generation" "Hugging Face"
                 "https://huggingface.co/deepseek-ai/DeepSeek-V4"))
    as [co [i [k [ms [m [id [H1 [H2 [H3 [H4 [H5 [H6 [H7 H8]]]]]]]]]]]]].
  - vm_compute. left. reflexivity.
  - reflexivity.
  - exists co, i, k, ms, m, id. cbn in H6, H7, H8.
    repeat split; auto.
Defined.

(** ** Releases that give no record, names that come out empty *)

(** X12. [extract_model_info_from_github] gives no record in three cases
    and no other: the publication date is missing or unreadable, the field
    the name is taken from is null, or the body is null. A release without
    description, whose body the API gives as null, is dropped. *)
Theorem extract_model_info_from_github_none rel company_ :
  extract_model_info_from_github rel company_ = None
  <-> published_at rel = None \/ release_label rel = None \/ body rel = Null.
Proof.
  unfold extract_model_info_from_github, release_label.
  destruct (published_at rel) as [dt|]; [|split; auto].
  destruct (tag_name rel) as [| |tag]; cbn [jget].
  - destruct (name rel) as [| |n]; cbn [jget].
    + destruct (body rel); cbn [jget]; split; auto; try discriminate;
        intros [H|[H|H]]; discriminate.
    + split; auto.
    + destruct (body rel); cbn [jget]; split; auto; try discriminate;
        intros [H|[H|H]]; discriminate.
  - split; auto.
  - destruct (body rel); cbn [jget]; split; auto; try discriminate;
      intros [H|[H|H]]; discriminate.
Qed.

Example extract_model_info_from_github_none_example :
  extract_model_info_from_github bodiless_release "OpenAI" = None.
Proof. reflexivity. Qed.

Lemma version_prefix_stripped t :
  version_prefix t -> re_sub_prefix version_re t = "".
Proof.
  intros Hv. destruct (re_sub_prefix_version t) as [[p [E [_ Hmax]]]|[_ Hno]].
  - specialize (Hmax t "" ltac:(clear; induction t; simpl; congruence) Hv).
    assert (Hl : String.length t
                 = (String.length p + String.length (re_sub_prefix version_re t))%nat)
      by (rewrite E at 1; apply string_length_app).
    destruct (re_sub_prefix version_re t); [reflexivity|]. simpl in Hl. lia.
  - exfalso. apply (Hno t ""); [|assumption].
    clear. induction t; simpl; congruence.
Qed.

(** X13. A release whose tag is a version number and nothing else, such as
    [v1.2.3], gets the placeholder for name: the company, [Model], and the
    tag. *)
Theorem version_only_tag rel company_ t info :
  tag_name rel = Str t ->
  version_prefix t ->
  extract_model_info_from_github rel company_ = Some info ->
  model_name info = (company_ ++ " Model " ++ t)%string.
Proof.
  intros Ht Hv Hx.
  apply extract_model_info_from_github_name in Hx. destruct Hx as [raw [Hl Hm]].
  unfold release_label in Hl. rewrite Ht in Hl. injection Hl as <-.
  rewrite (version_prefix_stripped t Hv) in Hm.
  unfold placeholder in Hm. now rewrite Ht in Hm.
Qed.

Lemma version_only_tag_witness :
  model_name
    (Update "OpenAI" "OpenAI Model v1.2.3" "2025-06-01" "Fixes" "GitHub"
       "https://github.com/openai/openai-python/releases/tag/v1.2.3")
  = ("OpenAI" ++ " Model " ++ "v1.2.3")%string.
Proof.
  apply (version_only_tag numbered_release "OpenAI" "v1.2.3").
  - reflexivity.
  - apply prefix_v.
    apply (version_group "1" "2.3"); [now constructor|].
    apply (version_group "2" "3"); [now constructor|].
    apply version_last. now constructor.
  - vm_compute. reflexivity.
Defined.

(** ** Dates the code writes itself *)

(** X14. The date test on a date the code formats: for a date [d] of the
    calendar, [is_today_update] holds of [d] written as [%Y-%m-%d] exactly
    when [d] is today. *)
Theorem is_today_update_formatted today d :
  valid_date d = true ->
  (is_today_update today (strftime_ymd d) = true <-> d = today).
Proof.
  intros Hv. rewrite is_today_update_true_iff, (strptime_strftime d Hv).
  split; congruence.
Qed.

Lemma is_today_update_formatted_witness :
  is_today_update day0 (strftime_ymd (Date 2025 5 31)) = true
  <-> Date 2025 5 31 = day0.
Proof.
  apply (is_today_update_formatted day0 (Date 2025 5 31)). reflexivity.
Defined.

(** X15. What carries no date counts as of today. A model without
    [lastModified] is given today's date and passes the date test; a feed
    entry of a company of the table without [published_parsed], that passes
    the keyword and vocabulary tests and has a link, is appended with
    today's date. *)
Theorem undated_is_today today :
  valid_date today = true ->
  (forall m company_ id,
      lastModified m = None -> modelId m = Some id ->
      exists info,
        extract_model_info_from_hf today m company_ = Some info
        /\ update_date info = strftime_ymd today
        /\ is_today_update today (update_date info) = true)
  /\ (forall company_ info entry title l rest updates,
         In (company_, info) MODEL_PATTERNS ->
         entry_published_parsed entry = None ->
         entry_title entry = Some title ->
         entry_link entry = Some l ->
         keyword_hit (keywords info) (lower title) (lower (summary_of entry)) = true ->
         release_hit (lower title) = true ->
         rss_entries today company_ info (entry :: rest) updates
         = rss_entries today company_ info rest
             (updates ++ [Update company_ title (strftime_ymd today)
                            (slice_to 300 (summary_of entry)) "Official RSS" l])).
Proof.
  intros Hv. split.
  - intros m c id Hl Hid. unfold extract_model_info_from_hf. rewrite Hl, Hid.
    eexists. split; [reflexivity|]. cbn [update_date].
    split; [reflexivity|]. now apply is_today_update_today.
  - intros c info entry title l rest updates _ Hp Ht Hl Hk Hr.
    cbn [rss_entries]. unfold summary_of in *.
    rewrite Ht, Hk, Hr, Hp, (is_today_update_today today Hv), Hl. reflexivity.
Qed.

Lemma undated_is_today_witness :
  (exists info,
      extract_model_info_from_hf day0 undated_model "DeepSeek" = Some info
      /\ update_date info = strftime_ymd day0
      /\ is_today_update day0 (update_date info) = true)
  /\ rss_entries day0 "Anthropic" anthropic_profile [undated_entry] []
     = [Update "Anthropic" "New Claude model" "2025-06-01" "" "Official RSS"
          "https://x/new"].
Proof.
  destruct (undated_is_today day0 eq_refl) as [H1 H2]. split.
  - apply (H1 undated_model "DeepSeek" "deepseek-ai/DeepSeek-V4"); reflexivity.
  - apply (H2 "Anthropic" anthropic_profile undated_entry
             "New Claude model" "https://x/new" [] []);
      [right; left; reflexivity|reflexivity..].
Defined.

(** ** A feed cut short *)

(** X16. An entry without title ends the loop over its feed: the entries
    after it are not looked at, and what the entries before it gave
    stays. *)
Theorem rss_entries_untitled today company_ info pre entry post updates :
  entry_title entry = None ->
  rss_entries today company_ info (pre ++ entry :: post) updates
  = rss_entries today company_ info pre updates.
Proof.
  intros Ht. revert updates.
  induction pre as [|e pre IH]; intros updates.
  - cbn [app rss_entries]. now rewrite Ht.
  - cbn [app rss_entries].
    destruct (entry_title e) as [title|]; [|reflexivity].
    destruct (keyword_hit _ _ _); [|apply IH].
    destruct (release_hit _); [|apply IH].
    destruct (is_today_update today _); [|apply IH].
    destruct (entry_link e); [apply IH|reflexivity].
Qed.

Lemma rss_entries_untitled_witness :
  rss_entries day0 "Anthropic" (Profile ["claude"] [] [])
    ([undated_entry] ++ untitled_entry
       :: [RssEntry (Some "Claude 5 released") None None (Some "https://x/5")]) []
  = rss_entries day0 "Anthropic" (Profile ["claude"] [] []) [undated_entry] [].
Proof.
  apply (rss_entries_untitled day0 "Anthropic" (Profile ["claude"] [] [])
           [undated_entry] untitled_entry). reflexivity.
Defined.

(** ** The pool of [is_duplicate] *)

Lemma is_duplicate_self u pool : In u pool -> is_duplicate u pool = true.
Proof.
  intros Hin. apply is_duplicate_true_iff. exists u. split; [assumption|].
  right. split; reflexivity.
Qed.

Lemma is_duplicate_incl c pool1 pool2 :
  incl pool1 pool2 -> is_duplicate c pool1 = true -> is_duplicate c pool2 = true.
Proof.
  intros Hi H. apply is_duplicate_true_iff in H. destruct H as [r [Hin Hc]].
  apply is_duplicate_true_iff. exists r. split; [now apply Hi|assumption].
Qed.

(** X17. [is_duplicate] reads the pool as a set: a record held by the pool
    is a duplicate of it, a duplicate of a pool is a duplicate of every
    pool that holds the same records or more, and the order and the
    repetitions of the pool do not matter. *)
Theorem is_duplicate_pool :
  (forall u pool, In u pool -> is_duplicate u pool = true)
  /\ (forall c pool1 pool2,
         incl pool1 pool2 -> is_duplicate c pool1 = true ->
         is_duplicate c pool2 = true)
  /\ (forall c pool1 pool2,
         incl pool1 pool2 -> incl pool2 pool1 ->
         is_duplicate c pool1 = is_duplicate c pool2).
Proof.
  split; [exact is_duplicate_self|]. split; [exact is_duplicate_incl|].
  intros c pool1 pool2 H12 H21.
  destruct (is_duplicate c pool1) eqn:E1.
  - symmetry. now apply (is_duplicate_incl c pool1 pool2).
  - destruct (is_duplicate c pool2) eqn:E2; [|reflexivity].
    rewrite (is_duplicate_incl c pool2 pool1 H21 E2) in E1. discriminate.
Qed.

(** ** Running twice *)

Lemma accepts_settled today pool1 n1 pool2 candidate :
  accepts today pool1 n1 candidate = None ->
  incl (pool1 ++ n1) pool2 ->
  accepts today pool2 [] candidate = None.
Proof.
  unfold accepts. destruct candidate as [u|]; [|reflexivity].
  destruct (is_today_update today (update_date u)); [|reflexivity].
  simpl. destruct (is_duplicate u (pool1 ++ n1)) eqn:Ed; [|discriminate].
  intros _ Hi. rewrite app_nil_r.
  now rewrite (is_duplicate_incl u _ pool2 Hi Ed).
Qed.

Lemma accepts_accepted today pool u :
  In u pool -> accepts today pool [] (Some u) = None.
Proof.
  intros Hin. unfold accepts. rewrite app_nil_r, (is_duplicate_self u pool Hin).
  now rewrite andb_false_r.
Qed.

(** After a pass, every candidate of the pass is refused against a pool
    that holds the data of the pass and what it appended. *)
Lemma accept_all_settles today existing candidates :
  forall new_updates pool,
    incl (existing ++ accept_all today existing candidates new_updates) pool ->
    Forall (fun c => accepts today pool [] c = None) candidates.
Proof.
  induction candidates as [|c rest IH]; intros n pool Hi; [constructor|].
  cbn [accept_all] in Hi.
  destruct (accepts today existing n c) as [info|] eqn:Ea.
  - constructor; [|now apply (IH (n ++ [info]))].
    apply accepts_Some in Ea. destruct Ea as [-> _].
    apply accepts_accepted, Hi, in_or_app. right.
    destruct (accept_all_added today existing rest (n ++ [info])) as [added [E _]].
    rewrite E. apply in_or_app. left. apply in_or_app. right. now left.
  - constructor; [|now apply (IH n)].
    apply (accepts_settled today existing n pool c Ea).
    intros x Hx. apply Hi. apply in_app_or in Hx. apply in_or_app.
    destruct Hx as [Hx|Hx]; [now left|right].
    destruct (accept_all_added today existing rest n) as [added [E _]].
    rewrite E. apply in_or_app. now left.
Qed.

Lemma accept_all_nothing today pool candidates :
  Forall (fun c => accepts today pool [] c = None) candidates ->
  accept_all today pool candidates [] = [].
Proof.
  induction 1 as [|c rest Hc Hrest IH]; [reflexivity|].
  cbn [accept_all]. now rewrite Hc.
Qed.

Lemma hf_models_nothing today pool company_ models :
  Forall (fun m => accepts today pool []
                     (extract_model_info_from_hf today m company_) = None) models ->
  hf_models today pool company_ models 0 [] = [].
Proof.
  induction 1 as [|m rest Hm Hrest IH]; [reflexivity|].
  cbn [hf_models]. change (0 >=? 2) with false. cbv iota. now rewrite Hm.
Qed.

(** Below the cap the loop over the models is a plain pass. *)
Lemma hf_models_below_cap today existing company_ models :
  forall today_count new_updates,
    Z.of_nat (List.length
                (hf_models today existing company_ models today_count new_updates))
    < Z.of_nat (List.length new_updates) + 2 - today_count ->
    hf_models today existing company_ models today_count new_updates
    = accept_all today existing
        (map (fun m => extract_model_info_from_hf today m company_) models)
        new_updates.
Proof.
  induction models as [|m rest IH]; intros cnt n Hlen; [reflexivity|].
  cbn [hf_models map accept_all] in *.
  destruct (cnt >=? 2) eqn:E.
  - rewrite Z.geb_leb in E. apply Z.leb_le in E. lia.
  - destruct (accepts today existing n (extract_model_info_from_hf today m company_))
      as [info|].
    + apply IH. rewrite length_app. cbn [List.length]. lia.
    + now apply IH.
Qed.

Lemma hf_count_all c l :
  Forall (fun r => company r = c /\ source r = "Hugging Face") l ->
  hf_count c l = List.length l.
Proof.
  unfold hf_count. induction 1 as [|r l [Hc Hs] Hl IH]; [reflexivity|].
  simpl. unfold is_hf_of at 1. rewrite Hc, Hs, String.eqb_refl. simpl.
  rewrite String.eqb_refl. simpl. now rewrite IH.
Qed.

Lemma hf_companies_second today w existing patterns :
  forall new_updates pool,
    incl (existing ++ hf_companies today w existing patterns new_updates) pool ->
    (forall c, (hf_count c (hf_companies today w existing patterns new_updates)
                < hf_count c new_updates + 2)%nat) ->
    hf_companies today w pool patterns [] = [].
Proof.
  induction patterns as [|[c i] rest IH]; intros n pool Hi Hcap; [reflexivity|].
  cbn [hf_companies] in *.
  set (models := fetch_huggingface_models w (keywords i)) in *.
  destruct (hf_models_added today existing c models 0 n ltac:(lia))
    as [added [E [_ Hall]]].
  destruct (hf_companies_added today w existing rest (n ++ added))
    as [later [El _]].
  rewrite E in Hi, Hcap. rewrite El in Hi.
  assert (Hlt : (List.length added < 2)%nat).
  { specialize (Hcap c). rewrite El, !hf_count_app in Hcap.
    rewrite (hf_count_all c added Hall) in Hcap. lia. }
  assert (Hpass : hf_models today existing c models 0 n
                  = accept_all today existing
                      (map (fun m => extract_model_info_from_hf today m c) models) n).
  { apply hf_models_below_cap. rewrite E, length_app. lia. }
  rewrite hf_models_nothing.
  - apply (IH (n ++ added) pool).
    + now rewrite El.
    + intros c'. specialize (Hcap c'). rewrite hf_count_app in *. lia.
  - assert (Hs : Forall (fun cand => accepts today pool [] cand = None)
                   (map (fun m => extract_model_info_from_hf today m c) models)).
    { apply (accept_all_settles today existing _ n pool).
      rewrite <- Hpass, E. intros x Hx. apply Hi.
      apply in_app_or in Hx. apply in_or_app.
      destruct Hx as [Hx|Hx]; [now left|right].
      apply in_or_app. now left. }
    rewrite Forall_forall in *. intros m Hm. apply Hs.
    apply in_map_iff. eauto.
Qed.

Lemma collect_updates_second today w existing pool :
  incl (existing ++ collect_updates today w existing) pool ->
  (forall c, (hf_count c (collect_updates today w existing) < 2)%nat) ->
  collect_updates today w pool = [].
Proof.
  intros Hi Hcap. unfold collect_updates in *.
  pose proof (fetch_official_rss_updates_today today w) as Ht.
  rewrite (merge_rss_accept_all today existing _ Ht) in Hi, Hcap.
  rewrite (merge_rss_accept_all today pool _ Ht).
  rewrite github_companies_accept_all in Hi, Hcap.
  set (a := accept_all today existing
              (map Some (fetch_official_rss_updates today w)) []) in *.
  set (b := accept_all today existing (github_candidates w MODEL_PATTERNS) a) in *.
  destruct (hf_companies_added today w existing MODEL_PATTERNS b) as [c [Ec _]].
  destruct (accept_all_added today existing (github_candidates w MODEL_PATTERNS) a)
    as [bb [Eb _]].
  fold b in Eb.
  assert (Ha : accept_all today pool
                 (map Some (fetch_official_rss_updates today w)) [] = []).
  { apply accept_all_nothing, (accept_all_settles today existing _ [] pool).
    fold a. intros x Hx. apply Hi. rewrite Ec, Eb.
    apply in_app_or in Hx. apply in_or_app.
    destruct Hx as [Hx|Hx]; [now left|right].
    apply in_or_app. left. apply in_or_app. now left. }
  rewrite Ha, github_companies_accept_all.
  assert (Hb : accept_all today pool (github_candidates w MODEL_PATTERNS) [] = []).
  { apply accept_all_nothing, (accept_all_settles today existing _ a pool).
    fold b. intros x Hx. apply Hi. rewrite Ec.
    apply in_app_or in Hx. apply in_or_app.
    destruct Hx as [Hx|Hx]; [now left|right].
    apply in_or_app. now left. }
  rewrite Hb.
  apply (hf_companies_second today w existing MODEL_PATTERNS b pool Hi).
  intros co. specialize (Hcap co).
  assert (Hz : hf_count co b = 0%nat).
  { apply hf_count_not_hf. subst b a.
    rewrite <- github_companies_accept_all, <- (merge_rss_accept_all today existing _ Ht).
    apply before_hf_sources. }
  lia.
Qed.

(** X1. A run repeated on the file it left, on the same day and with the
    same answers of the sources, accepts nothing and leaves the file as it
    is, provided the first run did not stop at the cap of two Hugging Face
    records for any company. *)
Theorem run_twice today w st st1 new_updates :
  fetch_all_updates today w st = (st1, Ok new_updates) ->
  (forall c, (hf_count c new_updates < 2)%nat) ->
  fetch_all_updates today w st1 = (st1, Ok []).
Proof.
  intros Hrun Hcap.
  pose proof Hrun as Hrun'. unfold fetch_all_updates in Hrun.
  destruct (load_existing_data st) as [existing|e] eqn:El; [|discriminate].
  destruct (collect_updates today w existing) as [|u rest] eqn:Ec.
  - injection Hrun as <- <-. exact Hrun'.
  - destruct (save_data_cases (existing ++ u :: rest) st)
      as [[e He]|[wr [Hw Hp]]]; rewrite ?He, ?Hw in Hrun; [discriminate|].
    injection Hrun as <- <-.
    unfold fetch_all_updates, load_existing_data.
    cbn [try_body_load try_except].
    rewrite (collect_updates_second today w existing wr); [reflexivity| |].
    + rewrite Ec. intros x Hx. eapply Permutation_in; eauto.
    + now rewrite Ec.
Qed.

(** The run of scenario A, then the same run again. *)
Lemma run_twice_witness :
  fetch_all_updates day0 scenario_A_world (StoreRecords [scenario_A_record])
  = (StoreRecords [scenario_A_record], Ok []).
Proof.
  apply (run_twice day0 scenario_A_world StoreAbsent
           (StoreRecords [scenario_A_record]) [scenario_A_record]).
  - vm_compute. reflexivity.
  - intros c. vm_compute. lia.
Defined.

(** X2. The cap holds for a run, not for a day: when a search returns three
    models or more, all modified today, distinct and none a duplicate, the
    loop accepts the first two; run again with these two among the data
    loaded, it passes over them as duplicates and accepts the third. *)
Theorem hf_cap_defers today existing company_ models new_updates :
  valid_date today = true ->
  (3 <= List.length models)%nat ->
  Forall (fun m => lastModified m = Some today /\ modelId m <> None) models ->
  NoDup (map modelId models) ->
  Forall (fun m => forall info,
              extract_model_info_from_hf today m company_ = Some info ->
              is_duplicate info (existing ++ new_updates) = false) models ->
  exists m0 m1 m2 rest i0 i1 i2 later,
    models = m0 :: m1 :: m2 :: rest
    /\ extract_model_info_from_hf today m2 company_ = Some i2
    /\ hf_models today existing company_ models 0 new_updates
       = new_updates ++ [i0; i1]
    /\ hf_models today (existing ++ new_updates ++ [i0; i1]) company_ models 0 []
       = i2 :: later.
Proof.
  intros Hv Hlen Hall Hnd Hdup.
  destruct models as [|m0 [|m1 [|m2 rest]]]; simpl in Hlen; try lia.
  inversion Hall as [|? ? [Hl0 Hid0] Hall1]; subst.
  inversion Hall1 as [|? ? [Hl1 Hid1] Hall2]; subst.
  inversion Hall2 as [|? ? [Hl2 Hid2] _]; subst.
  inversion Hdup as [|? ? Hd0 Hdup1]; subst.
  inversion Hdup1 as [|? ? Hd1 Hdup2]; subst.
  inversion Hdup2 as [|? ? Hd2 _]; subst.
  inversion Hnd as [|? ? Hn0 Hnd1]; subst.
  inversion Hnd1 as [|? ? Hn1 _]; subst.
  assert (H01 : modelId m0 <> modelId m1) by (intros E; apply Hn0; simpl; auto).
  assert (H02 : modelId m0 <> modelId m2) by (intros E; apply Hn0; simpl; auto).
  assert (H12 : modelId m1 <> modelId m2) by (intros E; apply Hn1; simpl; auto).
  destruct (modelId m0) as [id0|] eqn:E0; [|congruence].
  destruct (modelId m1) as [id1|] eqn:E1; [|congruence].
  destruct (modelId m2) as [id2|] eqn:E2; [|congruence].
  destruct (hf_accepts_today today existing new_updates company_ m0 id0
              Hv Hl0 E0 Hd0) as [i0 [Hx0 Ha0]].
  assert (Hd1' : forall info,
             extract_model_info_from_hf today m1 company_ = Some info ->
             is_duplicate info (existing ++ new_updates ++ [i0]) = false).
  { intros info Hx. rewrite app_assoc, is_duplicate_app, (Hd1 info Hx).
    rewrite (hf_records_distinct today company_ m0 m1 i0 info Hx0 Hx);
      [reflexivity|congruence]. }
  destruct (hf_accepts_today today existing (new_updates ++ [i0]) company_ m1 id1
              Hv Hl1 E1 Hd1') as [i1 [Hx1 Ha1]].
  remember (existing ++ new_updates ++ [i0; i1]) as pool eqn:Epool.
  assert (Hd2' : forall info,
             extract_model_info_from_hf today m2 company_ = Some info ->
             is_duplicate info (pool ++ []) = false).
  { intros info Hx. rewrite Epool.
    rewrite app_nil_r, app_assoc, is_duplicate_app, (Hd2 info Hx).
    change [i0; i1] with ([i0] ++ [i1]). rewrite is_duplicate_app.
    rewrite (hf_records_distinct today company_ m0 m2 i0 info Hx0 Hx)
      by congruence.
    rewrite (hf_records_distinct today company_ m1 m2 i1 info Hx1 Hx)
      by congruence.
    reflexivity. }
  destruct (hf_accepts_today today pool [] company_ m2 id2 Hv Hl2 E2 Hd2')
    as [i2 [Hx2 Ha2]].
  destruct (hf_models_added today pool company_ rest (0 + 1) ([] ++ [i2])
              ltac:(lia)) as [later [Elater _]].
  exists m0, m1, m2, rest, i0, i1, i2, later.
  split; [reflexivity|]. split; [assumption|]. rewrite <- Epool. split.
  - cbn [hf_models]. change (0 >=? 2) with false. cbv iota. rewrite Ha0.
    change (0 + 1 >=? 2) with false. cbv iota. rewrite Ha1.
    rewrite hf_models_break by lia. now rewrite <- app_assoc.
  - cbn [hf_models]. change (0 >=? 2) with false. cbv iota.
    rewrite Hx0, (accepts_accepted today pool i0).
    2:{ rewrite Epool, !in_app_iff. right. right. now left. }
    change (0 >=? 2) with false. cbv iota.
    rewrite Hx1, (accepts_accepted today pool i1).
    2:{ rewrite Epool, !in_app_iff. right. right. right. now left. }
    change (0 >=? 2) with false. cbv iota.
    rewrite Ha2. exact Elater.
Qed.

(** Scenario D, run twice: the third model is accepted by the second
    run. *)
Lemma hf_cap_defers_witness :
  exists m0 m1 m2 rest i0 i1 i2 later,
    scenario_D_models = m0 :: m1 :: m2 :: rest
    /\ extract_model_info_from_hf day0 m2 "DeepSeek" = Some i2
    /\ hf_models day0 [] "DeepSeek" scenario_D_models 0 [] = [] ++ [i0; i1]
    /\ hf_models day0 ([] ++ [] ++ [i0; i1]) "DeepSeek" scenario_D_models 0 []
       = i2 :: later.
Proof.
  apply (hf_cap_defers day0 [] "DeepSeek" scenario_D_models []).
  - reflexivity.
  - simpl. lia.
  - repeat constructor; discriminate.
  - simpl. repeat constructor; simpl; intuition discriminate.
  - repeat constructor.
Defined.

Example hf_cap_defers_example :
  snd (fetch_all_updates day0 scenario_D_world StoreAbsent)
  = Ok [ Update "DeepSeek" "deepseek-ai/DeepSeek-V4" "2025-06-01"
           "Tags: text-generation" "Hugging Face"
           "https://huggingface.co/deepseek-ai/DeepSeek-V4";
         Update "DeepSeek" "deepseek-ai/DeepSeek-R2" "2025-06-01" ""
           "Hugging Face" "https://huggingface.co/deepseek-ai/DeepSeek-R2" ]
  /\ snd (fetch_all_updates day0 scenario_D_world
            (fst (fetch_all_updates day0 scenario_D_world StoreAbsent)))
     = Ok [ Update "DeepSeek" "deepseek-ai/DeepSeek-Coder-3" "2025-06-01"
              "Tags: code" "Hugging Face"
              "https://huggingface.co/deepseek-ai/DeepSeek-Coder-3" ].
Proof. split; vm_compute; reflexivity. Qed.

(** ** The feed filter, the other way round *)

(** X18. The feed filter lets through every entry that meets its
    conditions: an entry of a company of the table with a title and a link,
    with a keyword of the company in its lowercased title or summary, with
    a word of the release vocabulary in its lowercased title, and dated
    today, is appended to the updates of the feed, after those of the
    entries before it, and the loop goes on with the next entry. *)
Theorem rss_entry_accepted today company_ info entry title l rest updates :
  In (company_, info) MODEL_PATTERNS ->
  entry_title entry = Some title ->
  entry_link entry = Some l ->
  keyword_condition info title (summary_of entry) ->
  vocabulary_condition title ->
  is_today_update today (rss_date_of today entry) = true ->
  rss_entries today company_ info (entry :: rest) updates
  = rss_entries today company_ info rest
      (updates ++ [Update company_ title (rss_date_of today entry)
                     (slice_to 300 (summary_of entry)) "Official RSS" l]).
Proof.
  intros _ Ht Hl Hk Hv Hd.
  apply keyword_condition_hit in Hk. apply vocabulary_condition_hit in Hv.
  cbn [rss_entries]. unfold summary_of, rss_date_of in *.
  now rewrite Ht, Hk, Hv, Hd, Hl.
Qed.

Lemma rss_entry_accepted_witness :
  rss_entries day0 "Anthropic" anthropic_profile [undated_entry] []
  = rss_entries day0 "Anthropic" anthropic_profile []
      ([] ++ [Update "Anthropic" "New Claude model" (rss_date_of day0 undated_entry)
                (slice_to 300 (summary_of undated_entry)) "Official RSS"
                "https://x/new"]).
Proof.
  apply (rss_entry_accepted day0 "Anthropic" anthropic_profile
           undated_entry "New Claude model" "https://x/new" [] []).
  - right. left. reflexivity.
  - reflexivity.
  - reflexivity.
  - exists "claude". split; [now left|]. left. exists "new ", " model". reflexivity.
  - exists "new". split; [simpl; tauto|]. exists "", " claude model". reflexivity.
  - vm_compute. reflexivity.
Defined.

(** ** The date of an accepted record *)

(** What [strptime] accepts: the groups of a match, character by
    character. *)

Lemma rmatch_Alt f a b s : rmatch f (Alt a b) s = rmatch f a s ++ rmatch f b s.
Proof. destruct f; reflexivity. Qed.

Lemma range_digit lo hi c :
  is_digit lo = true -> is_digit hi = true ->
  ((lo <=? c) && (c <=? hi))%char = true -> is_digit c = true.
Proof.
  intros Hlo Hhi H. apply andb_true_iff in H. destruct H as [H1 H2].
  unfold is_digit in *. apply andb_true_iff in Hlo, Hhi.
  destruct Hlo as [Hlo _], Hhi as [_ Hhi].
  unfold Ascii.leb, Ascii.compare in *.
  apply andb_true_iff. split.
  - destruct (N.compare_spec (N_of_ascii "0") (N_of_ascii c)); try reflexivity.
    destruct (N.compare_spec (N_of_ascii "0") (N_of_ascii lo)); try discriminate;
      destruct (N.compare_spec (N_of_ascii lo) (N_of_ascii c)); try discriminate; lia.
  - destruct (N.compare_spec (N_of_ascii c) (N_of_ascii "9")); try reflexivity.
    destruct (N.compare_spec (N_of_ascii hi) (N_of_ascii "9")); try discriminate;
      destruct (N.compare_spec (N_of_ascii c) (N_of_ascii hi)); try discriminate; lia.
Qed.

Lemma rmatch_Cls_In f p s r :
  In r (rmatch f (Cls p) s) -> exists c, s = String c r /\ p c = true.
Proof.
  rewrite rmatch_Cls. destruct s as [|c t]; [intros []|].
  destruct (p c) eqn:E; [|intros []]. intros [<-|[]]. eauto.
Qed.

Lemma rmatch_two_In f p q s r :
  In r (rmatch f (Seq (Cls p) (Cls q)) s) ->
  exists a b, s = String a (String b r) /\ p a = true /\ q b = true.
Proof.
  rewrite rmatch_Seq. intros H. apply in_flat_map in H.
  destruct H as [s1 [H1 H2]].
  apply rmatch_Cls_In in H1, H2.
  destruct H1 as [a [-> Ha]], H2 as [b [-> Hb]]. eauto.
Qed.

Lemma rmatch_re_Y_In f s r :
  In r (rmatch f re_Y s) ->
  exists a b c d,
    s = String a (String b (String c (String d r)))
    /\ Forall (fun x => is_digit x = true) [a; b; c; d].
Proof.
  unfold re_Y, Digit. rewrite rmatch_Seq. intros H.
  apply in_flat_map in H. destruct H as [s1 [H1 H]].
  rewrite rmatch_Seq in H. apply in_flat_map in H. destruct H as [s2 [H2 H]].
  apply rmatch_two_In in H. destruct H as [c [d [-> [Hc Hd]]]].
  apply rmatch_Cls_In in H1, H2.
  destruct H2 as [b [-> Hb]], H1 as [a [-> Ha]].
  exists a, b, c, d. split; [reflexivity|]. repeat constructor; assumption.
Qed.

Lemma rmatch_re_dash_In f s r : In r (rmatch f re_dash s) -> s = String "-" r.
Proof.
  unfold re_dash, Chr. intros H. apply rmatch_Cls_In in H.
  destruct H as [c [-> Hc]]. apply Ascii.eqb_eq in Hc. now subst.
Qed.

Lemma chr_digit c x : is_digit c = true -> Ascii.eqb c x = true -> is_digit x = true.
Proof. intros Hc H. apply Ascii.eqb_eq in H. now subst. Qed.

(** The month group takes two digits or one. *)
Lemma rmatch_re_m_In f s r :
  In r (rmatch f re_m s) ->
  (exists a b, s = String a (String b r) /\ is_digit a = true /\ is_digit b = true)
  \/ (exists a, s = String a r /\ is_digit a = true).
Proof.
  unfold re_m, Chr, Rng. rewrite !rmatch_Alt. intros H.
  apply in_app_or in H. destruct H as [H|H]; [|apply in_app_or in H; destruct H as [H|H]].
  - apply rmatch_two_In in H. destruct H as [a [b [-> [Ha Hb]]]].
    left. exists a, b. split; [reflexivity|].
    split; [exact (chr_digit "1" a eq_refl Ha)|].
    exact (range_digit "0" "2" b eq_refl eq_refl Hb).
  - apply rmatch_two_In in H. destruct H as [a [b [-> [Ha Hb]]]].
    left. exists a, b. split; [reflexivity|].
    split; [exact (chr_digit "0" a eq_refl Ha)|].
    exact (range_digit "1" "9" b eq_refl eq_refl Hb).
  - apply rmatch_Cls_In in H. destruct H as [a [-> Ha]].
    right. exists a. split; [reflexivity|].
    exact (range_digit "1" "9" a eq_refl eq_refl Ha).
Qed.

(** The day group takes two characters, the second a digit, or one
    digit. *)
Lemma rmatch_re_d_In f s r :
  In r (rmatch f re_d s) ->
  (exists a b, s = String a (String b r)
               /\ (is_digit a = true \/ a = " "%char) /\ is_digit b = true)
  \/ (exists a, s = String a r /\ is_digit a = true).
Proof.
  unfold re_d, Chr, Rng, Digit. rewrite !rmatch_Alt. intros H.
  repeat (apply in_app_or in H; destruct H as [H|H]).
  - apply rmatch_two_In in H. destruct H as [a [b [-> [Ha Hb]]]].
    left. exists a, b. split; [reflexivity|].
    split; [left; exact (chr_digit "3" a eq_refl Ha)|].
    exact (range_digit "0" "1" b eq_refl eq_refl Hb).
  - apply rmatch_two_In in H. destruct H as [a [b [-> [Ha Hb]]]].
    left. exists a, b. split; [reflexivity|].
    split; [left; exact (range_digit "1" "2" a eq_refl eq_refl Ha)|assumption].
  - apply rmatch_two_In in H. destruct H as [a [b [-> [Ha Hb]]]].
    left. exists a, b. split; [reflexivity|].
    split; [left; exact (chr_digit "0" a eq_refl Ha)|].
    exact (range_digit "1" "9" b eq_refl eq_refl Hb).
  - apply rmatch_Cls_In in H. destruct H as [a [-> Ha]].
    right. exists a. split; [reflexivity|].
    exact (range_digit "1" "9" a eq_refl eq_refl Ha).
  - apply rmatch_two_In in H. destruct H as [a [b [-> [Ha Hb]]]].
    left. exists a, b. split; [reflexivity|].
    split; [right; apply Ascii.eqb_eq in Ha; now subst|].
    exact (range_digit "1" "9" b eq_refl eq_refl Hb).
Qed.

Lemma consumed_app p r : consumed (p ++ r)%string r = p.
Proof.
  unfold consumed. rewrite string_length_app.
  replace (String.length p + String.length r - String.length r)%nat
    with (String.length p) by lia.
  induction p as [|c p IH]; simpl.
  - destruct r; reflexivity.
  - now rewrite IH.
Qed.

Lemma captures_In r0 s p r :
  In (p, r) (captures r0 s) -> In r (rmatch (String.length s) r0 s) /\ p = consumed s r.
Proof.
  unfold captures. intros H. apply in_map_iff in H.
  destruct H as [x [[= <- <-] Hx]]. auto.
Qed.

Lemma string_app_assoc a b c : ((a ++ b) ++ c = a ++ (b ++ c))%string.
Proof. induction a as [|x a IH]; simpl; [reflexivity|]. now rewrite IH. Qed.

Lemma ymd_matches_In s Y m d rest :
  In (Y, m, d, rest) (ymd_matches s) ->
  s = (Y ++ "-" ++ m ++ "-" ++ d ++ rest)%string
  /\ (exists a b c e, Y = String a (String b (String c (String e "")))
                      /\ Forall (fun x => is_digit x = true) [a; b; c; e])
  /\ ((exists a b, m = String a (String b "")
                   /\ is_digit a = true /\ is_digit b = true)
      \/ (exists a, m = String a "" /\ is_digit a = true))
  /\ ((exists a b, d = String a (String b "")
                   /\ (is_digit a = true \/ a = " "%char) /\ is_digit b = true)
      \/ (exists a, d = String a "" /\ is_digit a = true)).
Proof.
  unfold ymd_matches. intros H.
  apply in_flat_map in H. destruct H as [[Y0 s1] [H1 H]].
  apply in_flat_map in H. destruct H as [[p2 s2] [H2 H]].
  apply in_flat_map in H. destruct H as [[m0 s3] [H3 H]].
  apply in_flat_map in H. destruct H as [[p4 s4] [H4 H]].
  apply in_map_iff in H. destruct H as [[d0 s5] [E H5]].
  cbn [fst snd] in *. injection E as -> -> -> ->.
  apply captures_In in H1, H2, H3, H4, H5.
  destruct H1 as [H1 EY], H2 as [H2 _], H3 as [H3 Em], H4 as [H4 _], H5 as [H5 Ed].
  apply rmatch_re_Y_In in H1. destruct H1 as [a [b [c [e [Es HY]]]]].
  apply rmatch_re_dash_In in H2, H4.
  assert (EY' : Y = String a (String b (String c (String e "")))).
  { rewrite EY, Es.
    change (String a (String b (String c (String e s1))))
      with (String a (String b (String c (String e ""))) ++ s1)%string.
    apply consumed_app. }
  assert (Hm : ((exists a b, m = String a (String b "")
                   /\ is_digit a = true /\ is_digit b = true)
      \/ (exists a, m = String a "" /\ is_digit a = true))
      /\ s2 = (m ++ s3)%string).
  { apply rmatch_re_m_In in H3.
    destruct H3 as [[x [y [E [Hx Hy]]]]|[x [E Hx]]]; rewrite Em, E.
    - change (String x (String y s3)) with (String x (String y "") ++ s3)%string.
      rewrite consumed_app. split; [left; eauto|reflexivity].
    - change (String x s3) with (String x "" ++ s3)%string.
      rewrite consumed_app. split; [right; eauto|reflexivity]. }
  assert (Hd : ((exists a b, d = String a (String b "")
                   /\ (is_digit a = true \/ a = " "%char) /\ is_digit b = true)
      \/ (exists a, d = String a "" /\ is_digit a = true))
      /\ s4 = (d ++ rest)%string).
  { apply rmatch_re_d_In in H5.
    destruct H5 as [[x [y [E [Hx Hy]]]]|[x [E Hx]]]; rewrite Ed, E.
    - change (String x (String y rest)) with (String x (String y "") ++ rest)%string.
      rewrite consumed_app. split; [left; eauto|reflexivity].
    - change (String x rest) with (String x "" ++ rest)%string.
      rewrite consumed_app. split; [right; eauto|reflexivity]. }
  destruct Hm as [Hm Es2], Hd as [Hd Es4].
  split; [|split; [|split; assumption]].
  - rewrite Es, H2, Es2, H4, Es4, EY'. reflexivity.
  - exists a, b, c, e. split; assumption.
Qed.

Lemma strptime_ymd_Ok_inv s t :
  strptime_ymd s = Ok t ->
  exists Y m d,
    In (Y, m, d, "") (ymd_matches s)
    /\ t = Date (py_int Y) (py_int m) (py_int d)
    /\ valid_date t = true.
Proof.
  unfold strptime_ymd.
  destruct (ymd_matches s) as [|[[[Y m] d] rest] l] eqn:E; [discriminate|].
  destruct rest; cbn [truthy]; [|discriminate].
  destruct (valid_date _) eqn:Ev; [|discriminate].
  intros [= <-]. exists Y, m, d. split; [now left|]. auto.
Qed.

(** Shape of what strftime writes. *)
Lemma is_digit_digit_char n : is_digit (digit_char (n mod 10)) = true.
Proof.
  assert (H : 0 <= n mod 10 < 10) by (apply Z.mod_pos_bound; lia).
  assert (E : n mod 10 = 0 \/ n mod 10 = 1 \/ n mod 10 = 2 \/ n mod 10 = 3
              \/ n mod 10 = 4 \/ n mod 10 = 5 \/ n mod 10 = 6
              \/ n mod 10 = 7 \/ n mod 10 = 8 \/ n mod 10 = 9) by lia.
  repeat (destruct E as [E|E]; [rewrite E; reflexivity|]).
  rewrite E. reflexivity.
Qed.

Lemma all_chars_app p a b :
  all_chars p (a ++ b)%string = all_chars p a && all_chars p b.
Proof.
  induction a as [|c a IH]; simpl; [reflexivity|].
  now rewrite IH, andb_assoc.
Qed.

Lemma decimal_aux_digits fuel : forall n acc,
  all_chars is_digit acc = true ->
  all_chars is_digit (decimal_aux fuel n acc) = true.
Proof.
  induction fuel as [|fuel IH]; intros n acc H; cbn [decimal_aux]; [exact H|].
  assert (H' : all_chars is_digit (String (digit_char (n mod 10)) acc) = true).
  { cbn [all_chars]. now rewrite is_digit_digit_char, H. }
  destruct (n / 10 =? 0); [exact H'|now apply IH].
Qed.

Lemma zeros_digits k : all_chars is_digit (zeros k) = true.
Proof. induction k; simpl; auto. Qed.

Lemma zeros_length k : String.length (zeros k) = k.
Proof. induction k; simpl; auto. Qed.

Lemma zfill_digits width n : all_chars is_digit (zfill width (decimal n)) = true.
Proof.
  unfold zfill, decimal. rewrite all_chars_app, zeros_digits.
  now apply decimal_aux_digits.
Qed.

Lemma zfill_length width s : (width <= String.length (zfill width s))%nat.
Proof. unfold zfill. rewrite string_length_app, zeros_length. lia. Qed.

(** A string of digits does not start with a dash. *)
Lemma digits_dash_head D t r :
  all_chars is_digit D = true -> (D ++ r)%string = String "-" t -> D = ""%string.
Proof.
  destruct D as [|c D]; [reflexivity|]. cbn [all_chars append].
  intros H [= -> _]. discriminate H.
Qed.

(** What [strptime] reads back from what [strftime] wrote is a well-formed
    date, whatever the fields formatted. *)
Lemma strptime_strftime_inv d t :
  strptime_ymd (strftime_ymd d) = Ok t ->
  well_formed_date (strftime_ymd d) = true /\ calendar (strftime_ymd d) = t.
Proof.
  intros H. apply strptime_ymd_Ok_inv in H.
  destruct H as [Ye [me [de [Hin [Et Hv]]]]].
  apply ymd_matches_In in Hin. destruct Hin as [Es [HY [Hm Hd]]].
  unfold strftime_ymd in *.
  pose proof (zfill_digits 4 (year d)) as DY.
  pose proof (zfill_length 4 (decimal (year d))) as LY.
  pose proof (zfill_digits 2 (month d)) as DM.
  pose proof (zfill_length 2 (decimal (month d))) as LM.
  pose proof (zfill_digits 2 (day d)) as DD.
  pose proof (zfill_length 2 (decimal (day d))) as LD.
  remember (zfill 4 (decimal (year d))) as Y eqn:EY. clear EY.
  remember (zfill 2 (decimal (month d))) as M eqn:EM. clear EM.
  remember (zfill 2 (decimal (day d))) as D eqn:ED. clear ED.
  destruct HY as [a [b [c [e [-> HY]]]]].
  destruct Y as [|y1 [|y2 [|y3 [|y4 Yt]]]]; cbn [String.length] in LY; try lia.
  cbn [all_chars] in DY. rewrite !andb_true_iff in DY.
  destruct DY as [Hy1 [Hy2 [Hy3 [Hy4 DYt]]]].
  cbn [append] in Es. injection Es as -> -> -> -> Es.
  pose proof (digits_dash_head _ _ _ DYt Es) as ->.
  cbn [append] in Es. injection Es as Es.
  destruct M as [|m1 [|m2 Mt]]; cbn [String.length] in LM; try lia.
  cbn [all_chars] in DM. rewrite !andb_true_iff in DM.
  destruct DM as [Hm1 [Hm2 DMt]].
  destruct Hm as [[p [q [-> [Hp Hq]]]]|[p [-> Hp]]]; cbn [append] in Es;
    [|injection Es as _ E2 _; rewrite E2 in Hm2; discriminate Hm2].
  injection Es as -> -> Es.
  pose proof (digits_dash_head _ _ _ DMt Es) as ->.
  cbn [append] in Es. injection Es as Es.
  destruct D as [|d1 [|d2 Dt]]; cbn [String.length] in LD; try lia.
  cbn [all_chars] in DD. rewrite !andb_true_iff in DD.
  destruct DD as [Hd1 [Hd2 DDt]].
  destruct Hd as [[p' [q' [-> [Hp' Hq']]]]|[p' [-> Hp']]]; cbn [append] in Es;
    [|discriminate Es].
  injection Es as -> -> ->.
  rewrite (py_int_4 _ _ _ _ Hy1), (py_int_2 _ _ Hp), (py_int_2 _ _ Hd1) in Et.
  cbn [append well_formed_date calendar forallb].
  rewrite Hy1, Hy2, Hy3, Hy4, Hp, Hq, Hd1, Hq'. cbn [andb Ascii.eqb Bool.eqb].
  subst t. rewrite Hv. split; reflexivity.
Qed.

Lemma well_formed_date_calendar_inj s1 s2 :
  well_formed_date s1 = true -> well_formed_date s2 = true ->
  calendar s1 = calendar s2 -> s1 = s2.
Proof.
  intros H1 H2 E. apply String.compare_eq_iff.
  rewrite <- (calendar_compare s1 s2 H1 H2), E.
  destruct (calendar s2) as [y m dd]. unfold date_compare. cbn [year month day].
  now rewrite !Z.compare_refl.
Qed.

Lemma strptime_strftime_today d today :
  strptime_ymd (strftime_ymd d) = Ok today ->
  strftime_ymd d = strftime_ymd today
  /\ well_formed_date (strftime_ymd today) = true.
Proof.
  intros H. apply strptime_strftime_inv in H. destruct H as [Hw Hc].
  assert (Hv : valid_date today = true).
  { apply well_formed_date_inv in Hw.
    destruct Hw as (y1 & y2 & y3 & y4 & m1 & m2 & d1 & d2 & E & _ & Hv).
    rewrite E in Hc. cbn [calendar] in Hc. now rewrite Hc in Hv. }
  destruct (strftime_ymd_well_formed today Hv) as [Hw' Hc'].
  split; [|exact Hw'].
  apply well_formed_date_calendar_inj; [assumption|assumption|congruence].
Qed.

Lemma extract_model_info_from_github_date rel company_ info :
  extract_model_info_from_github rel company_ = Some info ->
  exists dt, published_at rel = Some dt /\ update_date info = strftime_ymd dt.
Proof.
  unfold extract_model_info_from_github.
  destruct (published_at rel) as [dt|]; [|discriminate].
  destruct (jget (tag_name rel) _); try discriminate.
  destruct (jget (body rel) _); try discriminate.
  intros [= <-]. exists dt. split; reflexivity.
Qed.

Lemma collect_updates_formatted today w existing :
  Forall (fun r => exists d, update_date r = strftime_ymd d)
         (collect_updates today w existing).
Proof.
  destruct (collect_updates_stages today w existing)
    as [a [b [c [E [Fa [Fb [Fc _]]]]]]].
  rewrite E. rewrite !Forall_app. repeat split.
  - eapply Forall_impl; [|exact Fa]. intros r Hr.
    destruct Hr as [company_ [info [u [entries [entry [_ [_ [_ [_ Hr]]]]]]]]].
    destruct Hr as [title [l [_ [_ [_ [_ [_ ->]]]]]]]. cbn [update_date].
    unfold rss_date_of. destruct (entry_published_parsed entry); eauto.
  - eapply Forall_impl; [|exact Fb]. intros r Hr.
    destruct Hr as [company_ [info [u [rels [rel [_ [_ [_ [_ Hr]]]]]]]]].
    apply extract_model_info_from_github_date in Hr.
    destruct Hr as [dt [_ Hr]]. eauto.
  - eapply Forall_impl; [|exact Fc]. intros r Hr.
    destruct Hr as [company_ [info [k [models [m [_ [_ [_ [_ Hr]]]]]]]]].
    apply extract_model_info_from_hf_Some in Hr.
    destruct Hr as [id [_ ->]]. cbn [update_date].
    destruct (lastModified m); eauto.
Qed.

Lemma collect_updates_dates today w existing :
  Forall (fun r => update_date r = strftime_ymd today
                   /\ well_formed_date (update_date r) = true)
         (collect_updates today w existing).
Proof.
  pose proof (collect_updates_today today w existing) as Ht.
  pose proof (collect_updates_formatted today w existing) as Hf.
  rewrite Forall_forall in *. intros r Hin.
  destruct (Hf r Hin) as [d Ed]. specialize (Ht r Hin).
  apply is_today_update_true_iff in Ht. rewrite Ed in Ht.
  apply strptime_strftime_today in Ht. destruct Ht as [E Hw].
  rewrite Ed, E. split; [reflexivity|exact Hw].
Qed.

(** X19. Every record a run accepts has a well-formed [YYYY-MM-DD] date:
    four digits, a dash, two digits, a dash, two digits, a date of the
    calendar. The date test reads with [strptime], which also reads dates
    written otherwise, but the dates tested were all written by
    [strftime]. *)
Theorem accepted_date today w existing r :
  In r (collect_updates today w existing) ->
  well_formed_date (update_date r) = true.
Proof.
  intros Hin. pose proof (collect_updates_dates today w existing) as H.
  rewrite Forall_forall in H. now apply H.
Qed.

Lemma accepted_date_witness :
  well_formed_date (update_date scenario_A_record) = true.
Proof.
  apply (accepted_date day0 scenario_A_world [] scenario_A_record).
  vm_compute. left. reflexivity.
Defined.

(** X20. On a data file whose dates are all well-formed [YYYY-MM-DD]
    dates, the file that a run ending without error leaves has well-formed
    dates only. That file is sorted, latest first, when the run accepted
    records or the file was sorted before the run. *)
Theorem run_keeps_store_well_formed today w st st' existing new_updates :
  load_existing_data st = Ok existing ->
  Forall (fun r => well_formed_date (update_date r) = true) existing ->
  fetch_all_updates today w st = (st', Ok new_updates) ->
  exists existing',
    load_existing_data st' = Ok existing'
    /\ Forall (fun r => well_formed_date (update_date r) = true) existing'
    /\ (new_updates <> [] \/ Sorted dated_no_earlier existing ->
        Sorted dated_no_earlier existing').
Proof.
  intros Hl Hw H. unfold fetch_all_updates in H. rewrite Hl in H.
  destruct (collect_updates today w existing) as [|u rest] eqn:Ec.
  - injection H as <- <-. exists existing. repeat split; auto.
    intros [H|H]; [now contradiction H|exact H].
  - assert (Hall : Forall (fun r => well_formed_date (update_date r) = true)
                     (existing ++ u :: rest)).
    { apply Forall_app. split; [assumption|]. rewrite <- Ec.
      eapply Forall_impl; [|apply collect_updates_dates]. now intros r [_ Hr]. }
    destruct (sort_keys_well_formed _ Hall) as [ks [Hk [Hm Hf]]].
    assert (Hf' : Forall keyed (sort_desc ks)).
    { rewrite Forall_forall in *. intros kx Hin. apply Hf.
      eapply Permutation_in; [apply sort_desc_perm|exact Hin]. }
    unfold save_data in H. rewrite Hk in H. injection H as <- <-.
    exists (map snd (sort_desc ks)).
    split; [reflexivity|]. split.
    + rewrite Forall_forall in *. intros r Hr. apply Hall.
      rewrite <- Hm. eapply Permutation_in; [|exact Hr].
      apply Permutation_map, sort_desc_perm.
    + intros _. apply Sorted_map_snd; [exact Hf'|apply sort_desc_sorted].
Qed.

(** Scenario A run on the file of scenario B: the file left is sorted. *)
Lemma run_keeps_store_well_formed_witness :
  exists existing',
    load_existing_data (StoreRecords (scenario_A_record :: scenario_B_store))
    = Ok existing'
    /\ Forall (fun r => well_formed_date (update_date r) = true) existing'
    /\ Sorted dated_no_earlier existing'.
Proof.
  destruct (run_keeps_store_well_formed day0 scenario_A_world
              (StoreRecords scenario_B_store)
              (StoreRecords (scenario_A_record :: scenario_B_store))
              scenario_B_store [scenario_A_record])
    as [existing' [H1 [H2 H3]]].
  - reflexivity.
  - repeat constructor.
  - vm_compute. reflexivity.
  - exists existing'. split; [exact H1|]. split; [exact H2|].
    apply H3. left. discriminate.
Defined.

(** ** A release always gets a name *)

Lemma truthy_app a b : truthy b = true -> truthy (a ++ b) = true.
Proof. destruct a; [auto|reflexivity]. Qed.

(** X21. The model name of a record made from a release is never the empty
    string, whatever the tag, the name and the company: where the cleaning
    leaves nothing, the placeholder is used, and it holds [ Model ]. *)
Theorem github_model_name_not_empty rel company_ info :
  extract_model_info_from_github rel company_ = Some info ->
  truthy (model_name info) = true.
Proof.
  intros H. apply extract_model_info_from_github_name in H.
  destruct H as [raw [_ ->]].
  destruct (truthy (strip (strip_dash (re_sub_prefix version_re raw)))) eqn:E.
  - exact E.
  - unfold placeholder. apply truthy_app. reflexivity.
Qed.

Lemma github_model_name_not_empty_witness :
  truthy (model_name
    (Update "OpenAI" "OpenAI Model v1.2.3" "2025-06-01" "Fixes" "GitHub"
       "https://github.com/openai/openai-python/releases/tag/v1.2.3"))
  = true.
Proof.
  apply (github_model_name_not_empty numbered_release "OpenAI").
  reflexivity.
Defined.
